(** * Storage device hierarchy of anaconda: a shallow embedding of
      [storage/devices.py] and the properties its specification states.

    Python numbers are modelled as the union of unbounded integers and
    IEEE-754 binary64 floats ([spec_float] of the standard library, with
    precision 53 and maximal exponent 1024), exceptions as values of [exn],
    and the device graph as a finite map from object identities to device
    records.  Calls of external tools (lvm, parted, udev) and of format
    methods are recorded as events and taken to succeed, except the commit
    of a disk label, which may fail.  Logging is not modelled, and neither
    is the evaluation of the arguments of a logging call. *)

From Stdlib Require Import ZArith List String Ascii Bool Lia Permutation.
From Stdlib Require Import SpecFloat.
From stdpp Require Import base option list gmap.
Import ListNotations.

Local Open Scope string_scope.
Local Open Scope Z_scope.

(** ** Exceptions and results *)

Inductive exn : Type :=
| DeviceError (msg : string) (device : string)
| ValueError (msg : string)
| OverflowError (msg : string)
| ZeroDivisionError (msg : string)
| ArithmeticError (msg : string)
| PartitionException (msg : string)
| DiskLabelCommitError (msg : string)
| AttributeError (msg : string).

Inductive res (A : Type) : Type :=
| Ok (a : A)
| Raise (e : exn).
Arguments Ok {A} a.
Arguments Raise {A} e.

Definition res_bind {A B} (r : res A) (k : A -> res B) : res B :=
  match r with
  | Ok a => k a
  | Raise e => Raise e
  end.

Declare Scope res_scope.
Delimit Scope res_scope with res.
Notation "'do' x <- c ; k" := (res_bind c (fun x => k))
  (at level 10, x name, c at level 100, k at level 200) : res_scope.

(** ** Python numbers *)

Module Py.

Local Open Scope res_scope.

(** binary64 *)
Definition prec : Z := 53.
Definition emax : Z := 1024.

Inductive num : Type :=
| PInt (z : Z)
| PFloat (f : spec_float).

Definition fadd := SFadd prec emax.
Definition fsub := SFsub prec emax.
Definition fmul := SFmul prec emax.
Definition fdiv := SFdiv prec emax.

(** The float nearest to an integer (round to nearest, ties to even). *)
Definition float_of_Z (z : Z) : spec_float := binary_normalize prec emax z 0 false.

(** [float(x)]: an integer too large for a double raises OverflowError. *)
Definition to_float (x : num) : res spec_float :=
  match x with
  | PFloat f => Ok f
  | PInt z =>
      match float_of_Z z with
      | S754_infinity _ => Raise (OverflowError "long int too large to convert to float")
      | f => Ok f
      end
  end.

Definition is_zero (f : spec_float) : bool :=
  match f with S754_zero _ => true | _ => false end.

Definition sign_of (f : spec_float) : bool :=
  match f with
  | S754_zero s | S754_infinity s | S754_finite s _ _ => s
  | S754_nan => false
  end.

(** The integer part of a finite float, rounded toward minus infinity. *)
Definition floorZ (s : bool) (m : positive) (e : Z) : Z :=
  match e with
  | Zneg p => cond_Zopp s (Zpos m) / 2 ^ Zpos p
  | _ => cond_Zopp s (Zpos m) * 2 ^ e
  end.

Definition ceilZ (s : bool) (m : positive) (e : Z) : Z :=
  - floorZ (negb s) m e.

(** Truncation toward zero, as [long(x)] does on a float. *)
Definition truncZ (s : bool) (m : positive) (e : Z) : Z :=
  match e with
  | Zneg p => cond_Zopp s (Zpos m / 2 ^ Zpos p)
  | _ => cond_Zopp s (Zpos m * 2 ^ e)
  end.

(** [math.floor] and [math.ceil] of Python 2 return floats. *)
Definition float_floor (f : spec_float) : spec_float :=
  match f with
  | S754_finite s m (Zneg p) => binary_normalize prec emax (floorZ s m (Zneg p)) 0 s
  | _ => f
  end.

Definition float_ceil (f : spec_float) : spec_float :=
  match f with
  | S754_finite s m (Zneg p) => binary_normalize prec emax (ceilZ s m (Zneg p)) 0 s
  | _ => f
  end.

Definition math_floor (x : num) : res num :=
  do f <- to_float x; Ok (PFloat (float_floor f)).

Definition math_ceil (x : num) : res num :=
  do f <- to_float x; Ok (PFloat (float_ceil f)).

(** [long(x)] *)
Definition long (x : num) : res Z :=
  match x with
  | PInt z => Ok z
  | PFloat S754_nan => Raise (ValueError "cannot convert float NaN to integer")
  | PFloat (S754_infinity _) => Raise (OverflowError "cannot convert float infinity to integer")
  | PFloat (S754_zero _) => Ok 0
  | PFloat (S754_finite s m e) => Ok (truncZ s m e)
  end.

(** Arithmetic: two integers give an integer, anything else goes through
    floats. *)
Definition arith (fz : Z -> Z -> Z) (ff : spec_float -> spec_float -> spec_float)
    (x y : num) : res num :=
  match x, y with
  | PInt a, PInt b => Ok (PInt (fz a b))
  | _, _ => do a <- to_float x; do b <- to_float y; Ok (PFloat (ff a b))
  end.

Definition add := arith Z.add fadd.
Definition sub := arith Z.sub fsub.
Definition mul := arith Z.mul fmul.

(** [x / y] of Python 2 without true division: floor division on two
    integers, IEEE division otherwise; a zero divisor raises. *)
Definition div (x y : num) : res num :=
  match x, y with
  | PInt a, PInt b =>
      if b =? 0 then Raise (ZeroDivisionError "integer division or modulo by zero")
      else Ok (PInt (a / b))
  | _, _ =>
      do a <- to_float x; do b <- to_float y;
      if is_zero b then Raise (ZeroDivisionError "float division by zero")
      else Ok (PFloat (fdiv a b))
  end.

(** The C [fmod] on finite operands: exact, with the sign of the dividend. *)
Definition fmod_finite (sx : bool) (mx : positive) (ex : Z)
    (my : positive) (ey : Z) : spec_float :=
  let e := Z.min ex ey in
  let X := Zpos mx * 2 ^ (ex - e) in
  let Y := Zpos my * 2 ^ (ey - e) in
  binary_normalize prec emax (cond_Zopp sx (Z.rem X Y)) e sx.

(** [x % y] on floats, as [float_rem] of CPython: [fmod], then the divisor
    is added when the signs differ, and a zero takes the divisor's sign. *)
Definition float_mod (x y : spec_float) : spec_float :=
  let fix_sign (m : spec_float) :=
    if is_zero m then S754_zero (sign_of y)
    else if Bool.eqb (sign_of m) (sign_of y) then m else fadd m y in
  match x, y with
  | S754_nan, _ | _, S754_nan => S754_nan
  | S754_infinity _, _ => S754_nan
  | _, S754_infinity _ => fix_sign x
  | S754_zero _, _ => fix_sign x
  | S754_finite sx mx ex, S754_finite _ my ey => fix_sign (fmod_finite sx mx ex my ey)
  | S754_finite _ _ _, S754_zero _ => S754_nan
  end.

Definition mod_ (x y : num) : res num :=
  match x, y with
  | PInt a, PInt b =>
      if b =? 0 then Raise (ZeroDivisionError "integer division or modulo by zero")
      else Ok (PInt (a mod b))
  | _, _ =>
      do a <- to_float x; do b <- to_float y;
      if is_zero b then Raise (ZeroDivisionError "float modulo")
      else Ok (PFloat (float_mod a b))
  end.

(** Comparison is exact, also between an integer and a float; [None] when
    a NaN is involved (every ordering test is then false). *)
Definition cmp_float_Z (f : spec_float) (z : Z) : option comparison :=
  match f with
  | S754_nan => None
  | S754_infinity s => Some (if s then Lt else Gt)
  | S754_zero _ => Some (0 ?= z)
  | S754_finite s m (Zneg p) => Some (cond_Zopp s (Zpos m) ?= z * 2 ^ Zpos p)
  | S754_finite s m e => Some (cond_Zopp s (Zpos m) * 2 ^ e ?= z)
  end.

Definition compare (x y : num) : option comparison :=
  match x, y with
  | PInt a, PInt b => Some (a ?= b)
  | PFloat f, PInt b => cmp_float_Z f b
  | PInt a, PFloat g => option_map CompOpp (cmp_float_Z g a)
  | PFloat f, PFloat g => SFcompare f g
  end.

Definition lt (x y : num) : bool :=
  match compare x y with Some Lt => true | _ => false end.
Definition le (x y : num) : bool :=
  match compare x y with Some (Lt | Eq) => true | _ => false end.
Definition gt (x y : num) : bool :=
  match compare x y with Some Gt => true | _ => false end.
Definition eq (x y : num) : bool :=
  match compare x y with Some Eq => true | _ => false end.
Definition ne (x y : num) : bool := negb (eq x y).

(** Truth value of a number. *)
Definition truthy (x : num) : bool :=
  match x with
  | PInt z => negb (z =? 0)
  | PFloat f => negb (is_zero f)
  end.

(** [iutil.numeric_type], which is not among the sources at hand, taken as
    its callers use it: [None] becomes 0, a number is returned as it is. *)
Definition numeric_type (x : option num) : num :=
  match x with
  | None => PInt 0
  | Some n => n
  end.

(** Float literals used by the source. *)
Definition f1024 : spec_float := float_of_Z 1024.
Definition f2 : spec_float := float_of_Z 2.
Definition f4 : spec_float := float_of_Z 4.
Definition f512 : spec_float := float_of_Z 512.

(** The double [2 ** k], for [k] in the normal range. *)
Definition pow2 (k : Z) : spec_float := S754_finite false 4503599627370496 (k - 52).

(** The 53-bit mantissa of the double of a positive integer below
    [2 ** 53]: the integer, shifted left until it has 53 bits. *)
Definition normal_mantissa (n : positive) : positive :=
  match (Zpos (digits2_pos n) - 53)%Z with
  | Zneg j => Pos.iter xO n j
  | _ => n
  end.

(** Integer ceiling of a quotient, and multiplication by [2 ** k]
    followed by truncation. *)
Definition ceil_div (a b : Z) : Z := - ((- a) / b).

Definition scale2 (k c : Z) : Z := if k <? 0 then c / 2 ^ (- k) else c * 2 ^ k.

(** Whether rounding to nearest, ties to even, moves a truncated
    mantissa up by one. *)
Definition round_up (mx : Z) (l : location) : bool :=
  match l with
  | loc_Exact | loc_Inexact Lt => false
  | loc_Inexact Eq => negb (Z.even mx)
  | loc_Inexact Gt => true
  end.

(** The location after one more bit [b] has been shifted out. *)
Definition shifted_loc (b : bool) (l : location) : location :=
  match b, l with
  | false, loc_Exact => loc_Exact
  | false, _ => loc_Inexact Lt
  | true, loc_Exact => loc_Inexact Eq
  | true, _ => loc_Inexact Gt
  end.

End Py.

(** ** MDRaidArrayDevice: size arithmetic *)

Module MDRaid.
Import Py.
Local Open Scope res_scope.

(** RAID level constants of [devicelibs.mdraid], which is not among the
    sources at hand; only their being distinct matters below. *)
Definition RAID0 : Z := 0.
Definition RAID1 : Z := 1.
Definition RAID4 : Z := 4.
Definition RAID5 : Z := 5.
Definition RAID6 : Z := 6.
Definition RAID10 : Z := 10.

(** [self.level]: [None], the string "container", or a numeric level. *)
Inductive level_t : Type :=
| LevelNone
| LevelContainer
| Level (n : Z).

Definition level_is (l : level_t) (n : Z) : bool :=
  match l with
  | Level k => k =? n
  | _ => false
  end.

(** A member device, with the value its [size] property returns. *)
Record Member : Type := {
  member_name : string;
  member_size : num
}.

Record MDRaidArrayDevice : Type := {
  name : string;
  exists_ : option bool;
  level : level_t;
  _type : string;
  _size : num;
  _memberDevices : num;
  metadataVersion : string;
  chunkSize : num;
  devices : list Member;
  (** [partedDevice.getSize()] when there is a parted device *)
  partedDevice : option num
}.

Definition memberDevices (d : MDRaidArrayDevice) : num := _memberDevices d.

(** [sorted(self.devices, key=lambda d: d.size)]: a stable sort on [<]. *)
Fixpoint insert_sorted (x : Member) (l : list Member) : list Member :=
  match l with
  | [] => [x]
  | y :: l' =>
      if lt (member_size x) (member_size y) then x :: y :: l'
      else y :: insert_sorted x l'
  end.

Definition sorted (l : list Member) : list Member :=
  fold_left (fun acc x => insert_sorted x acc) l [].

Definition smallestMember (d : MDRaidArrayDevice) : option Member :=
  match sorted (devices d) with
  | [] => None
  | m :: _ => Some m
  end.

Definition smallestMember_size (d : MDRaidArrayDevice) : res num :=
  match smallestMember d with
  | Some m => Ok (member_size m)
  | None => Raise (AttributeError "'NoneType' object has no attribute 'size'")
  end.

Definition rawArraySize (d : MDRaidArrayDevice) : res num :=
  do smallestMemberSize <- smallestMember_size d;
  if level_is (level d) RAID0 then
    mul (memberDevices d) smallestMemberSize
  else if level_is (level d) RAID1 then
    Ok smallestMemberSize
  else if level_is (level d) RAID4 then
    do n <- sub (memberDevices d) (PInt 1); mul n smallestMemberSize
  else if level_is (level d) RAID5 then
    do n <- sub (memberDevices d) (PInt 1); mul n smallestMemberSize
  else if level_is (level d) RAID6 then
    do n <- sub (memberDevices d) (PInt 2); mul n smallestMemberSize
  else if level_is (level d) RAID10 then
    do n <- div (memberDevices d) (PFloat f2); mul n smallestMemberSize
  else
    Ok smallestMemberSize.

(** [while headroom << 10 > array_size: headroom >>= 1]; [None] when the
    loop has not ended after [fuel] halvings. *)
Fixpoint headroom_loop (fuel : nat) (headroom : Z) (array_size : num) : option Z :=
  if gt (PInt (Z.shiftl headroom 10)) array_size then
    match fuel with
    | O => None
    | S fuel' => headroom_loop fuel' (Z.shiftr headroom 1) array_size
    end
  else Some headroom.

Definition superBlockSize (fuel : nat) (d : MDRaidArrayDevice) : option (res num) :=
  if negb (existsb (String.eqb (metadataVersion d)) ["1.1"; "1.2"]) then
    Some (Ok (PFloat f2))
  else
    match rawArraySize d with
    | Raise e => Some (Raise e)
    | Ok array_size =>
        match headroom_loop fuel 128 array_size with
        | None => None
        | Some headroom => Some (Ok (PInt headroom))
        end
    end.

Definition py_true (b : option bool) : bool :=
  match b with
  | Some true => true
  | _ => false
  end.

(** [size -= size % self.chunkSize] *)
Definition chunk_align (d : MDRaidArrayDevice) (size : num) : res num :=
  do r <- mod_ size (chunkSize d); sub size r.

Definition computed_size (d : MDRaidArrayDevice) (smallestMemberSize : num) : res num :=
  do size <-
    (if level_is (level d) RAID0 then
       do s <- mul (memberDevices d) smallestMemberSize; chunk_align d s
     else if level_is (level d) RAID1 then
       Ok smallestMemberSize
     else if level_is (level d) RAID4 then
       do n <- sub (memberDevices d) (PInt 1);
       do s <- mul n smallestMemberSize; chunk_align d s
     else if level_is (level d) RAID5 then
       do n <- sub (memberDevices d) (PInt 1);
       do s <- mul n smallestMemberSize; chunk_align d s
     else if level_is (level d) RAID6 then
       do n <- sub (memberDevices d) (PInt 2);
       do s <- mul n smallestMemberSize; chunk_align d s
     else if level_is (level d) RAID10 then
       do n <- div (memberDevices d) (PFloat f2);
       do s <- mul n smallestMemberSize; chunk_align d s
     else Ok (PInt 0));
  sub size (PInt 1).

Definition size (fuel : nat) (d : MDRaidArrayDevice) : option (res num) :=
  match devices d with
  | [] => Some (Ok (PInt 0))
  | _ =>
      if String.eqb (_type d) "mdbiosraidarray" then Some (Ok (_size d))
      else
        match smallestMember_size d with
        | Raise e => Some (Raise e)
        | Ok sm =>
            match superBlockSize fuel d with
            | None => None
            | Some (Raise e) => Some (Raise e)
            | Some (Ok sb) =>
                Some (do smallestMemberSize <- sub sm sb;
                      match negb (py_true (exists_ d)), partedDevice d with
                      | false, Some probed => Ok probed
                      | _, _ => computed_size d smallestMemberSize
                      end)
            end
        end
  end.

(** The default chunk size, [512.0 / 1024.0] MB. *)
Definition default_chunkSize : num := PFloat (fdiv f512 f1024).

Definition mk_member (n : string) (s : Z) : Member :=
  {| member_name := n; member_size := PInt s |}.

(** A new RAID1 array over members of 100, 150 and 200 MB. *)
Definition raid1_example (version : string) : MDRaidArrayDevice :=
  {| name := "md0"; exists_ := Some false; level := Level RAID1;
     _type := "mdarray"; _size := PInt 0; _memberDevices := PInt 3;
     metadataVersion := version; chunkSize := default_chunkSize;
     devices := [mk_member "sda1" 100; mk_member "sdb1" 150; mk_member "sdc1" 200];
     partedDevice := None |}.

End MDRaid.

(** ** The device graph *)

Module Storage.
Import Py.

(** The part of a [DeviceFormat] the device classes read.  The format
    classes are external to the device hierarchy: their methods are
    recorded as events, and [fmt_status] is what the [status] property
    reports. *)
Record DeviceFormat : Type := {
  fmt_type : option string;
  fmt_device : string;
  fmt_exists : option bool;
  fmt_status : bool;
  fmt_resizable : bool;
  fmt_peStart : num
}.

Inductive DevClass : Type :=
| StorageDevice
| PartitionDevice
| LVMVolumeGroupDevice
| LVMLogicalVolumeDevice
| LVMThinPoolDevice
| LVMThinLogicalVolumeDevice.

(** A [parted.Partition]: its path, its geometry, the sector size of
    the device of that geometry, and what [getDeviceNodeName] answers
    for it. *)
Record PartedPartition : Type := {
  pp_path : string;
  pp_start : Z;
  pp_length : Z;
  pp_sectorSize : Z;
  pp_nodeName : string
}.

(** A device object.  Objects are identified by their key in the store;
    [parents] and [_lvs] hold such keys.  [node_active] and [parted_probe]
    are what the system outside answers for this device: whether its node
    (or device-mapper table) is live, and the size [parted.Device] reports
    for its path, if it can be opened at all. *)
Record Device : Type := {
  cls : DevClass;
  _name : string;
  parents : list nat;
  kids : Z;
  exists_ : option bool;
  _format : option DeviceFormat;
  originalFormat : option DeviceFormat;
  sysfsPath : string;
  _size : num;
  _targetSize : num;
  _partedDevice : option num;
  node_active : bool;
  parted_probe : option num;
  (* PartitionDevice; [req_name] is [None] when the attribute is not set *)
  partedPartition : option PartedPartition;
  req_name : option string;
  (* LVMVolumeGroupDevice, and the list of thin volumes of a pool *)
  peSize : num;
  _lvs : list nat;
  pvCount : num;
  hasDuplicate : bool;
  reserved_percent : num;
  reserved_space : num;
  voriginSnapshots : list (string * num);
  (* LVMLogicalVolumeDevice *)
  copies : num;
  logSize : num;
  metaDataSize : num;
  snapshotSpace : num;
  snapshots : list string
}.

Definition set_kids (v : Z) (d : Device) : Device :=
  {| cls := cls d; _name := _name d; parents := parents d; kids := v;
     exists_ := exists_ d; _format := _format d; originalFormat := originalFormat d;
     sysfsPath := sysfsPath d; _size := _size d; _targetSize := _targetSize d;
     _partedDevice := _partedDevice d; node_active := node_active d;
     parted_probe := parted_probe d; partedPartition := partedPartition d; req_name := req_name d;
     peSize := peSize d; _lvs := _lvs d; pvCount := pvCount d;
     hasDuplicate := hasDuplicate d; reserved_percent := reserved_percent d;
     reserved_space := reserved_space d; voriginSnapshots := voriginSnapshots d;
     copies := copies d; logSize := logSize d; metaDataSize := metaDataSize d;
     snapshotSpace := snapshotSpace d; snapshots := snapshots d |}.

Definition set_exists (v : option bool) (d : Device) : Device :=
  {| cls := cls d; _name := _name d; parents := parents d; kids := kids d;
     exists_ := v; _format := _format d; originalFormat := originalFormat d;
     sysfsPath := sysfsPath d; _size := _size d; _targetSize := _targetSize d;
     _partedDevice := _partedDevice d; node_active := node_active d;
     parted_probe := parted_probe d; partedPartition := partedPartition d; req_name := req_name d;
     peSize := peSize d; _lvs := _lvs d; pvCount := pvCount d;
     hasDuplicate := hasDuplicate d; reserved_percent := reserved_percent d;
     reserved_space := reserved_space d; voriginSnapshots := voriginSnapshots d;
     copies := copies d; logSize := logSize d; metaDataSize := metaDataSize d;
     snapshotSpace := snapshotSpace d; snapshots := snapshots d |}.

Definition set_format (v : option DeviceFormat) (d : Device) : Device :=
  {| cls := cls d; _name := _name d; parents := parents d; kids := kids d;
     exists_ := exists_ d; _format := v; originalFormat := originalFormat d;
     sysfsPath := sysfsPath d; _size := _size d; _targetSize := _targetSize d;
     _partedDevice := _partedDevice d; node_active := node_active d;
     parted_probe := parted_probe d; partedPartition := partedPartition d; req_name := req_name d;
     peSize := peSize d; _lvs := _lvs d; pvCount := pvCount d;
     hasDuplicate := hasDuplicate d; reserved_percent := reserved_percent d;
     reserved_space := reserved_space d; voriginSnapshots := voriginSnapshots d;
     copies := copies d; logSize := logSize d; metaDataSize := metaDataSize d;
     snapshotSpace := snapshotSpace d; snapshots := snapshots d |}.

Definition set_size (v : num) (d : Device) : Device :=
  {| cls := cls d; _name := _name d; parents := parents d; kids := kids d;
     exists_ := exists_ d; _format := _format d; originalFormat := originalFormat d;
     sysfsPath := sysfsPath d; _size := v; _targetSize := _targetSize d;
     _partedDevice := _partedDevice d; node_active := node_active d;
     parted_probe := parted_probe d; partedPartition := partedPartition d; req_name := req_name d;
     peSize := peSize d; _lvs := _lvs d; pvCount := pvCount d;
     hasDuplicate := hasDuplicate d; reserved_percent := reserved_percent d;
     reserved_space := reserved_space d; voriginSnapshots := voriginSnapshots d;
     copies := copies d; logSize := logSize d; metaDataSize := metaDataSize d;
     snapshotSpace := snapshotSpace d; snapshots := snapshots d |}.

Definition set_targetSize (v : num) (d : Device) : Device :=
  {| cls := cls d; _name := _name d; parents := parents d; kids := kids d;
     exists_ := exists_ d; _format := _format d; originalFormat := originalFormat d;
     sysfsPath := sysfsPath d; _size := _size d; _targetSize := v;
     _partedDevice := _partedDevice d; node_active := node_active d;
     parted_probe := parted_probe d; partedPartition := partedPartition d; req_name := req_name d;
     peSize := peSize d; _lvs := _lvs d; pvCount := pvCount d;
     hasDuplicate := hasDuplicate d; reserved_percent := reserved_percent d;
     reserved_space := reserved_space d; voriginSnapshots := voriginSnapshots d;
     copies := copies d; logSize := logSize d; metaDataSize := metaDataSize d;
     snapshotSpace := snapshotSpace d; snapshots := snapshots d |}.

Definition set_partedDevice (v : option num) (d : Device) : Device :=
  {| cls := cls d; _name := _name d; parents := parents d; kids := kids d;
     exists_ := exists_ d; _format := _format d; originalFormat := originalFormat d;
     sysfsPath := sysfsPath d; _size := _size d; _targetSize := _targetSize d;
     _partedDevice := v; node_active := node_active d;
     parted_probe := parted_probe d; partedPartition := partedPartition d; req_name := req_name d;
     peSize := peSize d; _lvs := _lvs d; pvCount := pvCount d;
     hasDuplicate := hasDuplicate d; reserved_percent := reserved_percent d;
     reserved_space := reserved_space d; voriginSnapshots := voriginSnapshots d;
     copies := copies d; logSize := logSize d; metaDataSize := metaDataSize d;
     snapshotSpace := snapshotSpace d; snapshots := snapshots d |}.

Definition set_node_active (v : bool) (d : Device) : Device :=
  {| cls := cls d; _name := _name d; parents := parents d; kids := kids d;
     exists_ := exists_ d; _format := _format d; originalFormat := originalFormat d;
     sysfsPath := sysfsPath d; _size := _size d; _targetSize := _targetSize d;
     _partedDevice := _partedDevice d; node_active := v;
     parted_probe := parted_probe d; partedPartition := partedPartition d; req_name := req_name d;
     peSize := peSize d; _lvs := _lvs d; pvCount := pvCount d;
     hasDuplicate := hasDuplicate d; reserved_percent := reserved_percent d;
     reserved_space := reserved_space d; voriginSnapshots := voriginSnapshots d;
     copies := copies d; logSize := logSize d; metaDataSize := metaDataSize d;
     snapshotSpace := snapshotSpace d; snapshots := snapshots d |}.

Definition set_name (v : string) (d : Device) : Device :=
  {| cls := cls d; _name := v; parents := parents d; kids := kids d;
     exists_ := exists_ d; _format := _format d; originalFormat := originalFormat d;
     sysfsPath := sysfsPath d; _size := _size d; _targetSize := _targetSize d;
     _partedDevice := _partedDevice d; node_active := node_active d;
     parted_probe := parted_probe d; partedPartition := partedPartition d; req_name := req_name d;
     peSize := peSize d; _lvs := _lvs d; pvCount := pvCount d;
     hasDuplicate := hasDuplicate d; reserved_percent := reserved_percent d;
     reserved_space := reserved_space d; voriginSnapshots := voriginSnapshots d;
     copies := copies d; logSize := logSize d; metaDataSize := metaDataSize d;
     snapshotSpace := snapshotSpace d; snapshots := snapshots d |}.

Definition set_partedPartition (v : option PartedPartition) (d : Device) : Device :=
  {| cls := cls d; _name := _name d; parents := parents d; kids := kids d;
     exists_ := exists_ d; _format := _format d; originalFormat := originalFormat d;
     sysfsPath := sysfsPath d; _size := _size d; _targetSize := _targetSize d;
     _partedDevice := _partedDevice d; node_active := node_active d;
     parted_probe := parted_probe d; partedPartition := v; req_name := req_name d;
     peSize := peSize d; _lvs := _lvs d; pvCount := pvCount d;
     hasDuplicate := hasDuplicate d; reserved_percent := reserved_percent d;
     reserved_space := reserved_space d; voriginSnapshots := voriginSnapshots d;
     copies := copies d; logSize := logSize d; metaDataSize := metaDataSize d;
     snapshotSpace := snapshotSpace d; snapshots := snapshots d |}.

(** Calls that leave the process: format methods, udev, lvm and the
    partition table of a disk label. *)
Inductive Event : Type :=
| FormatSetup (dev : nat) (orig : bool)
| FormatTeardown (dev : nat) (orig : bool)
| UdevSettle
| LvActivate (vg lv : string)
| LvDeactivate (vg lv : string)
| LvRemove (vg lv : string)
| LabelRemovePartition (disk : nat) (part : option PartedPartition)
| LabelAddPartition (disk : nat) (part : option PartedPartition)
| LabelCommit (disk : nat).

(** The state: the objects, the calls made so far, whether the next
    commit of a disk label succeeds, and what [getPartitionByPath] of the
    parted disk of the original label of a disk answers for a path. *)
Record World : Type := {
  devs : gmap nat Device;
  trace : list Event;
  commit_ok : bool;
  partition_by_path : nat -> string -> option PartedPartition
}.

Definition with_devs (m : gmap nat Device) (w : World) : World :=
  {| devs := m; trace := trace w; commit_ok := commit_ok w;
     partition_by_path := partition_by_path w |}.

Definition with_trace (t : list Event) (w : World) : World :=
  {| devs := devs w; trace := t; commit_ok := commit_ok w;
     partition_by_path := partition_by_path w |}.

(** A run either returns, raises, or is not covered by the model
    ([Abort]): the recursion budget is used up, a key names no object, or
    an object is not of the class its constructor guarantees. *)
Inductive outcome (A : Type) : Type :=
| Return (a : A) (w : World)
| Throw (e : exn) (w : World)
| Abort.
Arguments Return {A} a w.
Arguments Throw {A} e w.
Arguments Abort {A}.

Definition M (A : Type) : Type := World -> outcome A.

Definition ret {A} (a : A) : M A := fun w => Return a w.

Definition bind {A B} (m : M A) (k : A -> M B) : M B :=
  fun w =>
    match m w with
    | Return a w' => k a w'
    | Throw e w' => Throw e w'
    | Abort => Abort
    end.

Definition raise {A} (e : exn) : M A := fun w => Throw e w.
Definition stop {A} : M A := fun _ => Abort.

Definition lift {A} (r : res A) : M A :=
  match r with
  | Ok a => ret a
  | Raise e => raise e
  end.

Declare Scope m_scope.
Delimit Scope m_scope with M.
Notation "'let!' x ':=' c 'in' k" := (bind c (fun x => k))
  (at level 10, x name, c at level 100, k at level 200) : m_scope.
Notation "'exec' c 'in' k" := (bind c (fun _ => k))
  (at level 10, c at level 100, k at level 200) : m_scope.
Local Open Scope m_scope.

Definition get (i : nat) : M Device :=
  fun w =>
    match devs w !! i with
    | Some d => Return d w
    | None => Abort
    end.

Definition modify (i : nat) (f : Device -> Device) : M unit :=
  fun w =>
    match devs w !! i with
    | Some d => Return tt (with_devs (<[i := f d]> (devs w)) w)
    | None => Abort
    end.

Definition emit (e : Event) : M unit :=
  fun w => Return tt (with_trace (trace w ++ [e]) w).

Fixpoint for_each {A} (f : A -> M unit) (l : list A) : M unit :=
  match l with
  | [] => ret tt
  | x :: l' => exec f x in for_each f l'
  end.

Definition py_true (b : option bool) : bool :=
  match b with
  | Some true => true
  | _ => false
  end.

(** A read of the objects that changes nothing. *)
Definition query {A} (f : gmap nat Device -> option A) : M A :=
  fun w =>
    match f (devs w) with
    | Some a => Return a w
    | None => Abort
    end.

(** *** Names and paths *)

(** [s.replace("-", "--")] *)
Fixpoint replace_dash (s : string) : string :=
  match s with
  | EmptyString => EmptyString
  | String c s' =>
      if Ascii.eqb c "-"%char then String "-"%char (String "-"%char (replace_dash s'))
      else String c (replace_dash s')
  end.

Definition _devDir (c : DevClass) : string :=
  match c with
  | StorageDevice | PartitionDevice => "/dev"
  | _ => "/dev/mapper"
  end.

Definition is_lv (c : DevClass) : bool :=
  match c with
  | LVMLogicalVolumeDevice | LVMThinPoolDevice | LVMThinLogicalVolumeDevice => true
  | _ => false
  end.

Definition is_vg (c : DevClass) : bool :=
  match c with
  | LVMVolumeGroupDevice => true
  | _ => false
  end.

(** [self.vg]: the first parent, or the first parent of the pool for a
    thin volume. *)
Definition vg_of (m : gmap nat Device) (d : Device) : option nat :=
  match cls d with
  | LVMLogicalVolumeDevice | LVMThinPoolDevice => head (parents d)
  | LVMThinLogicalVolumeDevice =>
      match head (parents d) with
      | Some pool =>
          match m !! pool with
          | Some pd =>
              match cls pd with
              | LVMThinPoolDevice => head (parents pd)
              | _ => None
              end
          | None => None
          end
      | None => None
      end
  | _ => None
  end.

Definition vg_dev (m : gmap nat Device) (d : Device) : option Device :=
  match vg_of m d with
  | Some v =>
      match m !! v with
      | Some vd => if is_vg (cls vd) then Some vd else None
      | None => None
      end
  | None => None
  end.

(** The [name] property. *)
Definition name_of (m : gmap nat Device) (d : Device) : option string :=
  if is_lv (cls d) then
    match vg_dev m d with
    | Some vd => Some (_name vd ++ "-" ++ _name d)%string
    | None => None
    end
  else Some (_name d).

Definition mapName (m : gmap nat Device) (d : Device) : option string :=
  if is_lv (cls d) then
    match vg_dev m d with
    | Some vd => Some (replace_dash (_name vd) ++ "-" ++ replace_dash (_name d))%string
    | None => None
    end
  else if is_vg (cls d) then Some (replace_dash (_name d))
  else Some (_name d).

(** The [path] property. *)
Definition path_of (m : gmap nat Device) (d : Device) : option string :=
  match cls d with
  | StorageDevice => Some ("/dev/" ++ _name d)%string
  | PartitionDevice =>
      match parents d with
      | [] => Some ("/dev/" ++ _name d)%string
      | p :: _ =>
          match m !! p with
          | Some pd => Some (_devDir (cls pd) ++ "/" ++ _name d)%string
          | None => None
          end
      end
  | _ =>
      match mapName m d with
      | Some n => Some ("/dev/mapper/" ++ n)%string
      | None => None
      end
  end.

Definition name (i : nat) : M string :=
  query (fun m => match m !! i with Some d => name_of m d | None => None end).

Definition path (i : nat) : M string :=
  query (fun m => match m !! i with Some d => path_of m d | None => None end).

(** *** Device: child count *)

Definition removeChild (i : nat) : M unit :=
  modify i (fun d => set_kids (kids d - 1) d).

Definition addChild (i : nat) : M unit :=
  modify i (fun d => set_kids (kids d + 1) d).

Definition isleaf (d : Device) : bool := kids d =? 0.

(** *** Status *)

Fixpoint any_status (f : nat -> option bool) (l : list nat) : option bool :=
  match l with
  | [] => Some false
  | x :: l' =>
      match f x with
      | Some true => Some true
      | Some false => any_status f l'
      | None => None
      end
  end.

Fixpoint all_status (f : nat -> option bool) (l : list nat) : option bool :=
  match l with
  | [] => Some true
  | x :: l' =>
      match f x with
      | Some false => Some false
      | Some true => all_status f l'
      | None => None
      end
  end.

(** [LVMVolumeGroupDevice.complete] *)
Definition complete (d : Device) : bool :=
  if hasDuplicate d then false
  else Py.eq (PInt (Z.of_nat (length (parents d)))) (pvCount d) || negb (py_true (exists_ d)).

(** The [status] property, by class: [StorageDevice.status],
    [DMDevice.status] for logical volumes, [LVMVolumeGroupDevice.status]. *)
Fixpoint status_of (fuel : nat) (m : gmap nat Device) (i : nat) : option bool :=
  match fuel with
  | O => None
  | S fuel' =>
      match m !! i with
      | None => None
      | Some d =>
          match cls d with
          | StorageDevice | PartitionDevice =>
              if negb (py_true (exists_ d)) then Some false
              else Some (node_active d)
          | LVMVolumeGroupDevice =>
              if negb (py_true (exists_ d)) then Some false
              else
                match any_status (status_of fuel' m) (_lvs d) with
                | None => None
                | Some true => Some true
                | Some false =>
                    match all_status (status_of fuel' m) (parents d) with
                    | None => None
                    | Some false => Some false
                    | Some true => Some (complete d)
                    end
                end
          | _ => Some (node_active d)
          end
      end
  end.

Definition status (fuel : nat) (i : nat) : M bool :=
  query (fun m => status_of fuel m i).

(** *** Sizes *)

Definition is_some {A} (o : option A) : bool :=
  match o with
  | Some _ => true
  | None => false
  end.

(** The [partedDevice] property: the first read on an existing, active
    device opens [parted.Device(path)] and keeps it when that succeeds. *)
Definition partedDevice (fuel : nat) (i : nat) : M (option num) :=
  let! d := get i in
  let! st := (if py_true (exists_ d) then status fuel i else ret false) in
  exec (if py_true (exists_ d) && st && negb (is_some (_partedDevice d)) then
          match parted_probe d with
          | Some s => modify i (set_partedDevice (Some s))
          | None => ret tt
          end
        else ret tt) in
  let! d' := get i in
  ret (_partedDevice d').

(** [StorageDevice.currentSize]; the property is read once here, its
    second read in the source returns the object just cached. *)
Definition currentSize (fuel : nat) (i : nat) : M num :=
  let! d := get i in
  if py_true (exists_ d) then
    let! pd := partedDevice fuel i in
    match pd with
    | Some s => ret s
    | None => let! d' := get i in ret (_size d')
    end
  else ret (PInt 0).

Definition _resizable (c : DevClass) : bool :=
  match c with
  | PartitionDevice | LVMLogicalVolumeDevice | LVMThinLogicalVolumeDevice => true
  | _ => false
  end.

(** [StorageDevice.resizable] *)
Definition resizable (d : Device) : bool :=
  _resizable (cls d) && py_true (exists_ d) &&
  match _format d with
  | Some f => fmt_resizable f
  | None => true
  end.

(** [Device.mediaPresent]; no class of the model overrides it. *)
Definition mediaPresent (d : Device) : bool := true.

(** [StorageDevice._getSize] *)
Definition StorageDevice_getSize (fuel : nat) (i : nat) : M num :=
  let! d := get i in
  if py_true (exists_ d) && negb (mediaPresent d) then ret (PInt 0)
  else
    let! pd := (if py_true (exists_ d) then partedDevice fuel i else ret None) in
    exec (if py_true (exists_ d) && is_some pd then
            let! cs := currentSize fuel i in modify i (set_size cs)
          else ret tt) in
    let! d' := get i in
    let size := _size d' in
    if py_true (exists_ d') && resizable d' && Py.ne (_targetSize d') size
    then ret (_targetSize d')
    else ret size.

(** [parted.Partition.getSize()], in MB: sectors times sector size over
    [1024.0 ** 2]. *)
Definition pp_getSize (pp : PartedPartition) : res num :=
  Py.div (PInt (pp_length pp * pp_sectorSize pp)) (PFloat (float_of_Z 1048576)).

(** [PartitionDevice._getSize] *)
Definition PartitionDevice_getSize (i : nat) : M num :=
  let! d := get i in
  match partedPartition d with
  | Some pp => lift (pp_getSize pp)
  | None => ret (_size d)
  end.

(** [LVMVolumeGroupDevice.align] *)
Definition align (peSize : num) (size : option num) (roundup : bool) : res num :=
  (let size := numeric_type size in
   let round := if roundup then math_ceil else math_floor in
   do size <- Py.mul size (PFloat f1024);
   do pesize <- Py.mul peSize (PFloat f1024);
   do q <- Py.div size pesize;
   do r <- round q;
   do p <- Py.mul r pesize;
   do x <- Py.div p (PInt 1024);
   do z <- Py.long x;
   Ok (PInt z))%res.

(** [align] as the specification words it: the size in KB as a double,
    divided by the extent size in KB, rounded to a whole number of
    extents, multiplied back, and brought back to MB as a truncated
    integer. *)
Definition align_in_words (peSize size : num) (roundup : bool) : res num :=
  (do mb <- to_float size;
   do pe <- to_float peSize;
   let kb := fmul mb f1024 in
   let pe_kb := fmul pe f1024 in
   if is_zero pe_kb then Raise (ZeroDivisionError "float division by zero")
   else
     let extents := (if roundup then float_ceil else float_floor) (fdiv kb pe_kb) in
     let back := fdiv (fmul extents pe_kb) f1024 in
     do mb' <- long (PFloat back);
     Ok (PInt mb'))%res.

(** The least number of extents of [m] KB that hold [x] MB, in exact
    arithmetic: the ceiling of [1024 * x / m], a finite double
    being worth [M * 2 ** E]. *)
Definition extents_above (m : Z) (x : num) : Z :=
  match x with
  | PInt n => ceil_div (1024 * n) m
  | PFloat (S754_finite false M E) =>
      if E + 10 <=? 0 then ceil_div (Zpos M) (m * 2 ^ (- (E + 10)))
      else ceil_div (Zpos M * 2 ^ (E + 10)) m
  | PFloat _ => 0
  end.

(** Sizes [x], in MB, that with an extent of [m] KB stay within the
    integers a double holds exactly, [1024 * x + m <= 2 ** 53]: positive
    integers, and positive normal doubles [M * 2 ** E] of at least
    [2 ** -948]. *)
Definition fits (m : Z) (x : num) : Prop :=
  match x with
  | PInt n => 0 < n /\ 1024 * n + m <= 2 ^ 53
  | PFloat (S754_finite false M E) =>
      digits2_pos M = 53%positive /\ -1000 <= E <= -10 /\
      Zpos M + m * 2 ^ (- (E + 10)) <= 2 ^ (53 - (E + 10))
  | PFloat _ => False
  end.

(** The extent size of [m] KB, in MB. *)
Definition kib (m : Z) : num := PFloat (fdiv (float_of_Z m) f1024).

(** The double 0.19999999999999998, the predecessor of 0.2. *)
Definition odd_extent : num := PFloat (S754_finite false 7205759403792793 (-55)).

(** [max(0, x)] *)
Definition max0 (x : num) : num :=
  if Py.gt x (PInt 0) then x else PInt 0.

Definition pv_format (d : Device) : M DeviceFormat :=
  match _format d with
  | Some f => ret f
  | None => stop
  end.

(** The loop of [LVMVolumeGroupDevice.size] over the physical volumes. *)
Fixpoint vg_size_loop (size_of : nat -> M num) (pe : num) (pvs : list nat) (size : num) : M num :=
  match pvs with
  | [] => ret size
  | pv :: rest =>
      let! s := size_of pv in
      let! pvd := get pv in
      let! fmt := pv_format pvd in
      let! usable := lift (Py.sub s (fmt_peStart fmt)) in
      let! a := lift (align pe (Some usable) false) in
      let! size' := lift (Py.add size (max0 a)) in
      vg_size_loop size_of pe rest size'
  end.

Definition LVMVolumeGroupDevice_size (size_of : nat -> M num) (i : nat) : M num :=
  let! d := get i in
  vg_size_loop size_of (peSize d) (parents d) (PInt 0).

(** The [size] property, by class. *)
Fixpoint size_of (fuel : nat) (i : nat) : M num :=
  match fuel with
  | O => stop
  | S fuel' =>
      let! d := get i in
      match cls d with
      | PartitionDevice => PartitionDevice_getSize i
      | LVMVolumeGroupDevice => LVMVolumeGroupDevice_size (size_of fuel') i
      | _ => StorageDevice_getSize fuel' i
      end
  end.

Definition the_vg (i : nat) : M nat :=
  query (fun m => match m !! i with Some d => vg_of m d | None => None end).

Definition the_vg_dev (i : nat) : M Device :=
  query (fun m => match m !! i with Some d => vg_dev m d | None => None end).

Section SpaceAccounting.

(** [lvm.get_pool_padding(space, pesize)] of [devicelibs.lvm]. *)
Variable get_pool_padding : num -> num -> res num.

(** [LVMLogicalVolumeDevice.vgSpaceUsed] *)
Definition LVMLogicalVolumeDevice_vgSpaceUsed (fuel : nat) (i : nat) : M num :=
  let! vgd := the_vg_dev i in
  let! sz := size_of fuel i in
  let! a := lift (align (peSize vgd) (Some sz) true) in
  let! d := get i in
  let! x := lift (Py.mul a (copies d)) in
  let! y := lift (Py.add x (logSize d)) in
  lift (Py.add y (metaDataSize d)).

(** The [vgSpaceUsed] property, by class. *)
Definition vgSpaceUsed (fuel : nat) (i : nat) : M num :=
  let! d := get i in
  match cls d with
  | LVMLogicalVolumeDevice => LVMLogicalVolumeDevice_vgSpaceUsed fuel i
  | LVMThinPoolDevice =>
      let! space := LVMLogicalVolumeDevice_vgSpaceUsed fuel i in
      let! vgd := the_vg_dev i in
      let! pad := lift (get_pool_padding space (peSize vgd)) in
      lift (Py.add space pad)
  | LVMThinLogicalVolumeDevice => ret (PInt 0)
  | _ => stop
  end.

Fixpoint sum_vgSpaceUsed (fuel : nat) (lvs : list nat) (acc : num) : M num :=
  match lvs with
  | [] => ret acc
  | lv :: rest =>
      let! u := vgSpaceUsed fuel lv in
      let! acc' := lift (Py.add acc u) in
      sum_vgSpaceUsed fuel rest acc'
  end.

Fixpoint snapshot_loop (pe : num) (lvs : list nat) (used : num) : M num :=
  match lvs with
  | [] => ret used
  | lv :: rest =>
      let! d := get lv in
      let! a := lift (align pe (Some (snapshotSpace d)) true) in
      let! used' := lift (Py.add used a) in
      snapshot_loop pe rest used'
  end.

Fixpoint vorigin_loop (pe : num) (vs : list (string * num)) (used : num) : res num :=
  match vs with
  | [] => Ok used
  | (_, vsize) :: rest =>
      (do a <- align pe (Some vsize) true;
       do used' <- Py.add used a;
       vorigin_loop pe rest used')%res
  end.

(** [LVMVolumeGroupDevice.snapshotSpace] *)
Definition LVMVolumeGroupDevice_snapshotSpace (i : nat) : M num :=
  let! d := get i in
  let! used := snapshot_loop (peSize d) (_lvs d) (PInt 0) in
  lift (vorigin_loop (peSize d) (voriginSnapshots d) used).

(** The literal [0.01]. *)
Definition f0_01 : spec_float := fdiv (float_of_Z 1) (float_of_Z 100).

(** [LVMVolumeGroupDevice.reservedSpace] *)
Definition reservedSpace (fuel : nat) (i : nat) : M num :=
  let! d := get i in
  let! reserved :=
    (if Py.gt (reserved_percent d) (PInt 0) then
       let! p := lift (Py.mul (reserved_percent d) (PFloat f0_01)) in
       let! sz := size_of fuel i in
       lift (Py.mul p sz)
     else if Py.gt (reserved_space d) (PInt 0) then ret (reserved_space d)
     else ret (PInt 0)) in
  lift (align (peSize d) (Some reserved) true).

(** [LVMVolumeGroupDevice.freeSpace] *)
Definition freeSpace (fuel : nat) (i : nat) : M num :=
  let! d := get i in
  let! lvsum := sum_vgSpaceUsed fuel (_lvs d) (PInt 0) in
  let! snap := LVMVolumeGroupDevice_snapshotSpace i in
  let! used := lift (Py.add lvsum snap) in
  let! reserved := reservedSpace fuel i in
  let! used' := lift (Py.add used reserved) in
  let! sz := size_of fuel i in
  lift (Py.sub sz used').

(** [StorageDevice._setTargetSize] *)
Definition setTargetSize (i : nat) (newsize : num) : M unit :=
  modify i (set_targetSize newsize).

(** [LVMLogicalVolumeDevice._setSize] *)
Definition LVMLogicalVolumeDevice_setSize (fuel : nat) (i : nat) (size : option num) : M unit :=
  let! vg := the_vg i in
  let! vgd := the_vg_dev i in
  let! size := lift (align (peSize vgd) (Some (numeric_type size)) false) in
  let! free := freeSpace fuel vg in
  let! d := get i in
  let! bound := lift (Py.add free (_size d)) in
  if Py.le size bound then
    exec modify i (set_size size) in
    setTargetSize i size
  else
    raise (ValueError "not enough free space in volume group").

(** [LVMThinLogicalVolumeDevice._setSize] *)
Definition LVMThinLogicalVolumeDevice_setSize (i : nat) (size : option num) : M unit :=
  let! vgd := the_vg_dev i in
  let! size := lift (align (peSize vgd) size false) in
  let! size := lift (align (peSize vgd) (Some (numeric_type (Some size))) false) in
  exec modify i (set_size size) in
  setTargetSize i size.

(** Assignment to the [size] property of a logical volume, by class. *)
Definition lv_set_size (fuel : nat) (i : nat) (size : option num) : M unit :=
  let! d := get i in
  match cls d with
  | LVMLogicalVolumeDevice | LVMThinPoolDevice => LVMLogicalVolumeDevice_setSize fuel i size
  | LVMThinLogicalVolumeDevice => LVMThinLogicalVolumeDevice_setSize i size
  | _ => stop
  end.

End SpaceAccounting.

(** *** Formats *)

(** [getFormat(None, device=..., exists=...)]: a plain [DeviceFormat],
    never active and not resizable. *)
Definition getFormat_None (device : string) (exists_ : option bool) : DeviceFormat :=
  {| fmt_type := None; fmt_device := device; fmt_exists := exists_;
     fmt_status := false; fmt_resizable := false; fmt_peStart := PInt 0 |}.

Definition with_device (device : string) (f : DeviceFormat) : DeviceFormat :=
  {| fmt_type := fmt_type f; fmt_device := device; fmt_exists := fmt_exists f;
     fmt_status := fmt_status f; fmt_resizable := fmt_resizable f;
     fmt_peStart := fmt_peStart f |}.

Definition format_active (f : option DeviceFormat) : bool :=
  match f with
  | Some fmt => fmt_status fmt
  | None => false
  end.

(** [StorageDevice._setFormat] *)
Definition _setFormat (i : nat) (format : option DeviceFormat) : M unit :=
  let! d := get i in
  let! format :=
    (match format with
     | Some f => ret f
     | None => let! p := path i in ret (getFormat_None p (exists_ d))
     end) in
  if format_active (_format d) then
    let! n := name i in
    raise (DeviceError "cannot replace active format" n)
  else
    exec modify i (set_format (Some format)) in
    let! p := path i in
    modify i (fun d => set_format (option_map (with_device p) (_format d)) d).

(** *** Lifecycle *)

(** [Device.setupParents], given the [setup] the parents dispatch to. *)
Definition setupParents (setup : nat -> bool -> M unit) (i : nat) (orig : bool) : M unit :=
  let! d := get i in
  for_each (fun p => setup p orig) (parents d).

(** [StorageDevice.setup] *)
Definition StorageDevice_setup (setup : nat -> bool -> M unit) (i : nat) (orig : bool) : M unit :=
  let! d := get i in
  if negb (py_true (exists_ d)) then
    let! n := name i in
    raise (DeviceError "device has not been created" n)
  else
    exec setupParents setup i orig in
    for_each (fun p => emit (FormatSetup p orig)) (parents d).

(** [LVMVolumeGroupDevice.setup] *)
Definition LVMVolumeGroupDevice_setup (fuel : nat) (setup : nat -> bool -> M unit)
    (i : nat) (orig : bool) : M unit :=
  let! d := get i in
  if negb (py_true (exists_ d)) then
    let! n := name i in
    raise (DeviceError "device has not been created" n)
  else
    let! st := status fuel i in
    if st then ret tt
    else if negb (complete d) then
      let! n := name i in
      raise (DeviceError "cannot activate VG with missing PV(s)" n)
    else setupParents setup i orig.

(** [lvm.lvactivate] and [lvm.lvdeactivate] change the device-mapper
    table the status of the volume is read from. *)
Definition lvactivate (i : nat) (vgname lvname : string) : M unit :=
  exec emit (LvActivate vgname lvname) in
  modify i (set_node_active true).

Definition lvdeactivate (i : nat) (vgname lvname : string) : M unit :=
  exec emit (LvDeactivate vgname lvname) in
  modify i (set_node_active false).

Definition lvremove (i : nat) (vgname lvname : string) : M unit :=
  exec emit (LvRemove vgname lvname) in
  modify i (set_node_active false).

(** [LVMLogicalVolumeDevice.setup] *)
Definition LVMLogicalVolumeDevice_setup (fuel : nat) (setup : nat -> bool -> M unit)
    (i : nat) (orig : bool) : M unit :=
  let! d := get i in
  if negb (py_true (exists_ d)) then
    let! n := name i in
    raise (DeviceError "device has not been created" n)
  else
    let! st := status fuel i in
    if st then ret tt
    else
      let! vg := the_vg i in
      let! vgd := the_vg_dev i in
      exec setup vg orig in
      exec lvactivate i (_name vgd) (_name d) in
      let! cs := currentSize fuel i in
      modify i (set_size cs).

(** The [setup] method, by class. *)
Fixpoint setup (fuel : nat) (i : nat) (orig : bool) : M unit :=
  match fuel with
  | O => stop
  | S fuel' =>
      let! d := get i in
      match cls d with
      | StorageDevice | PartitionDevice => StorageDevice_setup (setup fuel') i orig
      | LVMVolumeGroupDevice => LVMVolumeGroupDevice_setup fuel' (setup fuel') i orig
      | _ => LVMLogicalVolumeDevice_setup fuel' (setup fuel') i orig
      end
  end.

Definition format_exists (f : option DeviceFormat) : bool :=
  match f with
  | Some fmt => py_true (fmt_exists fmt)
  | None => false
  end.

(** [LVMLogicalVolumeDevice.teardown]; [teardown] is the method the
    volume group answers with when the call is recursive. *)
Definition LVMLogicalVolumeDevice_teardown (fuel : nat) (teardown : nat -> bool -> M unit)
    (i : nat) (recursive : bool) : M unit :=
  let! d := get i in
  if negb (py_true (exists_ d)) && negb recursive then
    let! n := name i in
    raise (DeviceError "device has not been created" n)
  else
    let! st := status fuel i in
    exec (if st then
            exec (if format_exists (originalFormat d) then emit (FormatTeardown i true) else ret tt) in
            exec (if format_exists (_format d) then emit (FormatTeardown i false) else ret tt) in
            emit UdevSettle
          else ret tt) in
    let! st' := status fuel i in
    let! vg := the_vg i in
    let! vgd := the_vg_dev i in
    exec (if st' then lvdeactivate i (_name vgd) (_name d) else ret tt) in
    if recursive then
      (fun w =>
         match teardown vg recursive w with
         | Return _ w' => Return tt w'
         | Throw _ w' => Return tt w'
         | Abort => Abort
         end)
    else ret tt.

(** [Device.createParents]: nothing is created. *)
Definition createParents (i : nat) : M unit :=
  let! d := get i in
  for_each (fun p =>
              let! pd := get p in
              if negb (py_true (exists_ pd)) then
                let! n := name i in
                raise (DeviceError "parent device does not exist" n)
              else ret tt)
           (parents d).


(** [StorageDevice.destroy] *)
Definition StorageDevice_destroy (i : nat) : M unit :=
  let! d := get i in
  if negb (py_true (exists_ d)) then
    let! n := name i in
    raise (DeviceError "device has not been created" n)
  else if negb (isleaf d) then
    let! n := name i in
    raise (DeviceError "Cannot destroy non-leaf device" n)
  else modify i (set_exists (Some false)).

(** [NoDevice.create]: the parents are set up, and that is all. *)
Definition NoDevice_create (fuel : nat) (i : nat) : M unit :=
  setupParents (setup fuel) i false.

(** [NFSDevice.create]: the parents are checked and set up, and that is
    all. *)
Definition NFSDevice_create (fuel : nat) (i : nat) : M unit :=
  exec createParents i in
  setupParents (setup fuel) i false.

(** [NoDevice.destroy] and [NFSDevice.destroy] *)
Definition NoDevice_destroy (i : nat) : M unit := ret tt.
Definition NFSDevice_destroy (i : nat) : M unit := ret tt.

(** [self.disk]: the first parent, if any. *)
Definition disk_of (d : Device) : option nat := head (parents d).

Definition the_disk (d : Device) : M nat :=
  match disk_of d with
  | Some k => ret k
  | None => raise (AttributeError "'NoneType' object has no attribute 'originalFormat'")
  end.

(** [disklabel.commit()] on the original format of a disk. *)
Definition commit (disk : nat) : M unit :=
  exec emit (LabelCommit disk) in
  fun w =>
    if commit_ok w then Return tt w
    else Throw (DiskLabelCommitError "commit failed") w.

(** [s[n:]] *)
Fixpoint drop_chars (n : nat) (s : string) : string :=
  match n, s with
  | O, _ => s
  | S n', String _ s' => drop_chars n' s'
  | S _, EmptyString => EmptyString
  end.

(** [s.startswith(p)] *)
Fixpoint startswith (s p : string) {struct p} : bool :=
  match p with
  | EmptyString => true
  | String a p' =>
      match s with
      | EmptyString => false
      | String b s' => Ascii.eqb a b && startswith s' p'
      end
  end.

(** [devicePathToName] *)
Definition devicePathToName (devicePath : string) : string :=
  let name :=
    if startswith devicePath "/dev/" then drop_chars 5 devicePath else devicePath in
  if startswith name "mapper/" then drop_chars 7 name else name.

(** [PartitionDevice.updateName]: without a parted partition the name is
    the requested one, an attribute that only the constructor of a
    partition that does not exist sets. *)
Definition updateName (i : nat) : M unit :=
  let! d := get i in
  match partedPartition d with
  | None =>
      match req_name d with
      | Some n => modify i (set_name n)
      | None =>
          raise (AttributeError "'PartitionDevice' object has no attribute 'req_name'")
      end
  | Some pp => modify i (set_name (devicePathToName (pp_nodeName pp)))
  end.

(** [PartitionDevice._setPartedPartition], for [None] or a
    [parted.Partition]. *)
Definition _setPartedPartition (i : nat) (partition : option PartedPartition) : M unit :=
  exec modify i (set_partedPartition partition) in
  updateName i.

(** [self.disk.originalFormat.partedDisk.getPartitionByPath(path)] *)
Definition getPartitionByPath (disk : nat) (p : string) : M (option PartedPartition) :=
  fun w => Return (partition_by_path w disk p) w.

(** [PartitionDevice.destroy]; after a failed commit the partition is
    added back, the device takes the partition the label has at its
    path, and the exception is raised again. *)
Definition PartitionDevice_destroy (fuel : nat) (i : nat) : M unit :=
  let! d := get i in
  if negb (py_true (exists_ d)) then
    let! n := name i in
    raise (DeviceError "device has not been created" n)
  else if String.eqb (sysfsPath d) "" then ret tt
  else if negb (isleaf d) then
    let! n := name i in
    raise (DeviceError "Cannot destroy non-leaf device" n)
  else
    exec setupParents (setup fuel) i true in
    let! disk := the_disk d in
    exec emit (LabelRemovePartition disk (partedPartition d)) in
    exec (fun w =>
            match commit disk w with
            | Throw (DiskLabelCommitError msg) w' =>
                (exec emit (LabelAddPartition disk (partedPartition d)) in
                 let! p := path i in
                 let! found := getPartitionByPath disk p in
                 exec _setPartedPartition i found in
                 raise (DiskLabelCommitError msg)) w'
            | o => o
            end) in
    modify i (set_exists (Some false)).

(** [LVMLogicalVolumeDevice.destroy] *)
Definition LVMLogicalVolumeDevice_destroy (fuel : nat) (i : nat) : M unit :=
  let! d := get i in
  if negb (py_true (exists_ d)) then
    let! n := name i in
    raise (DeviceError "device has not been created" n)
  else
    let! vg := the_vg i in
    let! vgd := the_vg_dev i in
    exec for_each (fun snap => emit (LvRemove (_name vgd) snap)) (snapshots d) in
    exec LVMLogicalVolumeDevice_teardown fuel (fun _ _ => stop) i false in
    exec setupParents (setup fuel) vg true in
    exec lvremove i (_name vgd) (_name d) in
    modify i (set_exists (Some false)).

(** A call of [addChild] or [removeChild], and the net change of the
    child count over a sequence of calls. *)
Inductive child_op : Type :=
| AddChild
| RemoveChild.

Definition run_op (i : nat) (o : child_op) : M unit :=
  match o with
  | AddChild => addChild i
  | RemoveChild => removeChild i
  end.

Definition net (ops : list child_op) : Z :=
  fold_right (fun o n => match o with AddChild => n + 1 | RemoveChild => n - 1 end) 0 ops.

(** *** Relations between states *)

(** A relation between the state before and after is kept by a
    computation when every run that ends, normally or by an exception,
    ends in a related state. *)
Definition preserves {A} (R : World -> World -> Prop) (m : M A) : Prop :=
  forall w,
    match m w with
    | Return _ w' => R w w'
    | Throw _ w' => R w w'
    | Abort => True
    end.


(** Two states hold the same objects, pointwise related by [P]. *)
Definition keeps (P : Device -> Device -> Prop) (w w' : World) : Prop :=
  forall j, option_Forall2 P (devs w !! j) (devs w' !! j).

(** What [setup] and the size properties may change of an object: its
    stored size, its cached parted device, whether its node is live. *)
Definition same_but_probe (d d' : Device) : Prop :=
  d' = set_size (_size d')
         (set_partedDevice (_partedDevice d') (set_node_active (node_active d') d)).

(** What a read of the [size] property does to an object that exists and
    has, or can open, a parted device: the device is kept and the stored
    size becomes the size it reports. *)
Definition refresh (d : Device) : Device :=
  match _partedDevice d with
  | Some s => set_size s d
  | None =>
      match parted_probe d with
      | Some s => set_size s (set_partedDevice (Some s) d)
      | None => d
      end
  end.

(** The state after reads of size properties: no call has left the
    process, and every object is as it was or refreshed. *)
Definition only_refreshed (w w' : World) : Prop :=
  trace w' = trace w /\ commit_ok w' = commit_ok w /\
  partition_by_path w' = partition_by_path w /\
  forall j, devs w' !! j = devs w !! j \/
            exists d, devs w !! j = Some d /\ py_true (exists_ d) = true /\
                      devs w' !! j = Some (refresh d).



(** *** Example objects *)

(** An object as its constructor leaves it, before any format is given. *)
Definition blank (c : DevClass) (n : string) (ps : list nat) (e : option bool) : Device :=
  {| cls := c; _name := n; parents := ps; kids := 0; exists_ := e;
     _format := Some (getFormat_None ("/dev/" ++ n) e);
     originalFormat := Some (getFormat_None ("/dev/" ++ n) e);
     sysfsPath := ""; _size := PInt 0; _targetSize := PInt 0;
     _partedDevice := None; node_active := false; parted_probe := None;
     partedPartition := None;
     req_name := match c with
                 | PartitionDevice => if py_true e then None else Some n
                 | _ => None
                 end;
     peSize := PFloat f4; _lvs := []; pvCount := PInt 0; hasDuplicate := false;
     reserved_percent := PInt 0; reserved_space := PInt 0; voriginSnapshots := [];
     copies := PInt 1; logSize := PInt 0; metaDataSize := PInt 0;
     snapshotSpace := PInt 0; snapshots := [] |}.

Definition world_of (l : list (nat * Device)) : World :=
  {| devs := list_to_map l; trace := []; commit_ok := true;
     partition_by_path := fun _ _ => None |}.

(** A requested device on a disk: [disk_exists] says whether the disk is
    there, [e] is the [exists] flag the request was built with. *)
Definition disk_and_request (disk_exists : option bool) (e : option bool) : World :=
  world_of [ (0%nat, set_kids 1 (blank StorageDevice "sda" [] disk_exists));
             (1%nat, blank StorageDevice "sda1" [0%nat] e) ].

(** A device nobody depends on. *)
Definition lone_device : World :=
  world_of [ (0%nat, blank StorageDevice "sdb" [] (Some true)) ].

(** An existing device whose format is mounted. *)
Definition mounted_format : DeviceFormat :=
  {| fmt_type := Some "ext4"; fmt_device := "/dev/sdb"; fmt_exists := Some true;
     fmt_status := true; fmt_resizable := true; fmt_peStart := PInt 0 |}.

Definition new_format : DeviceFormat :=
  {| fmt_type := Some "xfs"; fmt_device := ""; fmt_exists := Some false;
     fmt_status := false; fmt_resizable := false; fmt_peStart := PInt 0 |}.

Definition mounted_device : World :=
  world_of [ (0%nat, set_format (Some mounted_format) (blank StorageDevice "sdb" [] (Some true))) ].

(** A partition that exists, has a child, and has no sysfs path. *)
Definition partition_without_sysfs : World :=
  world_of [ (0%nat, set_kids 1 (blank StorageDevice "sda" [] (Some true)));
             (1%nat, set_kids 1 (blank PartitionDevice "sda1" [0%nat] (Some true))) ].

Definition pv_format_1MB : DeviceFormat :=
  {| fmt_type := Some "lvmpv"; fmt_device := "/dev/sda1"; fmt_exists := Some true;
     fmt_status := false; fmt_resizable := false; fmt_peStart := PInt 1 |}.

(** A volume group [vg] on one physical volume of 2001 MB, with an
    existing thin pool that has one thin volume. *)
Definition pool_with_thin_volume : World :=
  world_of
    [ (0%nat, set_size (PInt 2001) (set_kids 1 (set_format (Some pv_format_1MB)
                 (blank StorageDevice "sda1" [] (Some true)))));
      (1%nat, {| cls := LVMVolumeGroupDevice; _name := "vg"; parents := [0%nat]; kids := 1;
                 exists_ := Some true;
                 _format := Some (getFormat_None "/dev/mapper/vg" (Some true));
                 originalFormat := Some (getFormat_None "/dev/mapper/vg" (Some true));
                 sysfsPath := ""; _size := PInt 0; _targetSize := PInt 0;
                 _partedDevice := None; node_active := false; parted_probe := None;
                 partedPartition := None; req_name := None;
                 peSize := PFloat f4; _lvs := [2%nat; 3%nat]; pvCount := PInt 1;
                 hasDuplicate := false;
                 reserved_percent := PInt 0; reserved_space := PInt 0;
                 voriginSnapshots := [];
                 copies := PInt 1; logSize := PInt 0; metaDataSize := PInt 0;
                 snapshotSpace := PInt 0; snapshots := [] |});
      (2%nat, set_size (PInt 1000) (set_kids 1
                 (blank LVMThinPoolDevice "pool" [1%nat] (Some true))));
      (3%nat, set_size (PInt 500)
                 (blank LVMThinLogicalVolumeDevice "thin" [2%nat] (Some false))) ].

(** A volume group with one existing, active logical volume whose stored
    size (500) is a pending request and whose device reports 1000 MB. *)
Definition active_volume : World :=
  world_of
    [ (0%nat, set_size (PInt 2001) (set_kids 1 (set_format (Some pv_format_1MB)
                 (blank StorageDevice "sda1" [] (Some true)))));
      (1%nat, {| cls := LVMVolumeGroupDevice; _name := "vg"; parents := [0%nat]; kids := 1;
                 exists_ := Some true;
                 _format := Some (getFormat_None "/dev/mapper/vg" (Some true));
                 originalFormat := Some (getFormat_None "/dev/mapper/vg" (Some true));
                 sysfsPath := ""; _size := PInt 0; _targetSize := PInt 0;
                 _partedDevice := None; node_active := false; parted_probe := None;
                 partedPartition := None; req_name := None;
                 peSize := PFloat f4; _lvs := [2%nat]; pvCount := PInt 1;
                 hasDuplicate := false;
                 reserved_percent := PInt 0; reserved_space := PInt 0;
                 voriginSnapshots := [];
                 copies := PInt 1; logSize := PInt 0; metaDataSize := PInt 0;
                 snapshotSpace := PInt 0; snapshots := [] |});
      (2%nat, {| cls := LVMLogicalVolumeDevice; _name := "root"; parents := [1%nat]; kids := 0;
                 exists_ := Some true;
                 _format := Some (getFormat_None "/dev/mapper/vg-root" (Some true));
                 originalFormat := Some (getFormat_None "/dev/mapper/vg-root" (Some true));
                 sysfsPath := ""; _size := PInt 500; _targetSize := PInt 500;
                 _partedDevice := None; node_active := true;
                 parted_probe := Some (PInt 1000);
                 partedPartition := None; req_name := None;
                 peSize := PInt 0; _lvs := []; pvCount := PInt 0;
                 hasDuplicate := false;
                 reserved_percent := PInt 0; reserved_space := PInt 0;
                 voriginSnapshots := [];
                 copies := PInt 1; logSize := PInt 0; metaDataSize := PInt 0;
                 snapshotSpace := PInt 0; snapshots := [] |}) ].

(** No padding for pools: enough for the examples. *)
Definition no_padding (space pesize : num) : res num := Ok (PInt 0).

End Storage.

(** ** PartitionDevice: geometry of a resize *)

Module Resize.
Import Py.
Local Open Scope res_scope.

(** A [parted.Geometry]: a start sector and a number of sectors on a
    device with the given sector size; the last sector is derived. *)
Record Geometry : Type := {
  start : Z;
  length : Z;
  sectorSize : Z
}.

Definition end_ (g : Geometry) : Z := start g + length g - 1.

(** [parted.Geometry(device, start, length)]: parted refuses a geometry
    with fewer than one sector. *)
Definition new_Geometry (sectorSize start length : Z) : res Geometry :=
  if length <? 1 then Raise (PartitionException "Can't have the end before the start!")
  else Ok {| start := start; length := length; sectorSize := sectorSize |}.

(** [geometry.end = e]: the start is kept, the length follows. *)
Definition set_end (g : Geometry) (e : Z) : res Geometry :=
  new_Geometry (sectorSize g) (start g) (e - start g + 1).

(** [parted.Constraint(exactGeom=g)] *)
Inductive Constraint : Type :=
| ExactGeom (g : Geometry).

Section ComputeResize.

(** [disk.format.endAlignment.alignUp] and [alignDown]: the aligned sector
    parted chooses for a sector within a geometry, or [None] when it
    raises because there is none. *)
Variable alignUp alignDown : Geometry -> Z -> option Z.

Definition call_align (align : Geometry -> Z -> option Z) (g : Geometry) (s : Z) : res Z :=
  match align g s with
  | Some r => Ok r
  | None => Raise (ArithmeticError "Could not align to closest sector")
  end.

(** [long(self.targetSize * 1024 * 1024) / currentDev.sectorSize] *)
Definition newLen (targetSize : num) (sectorSize : Z) : res Z :=
  do a <- Py.mul targetSize (PInt 1024);
  do b <- Py.mul a (PInt 1024);
  do l <- Py.long b;
  do q <- Py.div (PInt l) (PInt sectorSize);
  Py.long q.

(** [PartitionDevice._computeResize] *)
Definition _computeResize (targetSize : num) (currentGeom : Geometry)
    : res (Constraint * Geometry) :=
  do newLen <- newLen targetSize (sectorSize currentGeom);
  do newGeometry <- new_Geometry (sectorSize currentGeom) (start currentGeom) newLen;
  let '(align, alignGeom) :=
    if length newGeometry <? length currentGeom
    then (alignUp, currentGeom)
    else (alignDown, newGeometry) in
  do e <- call_align align alignGeom (end_ newGeometry);
  do newGeometry <- set_end newGeometry e;
  Ok (ExactGeom newGeometry, newGeometry).

End ComputeResize.

(** An alignment as libparted keeps it: sectors [offset + n * grainSize]. *)
Record Alignment : Type := {
  offset : Z;
  grainSize : Z
}.

Definition round_up_to (s grain : Z) : Z := ((s + grain - 1) / grain) * grain.
Definition round_down_to (s grain : Z) : Z := (s / grain) * grain.

(** The aligned sector nearest to [s] that lies inside [g], if any. *)
Definition closest_inside (a : Alignment) (g : Geometry) (s : Z) : option Z :=
  let s1 := if s <? start g then s + round_up_to (start g - s) (grainSize a) else s in
  let s2 := if s1 >? end_ g then s1 - round_up_to (s1 - end_ g) (grainSize a) else s1 in
  if s2 <? start g then None else Some s2.

Definition grain_alignUp (a : Alignment) (g : Geometry) (s : Z) : option Z :=
  if grainSize a <=? 0 then None
  else closest_inside a g (round_up_to (s - offset a) (grainSize a) + offset a).

Definition grain_alignDown (a : Alignment) (g : Geometry) (s : Z) : option Z :=
  if grainSize a <=? 0 then None
  else closest_inside a g (round_down_to (s - offset a) (grainSize a) + offset a).

(** End sectors one below a multiple of 2048, as a disk label with 1 MiB
    alignment of 512-byte sectors asks for. *)
Definition end_2048 : Alignment := {| offset := -1; grainSize := 2048 |}.

(** A partition of 4096 sectors starting at sector 2048. *)
Definition geom_2M : Geometry := {| start := 2048; length := 4096; sectorSize := 512 |}.

(** A partition that starts at sector 63, with 8192 sectors and with
    2048 sectors. *)
Definition geom_63 : Geometry := {| start := 63; length := 8192; sectorSize := 512 |}.
Definition geom_63_1M : Geometry := {| start := 63; length := 2048; sectorSize := 512 |}.

End Resize.

(** ** Outcomes of runs *)

Module Outcomes.
Import Py Storage.

(** The state a run ends in, normally or by an exception. *)
Definition final {A} (o : outcome A) : option World :=
  match o with
  | Return _ w | Throw _ w => Some w
  | Abort => None
  end.

(** A computation that raises nothing. *)
Definition never_raises {A} (m : M A) : Prop :=
  forall w e w', m w <> Throw e w'.

(** What [lvactivate] and the reads after it may change of an object
    while it stays of its class, existing or not, and active or not. *)
Definition same_activity (d d' : Device) : Prop :=
  cls d' = cls d /\ exists_ d' = exists_ d /\ node_active d' = node_active d.

(** What [_getSize] answers from the stored fields: the target size of
    an existing, resizable device when it differs from the stored size,
    the stored size otherwise. *)
Definition reported_size (d : Device) : num :=
  if py_true (exists_ d) && resizable d && Py.ne (_targetSize d) (_size d)
  then _targetSize d else _size d.

End Outcomes.

(** ** MDRaidArrayDevice: further arrays *)

Module MDRaidExamples.
Import Py MDRaid.

(** A new RAID5 array over three members of 100 MB, built without a
    [memberDevices] argument: the count is [numeric_type(None)]. *)
Definition raid5_without_member_count : MDRaidArrayDevice :=
  {| name := "md1"; exists_ := Some false; level := Level RAID5;
     _type := "mdarray"; _size := PInt 0; _memberDevices := numeric_type None;
     metadataVersion := "1.1"; chunkSize := default_chunkSize;
     devices := [mk_member "sda1" 100; mk_member "sdb1" 100; mk_member "sdc1" 100];
     partedDevice := None |}.

(** A new RAID0 array over two members of 300 MB and 200 MB. *)
Definition raid0_example : MDRaidArrayDevice :=
  {| name := "md2"; exists_ := Some false; level := Level RAID0;
     _type := "mdarray"; _size := PInt 0; _memberDevices := PInt 2;
     metadataVersion := "1.2"; chunkSize := default_chunkSize;
     devices := [mk_member "sda1" 300; mk_member "sdb1" 200];
     partedDevice := None |}.

End MDRaidExamples.

(** ** Membership: parents, physical volumes, logical volumes *)

Module Members.
Import Py Storage.
Local Open Scope m_scope.

Definition set_parents (v : list nat) (d : Device) : Device :=
  {| cls := cls d; _name := _name d; parents := v; kids := kids d;
     exists_ := exists_ d; _format := _format d; originalFormat := originalFormat d;
     sysfsPath := sysfsPath d; _size := _size d; _targetSize := _targetSize d;
     _partedDevice := _partedDevice d; node_active := node_active d;
     parted_probe := parted_probe d; partedPartition := partedPartition d; req_name := req_name d;
     peSize := peSize d; _lvs := _lvs d; pvCount := pvCount d;
     hasDuplicate := hasDuplicate d; reserved_percent := reserved_percent d;
     reserved_space := reserved_space d; voriginSnapshots := voriginSnapshots d;
     copies := copies d; logSize := logSize d; metaDataSize := metaDataSize d;
     snapshotSpace := snapshotSpace d; snapshots := snapshots d |}.

Definition set_lvs (v : list nat) (d : Device) : Device :=
  {| cls := cls d; _name := _name d; parents := parents d; kids := kids d;
     exists_ := exists_ d; _format := _format d; originalFormat := originalFormat d;
     sysfsPath := sysfsPath d; _size := _size d; _targetSize := _targetSize d;
     _partedDevice := _partedDevice d; node_active := node_active d;
     parted_probe := parted_probe d; partedPartition := partedPartition d; req_name := req_name d;
     peSize := peSize d; _lvs := v; pvCount := pvCount d;
     hasDuplicate := hasDuplicate d; reserved_percent := reserved_percent d;
     reserved_space := reserved_space d; voriginSnapshots := voriginSnapshots d;
     copies := copies d; logSize := logSize d; metaDataSize := metaDataSize d;
     snapshotSpace := snapshotSpace d; snapshots := snapshots d |}.

Definition set_pvCount (v : num) (d : Device) : Device :=
  {| cls := cls d; _name := _name d; parents := parents d; kids := kids d;
     exists_ := exists_ d; _format := _format d; originalFormat := originalFormat d;
     sysfsPath := sysfsPath d; _size := _size d; _targetSize := _targetSize d;
     _partedDevice := _partedDevice d; node_active := node_active d;
     parted_probe := parted_probe d; partedPartition := partedPartition d; req_name := req_name d;
     peSize := peSize d; _lvs := _lvs d; pvCount := v;
     hasDuplicate := hasDuplicate d; reserved_percent := reserved_percent d;
     reserved_space := reserved_space d; voriginSnapshots := voriginSnapshots d;
     copies := copies d; logSize := logSize d; metaDataSize := metaDataSize d;
     snapshotSpace := snapshotSpace d; snapshots := snapshots d |}.

(** [x in l] on a list of objects: identity. *)
Definition mem (x : nat) (l : list nat) : bool := existsb (Nat.eqb x) l.

(** [l.remove(x)]: the first occurrence goes; [None] when there is none
    (ValueError). *)
Fixpoint remove_first (x : nat) (l : list nat) : option (list nat) :=
  match l with
  | [] => None
  | y :: l' =>
      if Nat.eqb x y then Some l'
      else option_map (cons y) (remove_first x l')
  end.

(** [len(l)] *)
Definition len (l : list nat) : num := PInt (Z.of_nat (length l)).

(** [self.parents.remove(x)] and [self._lvs.remove(x)] *)
Definition parents_remove (i x : nat) : M unit :=
  let! d := get i in
  match remove_first x (parents d) with
  | Some l => modify i (set_parents l)
  | None => raise (ValueError "list.remove(x): x not in list")
  end.

Definition lvs_remove (i x : nat) : M unit :=
  let! d := get i in
  match remove_first x (_lvs d) with
  | Some l => modify i (set_lvs l)
  | None => raise (ValueError "list.remove(x): x not in list")
  end.

(** [LVMVolumeGroupDevice._addPV] *)
Definition _addPV (vg pv : nat) : M unit :=
  let! d := get vg in
  if mem pv (parents d) then raise (ValueError "pv is already part of this vg")
  else if py_true (exists_ d) then
    let! n := name vg in
    raise (DeviceError "cannot add pv to existing vg" n)
  else
    exec modify vg (fun d => set_parents (parents d ++ [pv]) d) in
    exec addChild pv in
    modify vg (fun d => set_pvCount (len (parents d)) d).

(** [LVMVolumeGroupDevice._removePV] *)
Definition _removePV (vg pv : nat) : M unit :=
  let! d := get vg in
  if negb (mem pv (parents d)) then
    raise (ValueError "specified pv is not part of this vg")
  else if py_true (exists_ d) then
    let! n := name vg in
    raise (DeviceError "cannot remove pv from existing vg" n)
  else
    exec parents_remove vg pv in
    exec removeChild pv in
    modify vg (fun d => set_pvCount (len (parents d)) d).

(** [LVMVolumeGroupDevice._removeDevice] *)
Definition _removeDevice (vg device : nat) : M unit :=
  let! d := get vg in
  match remove_first device (parents d) with
  | None => raise (ValueError "cannot remove non-member PV device from VG")
  | Some l =>
      exec modify vg (set_parents l) in
      removeChild device
  end.

(** [PartitionDevice._setDisk]; a device object is always true. *)
Definition _setDisk (i : nat) (disk : option nat) : M unit :=
  let! d := get i in
  exec (match disk_of d with
        | Some old => removeChild old
        | None => ret tt
        end) in
  match disk with
  | Some new =>
      exec modify i (set_parents [new]) in
      addChild new
  | None => modify i (set_parents [])
  end.

(** [Device.__init__] from the assignment of [parents] on: the object
    [i] has just been given its parents and no child. *)
Definition register_with_parents (i : nat) : M unit :=
  let! d := get i in
  for_each addChild (parents d).

(** The number of times [p] is listed as a parent in the graph. *)
Definition times_parent (p : nat) (d : Device) : Z :=
  Z.of_nat (count_occ Nat.eq_dec (parents d) p).

Definition child_count (m : gmap nat Device) (p : nat) : Z :=
  map_fold (fun _ d acc => acc + times_parent p d) 0 m.

(** The child counters agree with the parent lists. *)
Definition counted (m : gmap nat Device) : Prop :=
  forall p d, m !! p = Some d -> kids d = child_count m p.

(** By how much the counter of [q] exceeds the number of its children. *)
Definition imbalance (m : gmap nat Device) (q : nat) : option Z :=
  match m !! q with
  | Some d => Some (kids d - child_count m q)
  | None => None
  end.

Section LogVols.

(** [lvm.get_pool_padding], and the truth value of
    [getattr(obj, "req_grow", False)] for the object with a given key. *)
Variable get_pool_padding : num -> num -> res num.
Variable req_grow : nat -> bool.

(** [StorageDevice.growable], as a truth value. *)
Fixpoint growable (fuel : nat) (m : gmap nat Device) (i : nat) : option bool :=
  match fuel with
  | O => None
  | S fuel' =>
      match m !! i with
      | None => None
      | Some d =>
          if req_grow i then Some true
          else any_status (growable fuel' m) (parents d)
      end
  end.

Definition is_thin (c : DevClass) : bool :=
  match c with
  | LVMThinLogicalVolumeDevice => true
  | _ => false
  end.

(** [LVMVolumeGroupDevice._addLogVol].  The log line before the list is
    extended reads [lv.size] once more; that read is kept here, and in
    the method of the pool below, because a read of the size can refresh
    what the object stores. *)
Definition LVMVolumeGroupDevice_addLogVol (fuel : nat) (vg lv : nat) : M unit :=
  let! d := get vg in
  if mem lv (_lvs d) then raise (ValueError "lv is already part of this vg")
  else
    let! l := get lv in
    let! too_large :=
      (if negb (py_true (exists_ l)) then
         let! g := query (fun m => growable fuel m vg) in
         if negb g && negb (is_thin (cls l)) then
           let! s := size_of fuel lv in
           let! f := freeSpace get_pool_padding fuel vg in
           ret (Py.gt s f)
         else ret false
       else ret false) in
    if too_large then
      let! n := name vg in
      raise (DeviceError "new lv is too large to fit in free space" n)
    else
      exec size_of fuel lv in
      modify vg (fun d => set_lvs (_lvs d ++ [lv]) d).

(** [LVMVolumeGroupDevice._removeLogVol] *)
Definition LVMVolumeGroupDevice_removeLogVol (vg lv : nat) : M unit :=
  let! d := get vg in
  if negb (mem lv (_lvs d)) then
    raise (ValueError "specified lv is not part of this vg")
  else lvs_remove vg lv.

(** [LVMThinPoolDevice._addLogVol] *)
Definition LVMThinPoolDevice_addLogVol (fuel : nat) (pool lv : nat) : M unit :=
  let! d := get pool in
  if mem lv (_lvs d) then raise (ValueError "lv is already part of this vg")
  else
    let! vg := the_vg pool in
    exec LVMVolumeGroupDevice_addLogVol fuel vg lv in
    exec size_of fuel lv in
    modify pool (fun d => set_lvs (_lvs d ++ [lv]) d).

(** [LVMThinPoolDevice._removeLogVol] *)
Definition LVMThinPoolDevice_removeLogVol (pool lv : nat) : M unit :=
  let! d := get pool in
  if negb (mem lv (_lvs d)) then
    raise (ValueError "specified lv is not part of this vg")
  else
    exec lvs_remove pool lv in
    let! vg := the_vg pool in
    LVMVolumeGroupDevice_removeLogVol vg lv.

End LogVols.

Section Depends.

(** [isExtended] and [isLogical] of a partition, which read the type
    parted gives it. *)
Variable isExtended isLogical : nat -> bool.

Definition is_partition (c : DevClass) : bool :=
  match c with
  | PartitionDevice => true
  | _ => false
  end.

(** The test [PartitionDevice.dependsOn] makes before it defers to
    [Device.dependsOn]. *)
Definition logical_on_extended (m : gmap nat Device) (d : Device) (i dep : nat) : option bool :=
  match m !! dep with
  | None => None
  | Some dd =>
      Some (is_partition (cls dd) && isExtended dep && isLogical i &&
            bool_decide (disk_of d = disk_of dd))
  end.

(** [dependsOn], by class. *)
Fixpoint dependsOn (fuel : nat) (m : gmap nat Device) (i dep : nat) : option bool :=
  match fuel with
  | O => None
  | S fuel' =>
      match m !! i with
      | None => None
      | Some d =>
          match (if is_partition (cls d) then logical_on_extended m d i dep
                 else Some false) with
          | None => None
          | Some true => Some true
          | Some false =>
              if mem dep (parents d) then Some true
              else any_status (fun p => dependsOn fuel' m p dep) (parents d)
          end
      end
  end.

(** What [dependsOn] decides: [dep] is reached along parents, or some
    device reached (the device itself included) is a logical partition
    on the disk of the extended partition [dep]. *)
Inductive depends (m : gmap nat Device) (dep : nat) : nat -> Prop :=
| depends_direct i d :
    m !! i = Some d -> In dep (parents d) -> depends m dep i
| depends_logical i d :
    m !! i = Some d -> is_partition (cls d) = true ->
    logical_on_extended m d i dep = Some true -> depends m dep i
| depends_parent i d p :
    m !! i = Some d -> In p (parents d) -> depends m dep p -> depends m dep i.

End Depends.

(** *** Example objects *)

(** A requested volume group over [sda1], and a free partition [sdb1]. *)
Definition new_vg : World :=
  world_of
    [ (0%nat, set_kids 1 (blank PartitionDevice "sda1" [] (Some true)));
      (1%nat, set_pvCount (PInt 1) (blank LVMVolumeGroupDevice "vg" [0%nat] (Some false)));
      (2%nat, blank PartitionDevice "sdb1" [] (Some true)) ].

(** The disks [sda] and [sdb], and the partition [sda1] on the first. *)
Definition two_disks : World :=
  world_of
    [ (0%nat, set_kids 1 (blank StorageDevice "sda" [] (Some true)));
      (1%nat, blank PartitionDevice "sda1" [0%nat] (Some true));
      (2%nat, blank StorageDevice "sdb" [] (Some true)) ].

(** Two partitions and a device over both that has just been given its
    parents: no parent has counted it yet. *)
Definition unregistered_device : World :=
  world_of
    [ (0%nat, blank PartitionDevice "sda1" [] (Some true));
      (1%nat, blank PartitionDevice "sdb1" [] (Some true));
      (2%nat, blank StorageDevice "md0" [0%nat; 1%nat] (Some false)) ].

(** A state with the list of logical volumes of one object replaced. *)
Definition with_lvs (i : nat) (l : list nat) (w : World) : World :=
  with_devs (alter (set_lvs l) i (devs w)) w.

(** The volume group lists its pool only: the thin volume has not been
    added yet.  And the same with the pool listing the thin volume while
    the volume group does not. *)
Definition thin_volume_request : World := with_lvs 1 [2%nat] pool_with_thin_volume.

Definition pool_lists_alone : World := with_lvs 2 [3%nat] thin_volume_request.

(** An existing partition [sda1] with a sysfs path on the disk [sda],
    in a state where the next commit of the disk label fails. *)
Definition partition_on_disk : World :=
  {| devs := list_to_map
       [ (0%nat, set_kids 1 (blank StorageDevice "sda" [] (Some true)));
         (1%nat, {| cls := PartitionDevice; _name := "sda1"; parents := [0%nat]; kids := 0;
                    exists_ := Some true;
                    _format := Some (getFormat_None "/dev/sda1" (Some true));
                    originalFormat := Some (getFormat_None "/dev/sda1" (Some true));
                    sysfsPath := "/devices/pci0000:00/block/sda/sda1";
                    _size := PInt 500; _targetSize := PInt 500;
                    _partedDevice := None; node_active := true; parted_probe := None;
                    req_name := None;
                    partedPartition := Some {| pp_path := "/dev/sda1"; pp_start := 2048;
                                               pp_length := 1024000; pp_sectorSize := 512;
                                               pp_nodeName := "sda1" |};
                    peSize := PInt 0; _lvs := []; pvCount := PInt 0; hasDuplicate := false;
                    reserved_percent := PInt 0; reserved_space := PInt 0;
                    voriginSnapshots := [];
                    copies := PInt 1; logSize := PInt 0; metaDataSize := PInt 0;
                    snapshotSpace := PInt 0; snapshots := [] |}) ];
     trace := []; commit_ok := false;
     partition_by_path := fun _ _ => None |}.

(** The partition the label of [sda] has at [/dev/sda1]. *)
Definition sda1_partition : PartedPartition :=
  {| pp_path := "/dev/sda1"; pp_start := 2048; pp_length := 1024000;
     pp_sectorSize := 512; pp_nodeName := "sda1" |}.

(** A state with other answers of [getPartitionByPath]. *)
Definition with_lookup (f : nat -> string -> option PartedPartition) (w : World) : World :=
  {| devs := devs w; trace := trace w; commit_ok := commit_ok w; partition_by_path := f |}.

(** The same state as [partition_on_disk], where the label still has
    the partition at its path. *)
Definition partition_found : World :=
  with_lookup (fun _ p => if String.eqb p "/dev/sda1" then Some sda1_partition else None)
              partition_on_disk.

(** No object asks to grow. *)
Definition no_grow (i : nat) : bool := false.

End Members.

(** ** Names of device nodes *)

Module Names.
Import Py Storage.

(** The directory of the node of a device: [_devDir] of its class, or of
    the class of its first parent for a partition, when it has one. *)
Definition node_dir (m : gmap nat Device) (d : Device) : option string :=
  match cls d with
  | PartitionDevice =>
      match parents d with
      | [] => Some "/dev"
      | p :: _ =>
          match m !! p with
          | Some pd => Some (_devDir (cls pd))
          | None => None
          end
      end
  | c => Some (_devDir c)
  end.

(** The last component of the path: the map name for device-mapper
    classes, the name otherwise. *)
Definition node_name (m : gmap nat Device) (d : Device) : option string :=
  match cls d with
  | StorageDevice | PartitionDevice => Some (_name d)
  | _ => mapName m d
  end.

End Names.

(** ** Required packages *)

Module Packages.
Import Storage.

(** The lists [_packages] that are attributes of classes: the one of
    [Device], which [StorageDevice] and [PartitionDevice] inherit, the one
    of [LVMVolumeGroupDevice], and the one of [LVMLogicalVolumeDevice],
    which the thin pool and the thin volume inherit.  No instance has a
    list of its own. *)
Inductive PackageList : Type :=
| Device_packages
| LVMVolumeGroupDevice_packages
| LVMLogicalVolumeDevice_packages.

#[global] Instance PackageList_eq_dec : EqDecision PackageList.
Proof. solve_decision. Defined.

(** [self._packages]: the list the attribute lookup finds. *)
Definition _packages (c : DevClass) : PackageList :=
  match c with
  | StorageDevice | PartitionDevice => Device_packages
  | LVMVolumeGroupDevice => LVMVolumeGroupDevice_packages
  | _ => LVMLogicalVolumeDevice_packages
  end.

(** The contents of the three lists. *)
Record ClassLists : Type := {
  of_Device : list string;
  of_LVMVolumeGroupDevice : list string;
  of_LVMLogicalVolumeDevice : list string
}.

Definition contents (k : PackageList) (s : ClassLists) : list string :=
  match k with
  | Device_packages => of_Device s
  | LVMVolumeGroupDevice_packages => of_LVMVolumeGroupDevice s
  | LVMLogicalVolumeDevice_packages => of_LVMLogicalVolumeDevice s
  end.

Definition store (k : PackageList) (l : list string) (s : ClassLists) : ClassLists :=
  match k with
  | Device_packages =>
      {| of_Device := l; of_LVMVolumeGroupDevice := of_LVMVolumeGroupDevice s;
         of_LVMLogicalVolumeDevice := of_LVMLogicalVolumeDevice s |}
  | LVMVolumeGroupDevice_packages =>
      {| of_Device := of_Device s; of_LVMVolumeGroupDevice := l;
         of_LVMLogicalVolumeDevice := of_LVMLogicalVolumeDevice s |}
  | LVMLogicalVolumeDevice_packages =>
      {| of_Device := of_Device s; of_LVMVolumeGroupDevice := of_LVMVolumeGroupDevice s;
         of_LVMLogicalVolumeDevice := l |}
  end.

(** The lists as the class statements leave them. *)
Definition at_import : ClassLists :=
  {| of_Device := []; of_LVMVolumeGroupDevice := ["lvm2"];
     of_LVMLogicalVolumeDevice := ["lvm2"] |}.

(** [for package in pkgs: if package not in packages: packages.append(package)],
    with [packages] the list [k].  When [pkgs] is that same list nothing
    is appended, so iterating over its contents at the start is what the
    loop does. *)
Definition append_absent (k : PackageList) (pkgs : list string) (s : ClassLists) : ClassLists :=
  fold_left (fun s p =>
               if existsb (String.eqb p) (contents k s) then s
               else store k (contents k s ++ [p]) s)
            pkgs s.

Section Read.

(** [format.packages] of the device with a given key. *)
Variable format_packages : nat -> list string.

(** [StorageDevice.packages], with the part done by [Device.packages]
    first: the value is the list [k] itself, not a copy. *)
Fixpoint packages (fuel : nat) (m : gmap nat Device) (i : nat) (s : ClassLists)
    : option (PackageList * ClassLists) :=
  match fuel with
  | O => None
  | S fuel' =>
      match m !! i with
      | None => None
      | Some d =>
          let k := _packages (cls d) in
          match (fix over_parents (ps : list nat) (s : ClassLists) : option ClassLists :=
                   match ps with
                   | [] => Some s
                   | p :: ps' =>
                       match packages fuel' m p s with
                       | None => None
                       | Some (kp, s1) =>
                           over_parents ps' (append_absent k (contents kp s1) s1)
                       end
                   end) (parents d) s with
          | None => None
          | Some s1 =>
              let s2 := store k (contents k s1 ++ format_packages i) s1 in
              Some (k, fold_left (fun s p => append_absent k (format_packages p) s)
                                 (parents d) s2)
          end
      end
  end.

End Read.

(** Every list of [s'] starts with the list it was in [s]. *)
Definition extends (s s' : ClassLists) : Prop :=
  forall k, exists t, contents k s' = (contents k s ++ t)%list.

(** The format of [sda1] needs a package, the disk's format none. *)
Definition ext4_on_sda1 (i : nat) : list string :=
  match i with
  | 1%nat => ["e2fsprogs"]
  | _ => []
  end.

End Packages.

(** * Properties *)

(** ** MDRaidArrayDevice.size *)

Section MDRaidFacts.
Import Py MDRaid.

Lemma headroom_small_array (fuel : nat) :
  (8 <= fuel)%nat -> headroom_loop fuel 128 (PInt 100) = Some 0.
Proof.
  intros H.
  do 8 (destruct fuel as [|fuel]; [lia|]).
  destruct fuel; reflexivity.
Qed.

Lemma three_sizes (l : list num) :
  Permutation l [PInt 100; PInt 150; PInt 200] ->
  l = [PInt 100; PInt 150; PInt 200] \/ l = [PInt 100; PInt 200; PInt 150] \/
  l = [PInt 150; PInt 100; PInt 200] \/ l = [PInt 150; PInt 200; PInt 100] \/
  l = [PInt 200; PInt 100; PInt 150] \/ l = [PInt 200; PInt 150; PInt 100].
Proof.
  intros HP.
  assert (HL := Permutation_length HP).
  assert (HN : List.NoDup l).
  { apply (Permutation_NoDup (Permutation_sym HP)).
    repeat constructor; simpl; intuition congruence. }
  destruct l as [|x [|y [|z [|? ?]]]]; try discriminate.
  assert (Hx : List.In x [PInt 100; PInt 150; PInt 200])
    by (apply (Permutation_in _ HP); simpl; auto).
  assert (Hy : List.In y [PInt 100; PInt 150; PInt 200])
    by (apply (Permutation_in _ HP); simpl; auto).
  assert (Hz : List.In z [PInt 100; PInt 150; PInt 200])
    by (apply (Permutation_in _ HP); simpl; auto).
  inversion HN as [|? ? Hnx HN']; subst.
  inversion HN' as [|? ? Hny HN'']; subst.
  simpl in Hx, Hy, Hz, Hnx, Hny.
  destruct Hx as [<-|[<-|[<-|[]]]]; destruct Hy as [<-|[<-|[<-|[]]]];
    destruct Hz as [<-|[<-|[<-|[]]]]; tauto.
Qed.

Lemma smallest_of_three (d : MDRaidArrayDevice) :
  Permutation (map member_size (devices d)) [PInt 100; PInt 150; PInt 200] ->
  smallestMember_size d = Ok (PInt 100) /\ devices d <> [].
Proof.
  intros HP. apply three_sizes in HP.
  unfold smallestMember_size, smallestMember.
  destruct (devices d) as [|[na sa] [|[nb sb] [|[nc sc] [|? ?]]]];
    simpl in HP; try (intuition discriminate).
  split; [|discriminate].
  destruct HP as [H|[H|[H|[H|[H|H]]]]]; inversion H; subst; reflexivity.
Qed.

(** C1 (as stated, refuted): for a new RAID1 array with the default 1.1
    metadata over members of 100, 150 and 200 MB, [size] is 99 while the
    smallest member minus [superBlockSize] is 100 - 0 = 100. *)
Lemma raid1_size_is_not_smallest_minus_superblock :
  ~ (exists sb r,
        superBlockSize 8 (raid1_example "1.1") = Some (Ok sb) /\
        Py.sub (PInt 100) sb = Ok r /\
        size 8 (raid1_example "1.1") = Some (Ok r)).
Proof.
  intros (sb & r & Hsb & Hr & Hsize).
  vm_compute in Hsb. inversion Hsb; subst sb.
  vm_compute in Hr. inversion Hr; subst r.
  vm_compute in Hsize. discriminate.
Qed.

(** C1 (amended): for an MDRaidArrayDevice at RAID level 1 that does not
    yet exist and is not a member of a BIOS RAID container, with three
    member devices of sizes 100, 150 and 200 MB in any order, the size
    property is the smallest member size minus [superBlockSize] minus one
    further megabyte ("account for unexpected metadata"): with 1.1 or 1.2
    metadata the reservation is 0 at this array size and the size is 99,
    with any other metadata version the reservation is 2.0 and the size
    is 97.0. *)
Theorem raid1_size_three_members (fuel : nat) (d : MDRaidArrayDevice) :
  (8 <= fuel)%nat ->
  level d = Level RAID1 ->
  py_true (exists_ d) = false ->
  _type d <> "mdbiosraidarray" ->
  Permutation (map member_size (devices d)) [PInt 100; PInt 150; PInt 200] ->
  exists sb t r,
    superBlockSize fuel d = Some (Ok sb) /\
    Py.sub (PInt 100) sb = Ok t /\
    Py.sub t (PInt 1) = Ok r /\
    size fuel d = Some (Ok r) /\
    if existsb (String.eqb (metadataVersion d)) ["1.1"; "1.2"]
    then sb = PInt 0 /\ r = PInt 99
    else sb = PFloat f2 /\ r = PFloat (float_of_Z 97).
Proof.
  intros Hfuel Hlevel Hex Htype HP.
  destruct (smallest_of_three d HP) as [Hsm Hne].
  assert (Hraw : rawArraySize d = Ok (PInt 100)).
  { unfold rawArraySize. rewrite Hsm, Hlevel. reflexivity. }
  assert (Hcomp : forall s, computed_size d s = Py.sub s (PInt 1)).
  { intros s. unfold computed_size. rewrite Hlevel. reflexivity. }
  assert (Hty : String.eqb (_type d) "mdbiosraidarray" = false)
    by (apply String.eqb_neq; exact Htype).
  unfold size, superBlockSize.
  destruct (devices d) as [|m0 ms] eqn:Hdev; [congruence|].
  rewrite Hty, Hsm, Hraw, Hex.
  destruct (existsb (String.eqb (metadataVersion d)) ["1.1"; "1.2"]) eqn:Hv; simpl negb;
    cbv iota.
  - rewrite (headroom_small_array fuel Hfuel).
    exists (PInt 0), (PInt 100), (PInt 99).
    split; [reflexivity|]. split; [reflexivity|]. split; [reflexivity|].
    split; [|split; reflexivity].
    simpl. rewrite Hcomp. reflexivity.
  - exists (PFloat f2). eexists. eexists.
    split; [reflexivity|].
    split; [vm_compute; reflexivity|].
    split; [vm_compute; reflexivity|].
    split; [|split; [reflexivity|vm_compute; reflexivity]].
    simpl. rewrite Hcomp. vm_compute. reflexivity.
Qed.

Lemma raid1_size_three_members_witness :
  (superBlockSize 8 (raid1_example "1.1") = Some (Ok (PInt 0)) /\
   size 8 (raid1_example "1.1") = Some (Ok (PInt 99))) /\
  (superBlockSize 8 (raid1_example "0.90") = Some (Ok (PFloat f2)) /\
   size 8 (raid1_example "0.90") = Some (Ok (PFloat (float_of_Z 97)))).
Proof.
  split.
  - destruct (raid1_size_three_members 8 (raid1_example "1.1"))
      as (sb & t & r & Hsb & _ & _ & Hsize & Hv).
    + lia.
    + reflexivity.
    + reflexivity.
    + simpl. discriminate.
    + simpl. apply Permutation_refl.
    + simpl in Hv. destruct Hv as [-> ->]. split; assumption.
  - destruct (raid1_size_three_members 8 (raid1_example "0.90"))
      as (sb & t & r & Hsb & _ & _ & Hsize & Hv).
    + lia.
    + reflexivity.
    + reflexivity.
    + simpl. discriminate.
    + simpl. apply Permutation_refl.
    + simpl in Hv. destruct Hv as [-> ->]. split; assumption.
Defined.

End MDRaidFacts.

(** ** Device: child count *)

Section ChildCount.
Import Py Storage.
Local Open Scope m_scope.

Lemma kids_set_kids v d : kids (set_kids v d) = v.
Proof. reflexivity. Qed.

Lemma run_op_kids i o w d :
  devs w !! i = Some d ->
  exists w', run_op i o w = Return tt w' /\
    devs w' = <[i := set_kids (kids d + net [o]) d]> (devs w) /\
    trace w' = trace w.
Proof.
  intros Hd. destruct o; unfold run_op, addChild, removeChild, modify; rewrite Hd;
    eexists; (split; [reflexivity|]); split; reflexivity.
Qed.

(** C5 (as stated, refuted): one [removeChild] on a device without
    children leaves a child count of -1. *)
Lemma removeChild_goes_negative :
  exists w' d, removeChild 0 lone_device = Return tt w' /\
    devs w' !! 0%nat = Some d /\ kids d < 0.
Proof.
  eexists. eexists. split; [reflexivity|]. split; [reflexivity|].
  vm_compute. reflexivity.
Qed.

(** C5 (amended): [addChild] adds one to the child count and
    [removeChild] subtracts one, without any check; after a sequence of
    such calls the count is the initial count plus the calls of [addChild]
    minus the calls of [removeChild], which is non-negative exactly when
    the removals do not exceed the initial count plus the additions. *)
Theorem child_count_after_calls (i : nat) (ops : list child_op) (w : World) (d : Device) :
  devs w !! i = Some d ->
  exists w' d',
    for_each (run_op i) ops w = Return tt w' /\
    devs w' !! i = Some d' /\
    kids d' = kids d + net ops /\
    (0 <= kids d' <-> - net ops <= kids d).
Proof.
  revert w d. induction ops as [|o ops IH]; intros w d Hd.
  - exists w, d. simpl. repeat split; try assumption; lia.
  - destruct (run_op_kids i o w d Hd) as (w1 & Hrun & Hdevs & _).
    assert (Hd1 : devs w1 !! i = Some (set_kids (kids d + net [o]) d))
      by (rewrite Hdevs; apply lookup_insert_eq).
    destruct (IH w1 _ Hd1) as (w' & d' & Hfor & Hd' & Hk & _).
    exists w', d'. simpl for_each. unfold bind at 1. rewrite Hrun.
    split; [exact Hfor|]. split; [exact Hd'|].
    rewrite kids_set_kids in Hk.
    assert (Hnet : net (o :: ops) = net [o] + net ops) by (destruct o; simpl; lia).
    rewrite Hnet. split; [lia|]. lia.
Qed.

Lemma child_count_after_calls_witness :
  exists w' d',
    for_each (run_op 0) [AddChild; RemoveChild; RemoveChild] lone_device = Return tt w' /\
    devs w' !! 0%nat = Some d' /\
    kids d' = 0 + net [AddChild; RemoveChild; RemoveChild] /\
    (0 <= kids d' <-> - net [AddChild; RemoveChild; RemoveChild] <= 0).
Proof.
  apply (child_count_after_calls 0 [AddChild; RemoveChild; RemoveChild] lone_device
           (blank StorageDevice "sdb" [] (Some true))).
  reflexivity.
Defined.

End ChildCount.

(** ** Reasoning about runs *)

Section Runs.
Import Py Storage.
Local Open Scope m_scope.

Lemma bind_Return {A B} (m : M A) (k : A -> M B) w b w' :
  bind m k w = Return b w' ->
  exists a w1, m w = Return a w1 /\ k a w1 = Return b w'.
Proof.
  unfold bind. destruct (m w) as [a w1| |]; try discriminate. eauto.
Qed.

Lemma bind_Throw {A B} (m : M A) (k : A -> M B) w e w' :
  bind m k w = Throw e w' ->
  m w = Throw e w' \/ exists a w1, m w = Return a w1 /\ k a w1 = Throw e w'.
Proof.
  unfold bind. destruct (m w) as [a w1|e1 w1|]; try discriminate.
  - right. eauto.
  - intros H. left. inversion H. reflexivity.
Qed.

Lemma get_Return i w d : devs w !! i = Some d -> get i w = Return d w.
Proof. unfold get. intros ->. reflexivity. Qed.

Lemma modify_Return i f w d :
  devs w !! i = Some d ->
  modify i f w = Return tt (with_devs (<[i := f d]> (devs w)) w).
Proof. unfold modify. intros ->. reflexivity. Qed.

Lemma name_Return i w d n :
  devs w !! i = Some d -> name_of (devs w) d = Some n -> name i w = Return n w.
Proof. unfold name, query. intros -> ->. reflexivity. Qed.

Lemma path_Return i w d p :
  devs w !! i = Some d -> path_of (devs w) d = Some p -> path i w = Return p w.
Proof. unfold path, query. intros -> ->. reflexivity. Qed.

Context (R : World -> World -> Prop) `{!PreOrder R}.

Lemma preserves_ret {A} (a : A) : preserves R (ret a).
Proof. intros w. simpl. reflexivity. Qed.

Lemma preserves_raise {A} e : preserves R (@raise A e).
Proof. intros w. simpl. reflexivity. Qed.

Lemma preserves_stop {A} : preserves R (@stop A).
Proof. intros w. exact I. Qed.

Lemma preserves_lift {A} (r : res A) : preserves R (lift r).
Proof. destruct r; [apply preserves_ret | apply preserves_raise]. Qed.

Lemma preserves_query {A} (f : gmap nat Device -> option A) : preserves R (query f).
Proof. intros w. unfold query. destruct (f (devs w)); [reflexivity | exact I]. Qed.

Lemma preserves_get i : preserves R (get i).
Proof. intros w. unfold get. destruct (devs w !! i); [reflexivity | exact I]. Qed.

Lemma preserves_bind {A B} (m : M A) (k : A -> M B) :
  preserves R m -> (forall a, preserves R (k a)) -> preserves R (bind m k).
Proof.
  intros Hm Hk w. unfold bind. specialize (Hm w).
  destruct (m w) as [a w1|e w1|]; [|exact Hm|exact I].
  specialize (Hk a w1). destruct (k a w1); try exact I; etransitivity; eauto.
Qed.

Lemma preserves_for_each {A} (f : A -> M unit) (l : list A) :
  (forall x, preserves R (f x)) -> preserves R (for_each f l).
Proof.
  intros Hf. induction l as [|x l IH]; simpl.
  - apply preserves_ret.
  - apply preserves_bind; [apply Hf | intros _; exact IH].
Qed.

Lemma preserves_emit e :
  (forall w, R w (with_trace (trace w ++ [e]) w)) -> preserves R (emit e).
Proof. intros H w. apply H. Qed.

Lemma preserves_modify i f :
  (forall w d, devs w !! i = Some d -> R w (with_devs (<[i := f d]> (devs w)) w)) ->
  preserves R (modify i f).
Proof.
  intros H w. unfold modify. destruct (devs w !! i) eqn:E; [apply H; exact E | exact I].
Qed.

End Runs.

(** ** StorageDevice: formats *)

Section Formats.
Import Py Storage.
Local Open Scope m_scope.

(** C6: for a StorageDevice whose current format reports status true,
    assigning a replacement format (or [None]) raises DeviceError and
    leaves the device, its format included, and everything else as it
    was. *)
Theorem setFormat_refused_when_active (i : nat) (format : option DeviceFormat)
    (w : World) (d : Device) (f : DeviceFormat) (n p : string) :
  devs w !! i = Some d ->
  _format d = Some f ->
  fmt_status f = true ->
  name_of (devs w) d = Some n ->
  path_of (devs w) d = Some p ->
  _setFormat i format w = Throw (DeviceError "cannot replace active format" n) w.
Proof.
  intros Hd Hf Hs Hn Hp.
  unfold _setFormat, bind. rewrite (get_Return _ _ _ Hd).
  assert (Hact : format_active (_format d) = true)
    by (unfold format_active; rewrite Hf; exact Hs).
  destruct format as [g|].
  - simpl. rewrite Hact, (name_Return _ _ _ _ Hd Hn). reflexivity.
  - rewrite (path_Return _ _ _ _ Hd Hp). simpl.
    rewrite Hact, (name_Return _ _ _ _ Hd Hn). reflexivity.
Qed.

Lemma setFormat_refused_when_active_witness :
  _setFormat 0 (Some new_format) mounted_device
  = Throw (DeviceError "cannot replace active format" "sdb") mounted_device.
Proof.
  apply (setFormat_refused_when_active 0 (Some new_format) mounted_device
           (set_format (Some mounted_format) (blank StorageDevice "sdb" [] (Some true)))
           mounted_format "sdb" "/dev/sdb"); reflexivity.
Defined.

End Formats.

(** ** Destroying devices *)

Section Destroy.
Import Py Storage.
Local Open Scope m_scope.



Lemma PartitionDevice_destroy_nonleaf (fuel i : nat) (w : World) (d : Device) (n : string) :
  devs w !! i = Some d ->
  py_true (exists_ d) = true ->
  sysfsPath d <> "" ->
  kids d <> 0 ->
  name_of (devs w) d = Some n ->
  PartitionDevice_destroy fuel i w = Throw (DeviceError "Cannot destroy non-leaf device" n) w.
Proof.
  intros Hd He Hs Hk Hn.
  unfold PartitionDevice_destroy, bind. rewrite (get_Return _ _ _ Hd), He. simpl.
  destruct (String.eqb_spec (sysfsPath d) ""); [contradiction|].
  unfold isleaf. destruct (Z.eqb_spec (kids d) 0); [contradiction|]. simpl.
  rewrite (name_Return _ _ _ _ Hd Hn). reflexivity.
Qed.

(** C3 (the code at the failing input): [destroy] on an existing thin
    pool that still has a thin logical volume as its child returns
    normally, has called [lvm.lvremove] for the pool, and has marked the
    pool as not existing while its child count is still 1. *)
Lemma pool_destroy_ignores_children :
  exists w' d d',
    devs pool_with_thin_volume !! 2%nat = Some d /\ isleaf d = false /\
    LVMLogicalVolumeDevice_destroy 5 2 pool_with_thin_volume = Return tt w' /\
    trace w' = [LvRemove "vg" "pool"] /\
    devs w' !! 2%nat = Some d' /\ kids d' = 1 /\ exists_ d' = Some false.
Proof.
  eexists. eexists. eexists.
  split; [vm_compute; reflexivity|].
  split; [reflexivity|].
  split; [vm_compute; reflexivity|].
  split; [reflexivity|].
  split; [vm_compute; reflexivity|].
  split; reflexivity.
Qed.

(** C10: for a PartitionDevice whose [exists] flag is true and whose
    [sysfsPath] is empty, [destroy] returns at once: whatever the child
    count, no exception is raised, no call reaches the disk label and the
    state, the [exists] flag included, is what it was. *)
Theorem partition_destroy_without_sysfsPath (fuel i : nat) (w : World) (d : Device) :
  devs w !! i = Some d ->
  cls d = PartitionDevice ->
  py_true (exists_ d) = true ->
  sysfsPath d = "" ->
  PartitionDevice_destroy fuel i w = Return tt w.
Proof.
  intros Hd _ He Hs.
  unfold PartitionDevice_destroy, bind. rewrite (get_Return _ _ _ Hd), He, Hs.
  reflexivity.
Qed.

Lemma partition_destroy_without_sysfsPath_witness :
  PartitionDevice_destroy 3 1 partition_without_sysfs = Return tt partition_without_sysfs /\
  (exists d, devs partition_without_sysfs !! 1%nat = Some d /\ isleaf d = false).
Proof.
  split.
  - apply (partition_destroy_without_sysfsPath 3 1 partition_without_sysfs
             (set_kids 1 (blank PartitionDevice "sda1" [0%nat] (Some true)))); reflexivity.
  - eexists. split; reflexivity.
Defined.

End Destroy.

(** ** What setup leaves alone *)

Section SetupFrame.
Import Py Storage.
Local Open Scope m_scope.

Lemma same_but_probe_refl d : same_but_probe d d.
Proof. destruct d; reflexivity. Qed.

Lemma same_but_probe_trans d1 d2 d3 :
  same_but_probe d1 d2 -> same_but_probe d2 d3 -> same_but_probe d1 d3.
Proof.
  unfold same_but_probe. destruct d1, d2, d3; simpl.
  unfold set_size, set_partedDevice, set_node_active; simpl.
  intros H1 H2. inversion H1; inversion H2; subst. reflexivity.
Qed.

Global Instance keeps_preorder (P : Device -> Device -> Prop) :
  PreOrder P -> PreOrder (keeps P).
Proof.
  intros [Hr Ht]. split.
  - intros w j. destruct (devs w !! j); constructor. apply Hr.
  - intros w1 w2 w3 H12 H23 j. specialize (H12 j). specialize (H23 j).
    destruct H12; inversion H23; subst; constructor. eapply Ht; eauto.
Qed.

Global Instance same_but_probe_preorder : PreOrder same_but_probe.
Proof.
  split; [exact same_but_probe_refl | exact same_but_probe_trans].
Qed.

Lemma keeps_emit P `{!PreOrder P} w t : keeps P w (with_trace t w).
Proof. intros j. simpl. destruct (devs w !! j); constructor. reflexivity. Qed.

Lemma keeps_modify P `{!PreOrder P} (f : Device -> Device) i w d :
  (forall x, P x (f x)) ->
  devs w !! i = Some d ->
  keeps P w (with_devs (<[i := f d]> (devs w)) w).
Proof.
  intros Hf Hd j. simpl. destruct (decide (i = j)) as [<-|Hne].
  - rewrite lookup_insert_eq, Hd. constructor. apply Hf.
  - rewrite lookup_insert_ne by exact Hne.
    destruct (devs w !! j); constructor. reflexivity.
Qed.

Lemma preserves_emit_keeps P `{!PreOrder P} e : preserves (keeps P) (emit e).
Proof. apply preserves_emit. intros w. apply keeps_emit; assumption. Qed.

Lemma preserves_modify_keeps P `{!PreOrder P} i f :
  (forall x, P x (f x)) -> preserves (keeps P) (modify i f).
Proof.
  intros Hf. apply preserves_modify.
  intros w d Hd. apply keeps_modify; assumption.
Qed.

End SetupFrame.

Import Py Storage.
Local Open Scope m_scope.

(** One step of a proof that a computation keeps a relation. *)
Ltac pres_step :=
  match goal with
  | |- preserves _ (bind _ _) => apply preserves_bind; [typeclasses eauto | | intros ?]
  | |- preserves _ (ret _) => apply preserves_ret; typeclasses eauto
  | |- preserves _ (raise _) => apply preserves_raise; typeclasses eauto
  | |- preserves _ stop => apply preserves_stop
  | |- preserves _ (lift _) => apply preserves_lift; typeclasses eauto
  | |- preserves _ (query _) => apply preserves_query; typeclasses eauto
  | |- preserves _ (get _) => apply preserves_get; typeclasses eauto
  | |- preserves _ (name _) => apply preserves_query; typeclasses eauto
  | |- preserves _ (path _) => apply preserves_query; typeclasses eauto
  | |- preserves _ (status _ _) => apply preserves_query; typeclasses eauto
  | |- preserves _ (the_vg _) => apply preserves_query; typeclasses eauto
  | |- preserves _ (the_vg_dev _) => apply preserves_query; typeclasses eauto
  | |- preserves _ (pv_format _) => unfold pv_format
  | |- preserves _ (for_each _ _) => apply preserves_for_each; [typeclasses eauto | intros ?]
  | |- preserves (keeps _) (emit _) => apply preserves_emit_keeps; typeclasses eauto
  | |- preserves _ (if ?b then _ else _) => destruct b
  | |- preserves _ (match ?x with _ => _ end) => destruct x
  end.

Section SetupKeeps.

Lemma partedDevice_keeps fuel i : preserves (keeps same_but_probe) (partedDevice fuel i).
Proof.
  unfold partedDevice. repeat pres_step.
  apply preserves_modify_keeps; [typeclasses eauto|]. intros x. destruct x; reflexivity.
Qed.

Lemma currentSize_keeps fuel i : preserves (keeps same_but_probe) (currentSize fuel i).
Proof.
  unfold currentSize. pres_step; [pres_step|]. pres_step; [|pres_step].
  pres_step; [apply partedDevice_keeps|]. repeat pres_step.
Qed.

Lemma setup_keeps fuel : forall i orig, preserves (keeps same_but_probe) (setup fuel i orig).
Proof.
  induction fuel as [|fuel IH]; intros i orig; simpl.
  - apply preserves_stop.
  - pres_step; [pres_step|].
    assert (HS : preserves (keeps same_but_probe) (StorageDevice_setup (setup fuel) i orig)).
    { unfold StorageDevice_setup, setupParents. repeat pres_step. apply IH. }
    destruct (cls a); try exact HS.
    + unfold LVMVolumeGroupDevice_setup, setupParents. repeat pres_step. apply IH.
    + unfold LVMLogicalVolumeDevice_setup, lvactivate.
      repeat first [ apply IH | apply currentSize_keeps
                   | (apply preserves_modify_keeps; [typeclasses eauto|];
                      intros x; destruct x; reflexivity)
                   | pres_step ].
    + unfold LVMLogicalVolumeDevice_setup, lvactivate.
      repeat first [ apply IH | apply currentSize_keeps
                   | (apply preserves_modify_keeps; [typeclasses eauto|];
                      intros x; destruct x; reflexivity)
                   | pres_step ].
    + unfold LVMLogicalVolumeDevice_setup, lvactivate.
      repeat first [ apply IH | apply currentSize_keeps
                   | (apply preserves_modify_keeps; [typeclasses eauto|];
                      intros x; destruct x; reflexivity)
                   | pres_step ].
Qed.

End SetupKeeps.

(** ** StorageDevice: create and destroy *)

Section CreateDestroy.
Import Py Storage.
Local Open Scope m_scope.

Lemma preserves_Return {A} R (m : M A) w a w' :
  preserves R m -> m w = Return a w' -> R w w'.
Proof. intros H E. specialize (H w). rewrite E in H. exact H. Qed.

Lemma same_but_probe_fields d d' :
  same_but_probe d d' ->
  kids d' = kids d /\ exists_ d' = exists_ d /\ cls d' = cls d /\
  parents d' = parents d /\ _name d' = _name d /\ _targetSize d' = _targetSize d.
Proof. unfold same_but_probe. intros ->. destruct d; simpl. repeat split. Qed.

Lemma keeps_lookup P w w' j d :
  keeps P w w' -> devs w !! j = Some d -> exists d', devs w' !! j = Some d' /\ P d d'.
Proof.
  intros H E. specialize (H j). rewrite E in H. inversion H; subst. eauto.
Qed.










End CreateDestroy.

(** ** PartitionDevice._computeResize *)

Section ResizeFacts.
Import Py Resize.
Local Open Scope res_scope.

Lemma round_up_to_ge x g : 0 < g -> x <= round_up_to x g.
Proof.
  intros Hg. unfold round_up_to.
  pose proof (Z.div_mod (x + g - 1) g ltac:(lia)) as Hdm.
  pose proof (Z.mod_pos_bound (x + g - 1) g Hg) as Hb.
  nia.
Qed.

Lemma closest_inside_bounds a g s r :
  0 < grainSize a -> closest_inside a g s = Some r -> start g <= r <= end_ g.
Proof.
  intros Hg. unfold closest_inside.
  set (s1 := if s <? start g then _ else _).
  destruct (Z.gtb_spec s1 (end_ g)) as [Hgt|Hle].
  - destruct (Z.ltb_spec (s1 - round_up_to (s1 - end_ g) (grainSize a)) (start g));
      [discriminate|].
    intros Heq; inversion Heq; subst r.
    pose proof (round_up_to_ge (s1 - end_ g) (grainSize a) Hg). lia.
  - destruct (Z.ltb_spec s1 (start g)); [discriminate|].
    intros Heq; inversion Heq; subst r. lia.
Qed.

Lemma grain_alignUp_inside a g s r :
  grain_alignUp a g s = Some r -> start g <= r <= end_ g.
Proof.
  unfold grain_alignUp. destruct (Z.leb_spec (grainSize a) 0); [discriminate|].
  apply closest_inside_bounds. assumption.
Qed.

Lemma grain_alignDown_inside a g s r :
  grain_alignDown a g s = Some r -> start g <= r <= end_ g.
Proof.
  unfold grain_alignDown. destruct (Z.leb_spec (grainSize a) 0); [discriminate|].
  apply closest_inside_bounds. assumption.
Qed.

Variable alignUp alignDown : Geometry -> Z -> option Z.

(** What parted promises of an aligned sector: it lies in the geometry
    it was asked for. *)
Hypothesis alignUp_inside :
  forall g s r, alignUp g s = Some r -> start g <= r <= end_ g.
Hypothesis alignDown_inside :
  forall g s r, alignDown g s = Some r -> start g <= r <= end_ g.

(** C9: with [n] the requested number of sectors, at least one,
    [_computeResize] asks [alignUp] for the requested end within the
    current geometry when [n] is below the current length, and [alignDown]
    within the requested geometry otherwise.  When parted answers with a
    sector, the call returns the geometry that keeps the start sector of
    the current one and ends at that sector, with the exact constraint for
    it; the end does not pass the current end in the first case and the
    requested end in the second.  When parted finds no sector, its
    exception is raised. *)
Theorem computeResize_end_stays_inside (targetSize : num) (cur : Geometry) (n : Z) :
  newLen targetSize (sectorSize cur) = Ok n ->
  1 <= n ->
  let chosen := {| start := start cur; length := n; sectorSize := sectorSize cur |} in
  let resized (r : Z) :=
    {| start := start cur; length := r - start cur + 1; sectorSize := sectorSize cur |} in
  let result (aligned : option Z) (limit : Z) :=
    match aligned with
    | Some r =>
        _computeResize alignUp alignDown targetSize cur
        = Ok (ExactGeom (resized r), resized r) /\
        end_ (resized r) = r /\ start cur <= r <= limit
    | None =>
        _computeResize alignUp alignDown targetSize cur
        = Raise (ArithmeticError "Could not align to closest sector")
    end in
  (n < length cur -> result (alignUp cur (end_ chosen)) (end_ cur)) /\
  (length cur <= n -> result (alignDown chosen (end_ chosen)) (end_ chosen)).
Proof.
  intros Hn Hn1 chosen resized result.
  assert (Hend : forall r, end_ (resized r) = r) by (intros r; unfold end_; simpl; lia).
  assert (Hrun : _computeResize alignUp alignDown targetSize cur
                 = (do e <- (if n <? length cur
                             then call_align alignUp cur (end_ chosen)
                             else call_align alignDown chosen (end_ chosen));
                    do g <- set_end chosen e;
                    Ok (ExactGeom g, g))).
  { unfold _computeResize. rewrite Hn. simpl. unfold new_Geometry at 1.
    destruct (Z.ltb_spec n 1); [lia|]. simpl. fold chosen.
    destruct (n <? length cur); reflexivity. }
  assert (Hset : forall r, start cur <= r -> set_end chosen r = Ok (resized r)).
  { intros r Hr. unfold set_end, new_Geometry. simpl.
    destruct (Z.ltb_spec (r - start cur + 1) 1); [lia|]. reflexivity. }
  unfold result. rewrite Hrun. clear Hrun.
  split; intros Hlen.
  - destruct (Z.ltb_spec n (length cur)) as [_|]; [|lia].
    unfold call_align.
    destruct (alignUp cur (end_ chosen)) as [r|] eqn:Hal; simpl; [|reflexivity].
    pose proof (alignUp_inside _ _ _ Hal) as Hin.
    rewrite (Hset r) by lia. simpl.
    split; [reflexivity|]. split; [apply Hend|exact Hin].
  - destruct (Z.ltb_spec n (length cur)) as [|_]; [lia|].
    unfold call_align.
    destruct (alignDown chosen (end_ chosen)) as [r|] eqn:Hal; simpl; [|reflexivity].
    pose proof (alignDown_inside _ _ _ Hal) as Hin. simpl in Hin.
    rewrite (Hset r) by lia. simpl.
    split; [reflexivity|]. split; [apply Hend|exact Hin].
Qed.

End ResizeFacts.

Section ResizeWitness.
Import Py Resize.

Lemma computeResize_end_stays_inside_witness :
  (* a shrink to 1 MB: the requested end 2110 moves up to 4095 *)
  (_computeResize (grain_alignUp end_2048) (grain_alignDown end_2048) (PInt 1) geom_63
   = Ok (ExactGeom {| start := 63; length := 4033; sectorSize := 512 |},
         {| start := 63; length := 4033; sectorSize := 512 |}) /\
   63 <= 4095 <= end_ geom_63) /\
  (* a growth to 3 MB: the requested end 6206 moves down to 6143 *)
  (_computeResize (grain_alignUp end_2048) (grain_alignDown end_2048) (PInt 3) geom_63_1M
   = Ok (ExactGeom {| start := 63; length := 6081; sectorSize := 512 |},
         {| start := 63; length := 6081; sectorSize := 512 |}) /\
   63 <= 6143 <= 6206).
Proof.
  split.
  - destruct (computeResize_end_stays_inside
                (grain_alignUp end_2048) (grain_alignDown end_2048)
                (grain_alignUp_inside end_2048) (grain_alignDown_inside end_2048)
                (PInt 1) geom_63 2048 eq_refl ltac:(lia)) as [Hup _].
    specialize (Hup ltac:(simpl; lia)).
    change (grain_alignUp end_2048 geom_63 (end_ {| start := start geom_63; length := 2048;
              sectorSize := sectorSize geom_63 |})) with (Some 4095) in Hup.
    cbv beta iota in Hup. destruct Hup as (Hrun & _ & Hin). split; [exact Hrun|exact Hin].
  - destruct (computeResize_end_stays_inside
                (grain_alignUp end_2048) (grain_alignDown end_2048)
                (grain_alignUp_inside end_2048) (grain_alignDown_inside end_2048)
                (PInt 3) geom_63_1M 6144 eq_refl ltac:(lia)) as [_ Hdown].
    specialize (Hdown ltac:(simpl; lia)).
    change (grain_alignDown end_2048 {| start := start geom_63_1M; length := 6144;
              sectorSize := sectorSize geom_63_1M |}
              (end_ {| start := start geom_63_1M; length := 6144;
                       sectorSize := sectorSize geom_63_1M |})) with (Some 6143) in Hdown.
    cbv beta iota in Hdown. destruct Hdown as (Hrun & _ & Hin). split; [exact Hrun|exact Hin].
Defined.

End ResizeWitness.

(** ** Logical volumes: setting the size *)

Section SizeReads.
Import Py Storage.
Local Open Scope m_scope.

Lemma refresh_idem d : refresh (refresh d) = refresh d.
Proof.
  destruct d as [? ? ? ? ? ? ? ? ? ? pd ? pp ? ? ? ? ? ? ? ? ? ? ? ? ?].
  unfold refresh; simpl. destruct pd; simpl; [reflexivity|].
  destruct pp; reflexivity.
Qed.

Lemma refresh_exists d : exists_ (refresh d) = exists_ d.
Proof.
  unfold refresh. destruct (_partedDevice d); [destruct d; reflexivity|].
  destruct (parted_probe d); destruct d; reflexivity.
Qed.

Global Instance only_refreshed_preorder : PreOrder only_refreshed.
Proof.
  split.
  - intros w. repeat split. intros j. left. reflexivity.
  - intros w1 w2 w3 (Ht1 & Hc1 & Hp1 & H1) (Ht2 & Hc2 & Hp2 & H2).
    split; [congruence|]. split; [congruence|]. split; [congruence|].
    intros j. destruct (H1 j) as [E1|(d & Hd & He & E1)];
      destruct (H2 j) as [E2|(d2 & Hd2 & He2 & E2)].
    + left. congruence.
    + right. exists d2. rewrite <- E1. auto.
    + right. exists d. split; [exact Hd|]. split; [exact He|]. congruence.
    + right. exists d. split; [exact Hd|]. split; [exact He|].
      rewrite E2. rewrite E1 in Hd2. inversion Hd2; subst d2.
      rewrite refresh_idem. reflexivity.
Qed.

Lemma only_refreshed_at i w d :
  devs w !! i = Some d ->
  py_true (exists_ d) = true ->
  only_refreshed w (with_devs (<[i := refresh d]> (devs w)) w).
Proof.
  intros Hd He. repeat split. intros j. simpl.
  destruct (decide (i = j)) as [<-|Hne].
  - right. exists d. rewrite lookup_insert_eq. auto.
  - left. apply lookup_insert_ne. exact Hne.
Qed.

(** A read of [StorageDevice._getSize] leaves the state as it was or
    refreshes the object read. *)
Lemma StorageDevice_getSize_run fuel i w :
  match StorageDevice_getSize fuel i w with
  | Return _ w' | Throw _ w' =>
      w' = w \/
      exists d, devs w !! i = Some d /\ py_true (exists_ d) = true /\
                w' = with_devs (<[i := refresh d]> (devs w)) w
  | Abort => True
  end.
Proof.
  unfold StorageDevice_getSize, mediaPresent.
  unfold bind at 1. unfold get at 1.
  destruct (devs w !! i) as [d|] eqn:Hd; [|exact I].
  rewrite andb_false_r.
  destruct (py_true (exists_ d)) eqn:He; simpl.
  2:{ unfold bind, ret, get. rewrite Hd, He. simpl. left. reflexivity. }
  unfold bind at 1. unfold partedDevice at 1. unfold bind at 1.
  rewrite (get_Return _ _ _ Hd), He. unfold bind at 1.
  unfold status at 1, query at 1.
  destruct (status_of fuel (devs w) i) as [st|]; [|exact I].
  destruct (_partedDevice d) as [s|] eqn:Hpd.
  - rewrite andb_false_r. unfold bind at 1. unfold ret at 1.
    unfold bind at 1. rewrite (get_Return _ _ _ Hd). unfold ret at 1. rewrite Hpd.
    simpl is_some. cbv iota.
    unfold bind at 1. unfold bind at 1. unfold currentSize at 1.
    unfold bind at 1. rewrite (get_Return _ _ _ Hd), He.
    unfold bind at 1. unfold partedDevice at 1. unfold bind at 1.
    rewrite (get_Return _ _ _ Hd), He. unfold bind at 1.
    unfold status at 1, query at 1.
    destruct (status_of fuel (devs w) i) as [st2|]; [|exact I].
    rewrite Hpd, andb_false_r. unfold bind at 1. unfold ret at 1.
    unfold bind at 1. rewrite (get_Return _ _ _ Hd). unfold ret at 1. rewrite Hpd.
    unfold ret at 1. rewrite (modify_Return _ _ _ _ Hd).
    unfold bind, get. simpl devs. rewrite lookup_insert_eq.
    assert (Hr : refresh d = set_size s d) by (unfold refresh; rewrite Hpd; reflexivity).
    rewrite <- Hr.
    destruct (_ && _ && _); simpl; right; exists d; auto.
  - simpl negb. rewrite andb_true_r. simpl andb.
    destruct st; simpl.
    + destruct (parted_probe d) as [s|] eqn:Hpp.
      * unfold bind at 1. rewrite (modify_Return _ _ _ _ Hd).
        unfold bind at 1. unfold get at 1. simpl devs. rewrite lookup_insert_eq.
        unfold ret at 1.
        replace (_partedDevice (set_partedDevice (Some s) d)) with (Some s)
          by (destruct d; reflexivity).
        replace (exists_ (set_partedDevice (Some s) d)) with (exists_ d)
          by (destruct d; reflexivity).
        simpl is_some. cbv iota.
        set (w1 := with_devs (<[i:=set_partedDevice (Some s) d]> (devs w)) w).
        assert (Hd1 : devs w1 !! i = Some (set_partedDevice (Some s) d))
          by (simpl; apply lookup_insert_eq).
        unfold bind at 1. unfold bind at 1. unfold currentSize at 1.
        unfold bind at 1. rewrite (get_Return _ _ _ Hd1).
        replace (exists_ (set_partedDevice (Some s) d)) with (exists_ d)
          by (destruct d; reflexivity).
        rewrite He.
        unfold bind at 1. unfold partedDevice at 1. unfold bind at 1.
        rewrite (get_Return _ _ _ Hd1).
        replace (exists_ (set_partedDevice (Some s) d)) with (exists_ d)
          by (destruct d; reflexivity).
        rewrite He. unfold bind at 1.
        unfold status at 1, query at 1.
        destruct (status_of fuel (devs w1) i) as [st2|]; [|exact I].
        replace (_partedDevice (set_partedDevice (Some s) d)) with (Some s)
          by (destruct d; reflexivity).
        simpl is_some. rewrite andb_false_r. unfold bind at 1. unfold ret at 1.
        unfold bind at 1. rewrite (get_Return _ _ _ Hd1). unfold ret at 1.
        replace (_partedDevice (set_partedDevice (Some s) d)) with (Some s)
          by (destruct d; reflexivity).
        unfold ret at 1. rewrite (modify_Return _ _ _ _ Hd1).
        unfold bind, get. simpl devs. rewrite lookup_insert_eq.
        assert (Hr : refresh d = set_size s (set_partedDevice (Some s) d))
          by (unfold refresh; rewrite Hpd, Hpp; reflexivity).
        rewrite <- Hr.
        assert (Hw : with_devs (<[i:=refresh d]> (<[i:=set_partedDevice (Some s) d]> (devs w))) w1
                     = with_devs (<[i:=refresh d]> (devs w)) w).
        { unfold w1, with_devs. simpl. rewrite insert_insert_eq. reflexivity. }
        rewrite Hw.
        destruct (_ && _ && _); simpl; right; exists d; auto.
      * unfold bind at 1. unfold ret at 1.
        unfold bind at 1. rewrite (get_Return _ _ _ Hd). unfold ret at 1. rewrite Hpd.
        simpl. unfold bind, ret, get. rewrite Hd.
        destruct (_ && _ && _); left; reflexivity.
    + unfold bind at 1. unfold ret at 1.
      unfold bind at 1. rewrite (get_Return _ _ _ Hd). unfold ret at 1. rewrite Hpd.
      simpl. unfold bind, ret, get. rewrite Hd.
      destruct (_ && _ && _); left; reflexivity.
Qed.

Lemma StorageDevice_getSize_refreshed fuel i :
  preserves only_refreshed (StorageDevice_getSize fuel i).
Proof.
  intros w. pose proof (StorageDevice_getSize_run fuel i w) as H.
  destruct (StorageDevice_getSize fuel i w) as [a w'|e w'|]; [| |exact I].
  - destruct H as [->|(d & Hd & He & ->)]; [reflexivity|].
    apply only_refreshed_at; assumption.
  - destruct H as [->|(d & Hd & He & ->)]; [reflexivity|].
    apply only_refreshed_at; assumption.
Qed.

Lemma vg_size_loop_refreshed (rec : nat -> M num) pe pvs :
  (forall i, preserves only_refreshed (rec i)) ->
  forall acc, preserves only_refreshed (vg_size_loop rec pe pvs acc).
Proof.
  intros Hrec. induction pvs as [|pv pvs IH]; intros acc; simpl.
  - pres_step.
  - repeat first [ apply Hrec | apply IH | pres_step ].
Qed.

Lemma size_of_refreshed fuel : forall i, preserves only_refreshed (size_of fuel i).
Proof.
  induction fuel as [|fuel IH]; intros i; simpl.
  - apply preserves_stop.
  - pres_step; [pres_step|].
    destruct (cls a); try apply StorageDevice_getSize_refreshed.
    + unfold PartitionDevice_getSize. repeat pres_step.
    + unfold LVMVolumeGroupDevice_size. pres_step; [pres_step|].
      apply vg_size_loop_refreshed. exact IH.
Qed.

Section Accounting.
Variable get_pool_padding : num -> num -> res num.

Lemma vgSpaceUsed_refreshed fuel i :
  preserves only_refreshed (vgSpaceUsed get_pool_padding fuel i).
Proof.
  unfold vgSpaceUsed, LVMLogicalVolumeDevice_vgSpaceUsed.
  pres_step; [pres_step|].
  destruct (cls a); repeat first [ apply size_of_refreshed | pres_step ].
Qed.

Lemma sum_vgSpaceUsed_refreshed fuel lvs :
  forall acc, preserves only_refreshed (sum_vgSpaceUsed get_pool_padding fuel lvs acc).
Proof.
  induction lvs as [|lv lvs IH]; intros acc; simpl.
  - pres_step.
  - repeat first [ apply vgSpaceUsed_refreshed | apply IH | pres_step ].
Qed.

Lemma snapshot_loop_refreshed pe lvs :
  forall acc, preserves only_refreshed (snapshot_loop pe lvs acc).
Proof.
  induction lvs as [|lv lvs IH]; intros acc; simpl.
  - pres_step.
  - repeat first [ apply IH | pres_step ].
Qed.

Lemma freeSpace_refreshed fuel i :
  preserves only_refreshed (freeSpace get_pool_padding fuel i).
Proof.
  unfold freeSpace, reservedSpace, LVMVolumeGroupDevice_snapshotSpace.
  repeat first [ apply size_of_refreshed | apply sum_vgSpaceUsed_refreshed
               | apply snapshot_loop_refreshed | pres_step ].
Qed.

Lemma refresh_targetSize d : _targetSize (refresh d) = _targetSize d.
Proof.
  unfold refresh. destruct (_partedDevice d); [destruct d; reflexivity|].
  destruct (parted_probe d); destruct d; reflexivity.
Qed.

Lemma only_refreshed_lookup w w1 j dj :
  only_refreshed w w1 ->
  devs w !! j = Some dj ->
  exists dj1, devs w1 !! j = Some dj1 /\
    (dj1 = dj \/ (py_true (exists_ dj) = true /\ dj1 = refresh dj)) /\
    _targetSize dj1 = _targetSize dj /\ exists_ dj1 = exists_ dj.
Proof.
  intros (_ & _ & _ & H) Hj. destruct (H j) as [E|(d & Hd & He & E)].
  - exists dj. rewrite E. auto.
  - rewrite Hj in Hd. inversion Hd; subst d. exists (refresh dj).
    split; [exact E|]. split; [right; auto|].
    split; [apply refresh_targetSize | apply refresh_exists].
Qed.

(** Where no existing object has a parted device, cached or to be
    opened, reads of sizes change nothing at all. *)
Lemma only_refreshed_without_probe w w1 :
  (forall j d, devs w !! j = Some d -> py_true (exists_ d) = true ->
     _partedDevice d = None /\ parted_probe d = None) ->
  only_refreshed w w1 -> w1 = w.
Proof.
  intros Hno (Ht & Hc & Hp & H).
  destruct w as [m t c l], w1 as [m1 t1 c1 l1]; simpl in *. subst t1 c1 l1. f_equal.
  apply map_eq. intros j. destruct (H j) as [E|(d & Hd & He & E)]; [exact E|].
  destruct (Hno j d Hd He) as [Hp Hq].
  rewrite E, Hd. unfold refresh. rewrite Hp, Hq. reflexivity.
Qed.


(** A thin logical volume takes any size: its own [_setSize] does not
    look at the free space. *)
Lemma thin_volume_size_is_not_checked :
  exists free w1 w' d',
    freeSpace no_padding 5 1 pool_with_thin_volume = Return free w1 /\
    Py.lt free (PInt 100000) = true /\
    lv_set_size no_padding 5 3 (Some (PInt 100000)) pool_with_thin_volume = Return tt w' /\
    devs w' !! 3%nat = Some d' /\ _size d' = PInt 100000.
Proof.
  eexists. eexists. eexists. eexists.
  split; [vm_compute; reflexivity|].
  split; [vm_compute; reflexivity|].
  split; [vm_compute; reflexivity|].
  split; [vm_compute; reflexivity|]. reflexivity.
Qed.


End Accounting.


End SizeReads.

(** ** LVMVolumeGroupDevice.align *)

Section FloatFacts.

Lemma fexp_normal e : -1021 <= e -> fexp prec emax e = e - 53.
Proof. unfold fexp, emin, prec, emax. lia. Qed.

(** A mantissa of 53 bits is kept as it is. *)
Lemma round_aux_canonical s M E :
  digits2_pos M = 53%positive -> -1074 <= E <= 971 ->
  binary_round_aux prec emax s (Zpos M) E loc_Exact = S754_finite s M E.
Proof.
  intros HM HE.
  unfold binary_round_aux, shr_fexp. simpl Zdigits2. rewrite HM.
  rewrite fexp_normal by lia.
  replace (53 + E - 53 - E) with 0 by lia. simpl shr. 
  unfold shr_fexp. simpl Zdigits2. rewrite HM. rewrite fexp_normal by lia.
  replace (53 + E - 53 - E) with 0 by lia. simpl.
  unfold emax, prec. destruct (Z.leb_spec E (1024 - 53)); [reflexivity|lia].
Qed.

Lemma iter_pos_eq {A} (f : A -> A) p x : SpecFloat.iter_pos f p x = Pos.iter f x p.
Proof.
  revert x. induction p as [p IH|p IH|]; intros x; simpl.
  - rewrite !IH. rewrite !Pos.iter_swap. reflexivity.
  - rewrite !IH. reflexivity.
  - reflexivity.
Qed.

Lemma digits2_pos_shift M j :
  digits2_pos (Pos.iter xO M j) = (digits2_pos M + j)%positive.
Proof.
  induction j as [|j IH] using Pos.peano_ind.
  - simpl. lia.
  - rewrite Pos.iter_succ. simpl. rewrite IH. lia.
Qed.

Lemma shr_shifted M j :
  Pos.iter shr_1 {| shr_m := Zpos (Pos.iter xO M j); shr_r := false; shr_s := false |} j
  = {| shr_m := Zpos M; shr_r := false; shr_s := false |}.
Proof.
  induction j as [|j IH] using Pos.peano_ind.
  - reflexivity.
  - rewrite !Pos.iter_succ, <- Pos.iter_swap. simpl shr_1.
    exact IH.
Qed.

(** A mantissa of 53 bits followed by [j] zero bits loses the zeros. *)
Lemma round_aux_shift s M E j :
  digits2_pos M = 53%positive -> -1074 <= E + Zpos j <= 971 ->
  binary_round_aux prec emax s (Zpos (Pos.iter xO M j)) E loc_Exact
  = S754_finite s M (E + Zpos j).
Proof.
  intros HM HE.
  unfold binary_round_aux, shr_fexp at 1. unfold Zdigits2.
  rewrite digits2_pos_shift, HM.
  rewrite fexp_normal by lia.
  replace (Z.pos (53 + j) + E - 53 - E) with (Zpos j) by lia.
  unfold shr. simpl shr_record_of_loc. rewrite iter_pos_eq, shr_shifted.
  unfold shr_fexp. simpl Zdigits2. rewrite HM. rewrite fexp_normal by lia.
  replace (53 + (E + Zpos j) - 53 - (E + Zpos j)) with 0 by lia. simpl.
  unfold emax, prec. destruct (Z.leb_spec (E + Zpos j) (1024 - 53)); [reflexivity|lia].
Qed.

(** Multiplying a normal double by a power of two moves the exponent. *)
Lemma fmul_pow2 s M E j :
  digits2_pos M = 53%positive -> -1074 <= E + j <= 971 ->
  fmul (S754_finite s M E) (pow2 j) = S754_finite s M (E + j).
Proof.
  intros HM HE. unfold fmul, pow2, SFmul.
  replace (M * 4503599627370496)%positive with (Pos.iter xO M 52)
    by (rewrite Pos.mul_comm; reflexivity).
  rewrite xorb_false_r.
  rewrite round_aux_shift by (try assumption; lia).
  f_equal. lia.
Qed.

Lemma div_eucl_exact a b : 0 < b -> Z.div_eucl (a * b) b = (a, 0).
Proof.
  intros Hb.
  assert (H := Z.div_eucl_eq (a * b) b ltac:(lia)).
  pose proof (Z.div_mul a b ltac:(lia)) as Hd.
  pose proof (Z.mod_mul a b ltac:(lia)) as Hm.
  unfold Z.div, Z.modulo in Hd, Hm.
  destruct (Z.div_eucl (a * b) b) as [q r]. simpl in Hd, Hm. congruence.
Qed.

(** Dividing a normal double by a power of two moves the exponent. *)
Lemma fdiv_pow2 s M E j :
  digits2_pos M = 53%positive -> -1073 <= E - j <= 971 ->
  fdiv (S754_finite s M E) (pow2 j) = S754_finite s M (E - j).
Proof.
  intros HM HE. unfold fdiv, pow2, SFdiv, SFdiv_core_binary.
  change (Zdigits2 (Z.pos 4503599627370496)) with 53.
  unfold Zdigits2. rewrite HM.
  rewrite fexp_normal by lia.
  replace (Z.min (53 + E - (53 + (j - 52)) - 53) (E - (j - 52))) with (E - j - 1) by lia.
  replace (E - (j - 52) - (E - j - 1)) with 53 by lia.
  cbv iota.
  replace (Z.shiftl (Z.pos M) 53) with (Zpos M~0 * 4503599627370496)
    by (rewrite Z.shiftl_mul_pow2 by lia; lia).
  rewrite div_eucl_exact by lia.
  rewrite xorb_false_r.
  change (new_location 4503599627370496 0) with loc_Exact.
  change (M~0)%positive with (Pos.iter xO M 1).
  rewrite round_aux_shift by (try assumption; lia).
  f_equal. lia.
Qed.

Lemma digits2_pos_size n : digits2_pos n = Pos.size n.
Proof. induction n; simpl; congruence. Qed.

Lemma digits2_pos_bounds n :
  2 ^ (Zpos (digits2_pos n) - 1) <= Zpos n < 2 ^ Zpos (digits2_pos n).
Proof.
  rewrite digits2_pos_size.
  pose proof (Pos.size_gt n) as Hgt. pose proof (Pos.size_le n) as Hle.
  apply Pos2Z.pos_lt_pos in Hgt. apply Pos2Z.pos_le_pos in Hle.
  rewrite Pos2Z.inj_pow in Hgt, Hle.
  replace (Z.pos (Pos.size n)) with (Z.pos (Pos.size n) - 1 + 1) in Hle by lia.
  rewrite Z.pow_add_r in Hle by lia.
  split; [|exact Hgt]. change (2 ^ 1) with 2 in Hle. lia.
Qed.

Lemma digits2_pos_le n b :
  0 <= b -> Zpos n < 2 ^ b -> Zpos (digits2_pos n) <= b.
Proof.
  intros Hb Hn. destruct (Z.le_gt_cases (Zpos (digits2_pos n)) b) as [|Hgt]; [assumption|].
  pose proof (digits2_pos_bounds n) as [Hlo _].
  assert (2 ^ b <= 2 ^ (Zpos (digits2_pos n) - 1)) by (apply Z.pow_le_mono_r; lia).
  lia.
Qed.

Lemma pos_iter_xO n j : Zpos (Pos.iter xO n j) = Zpos n * 2 ^ Zpos j.
Proof.
  induction j as [|j IH] using Pos.peano_ind.
  - simpl. lia.
  - rewrite Pos.iter_succ, Pos2Z.inj_xO, IH, Pos2Z.inj_succ, Z.pow_succ_r by lia. lia.
Qed.

Lemma normal_mantissa_digits n :
  Zpos (digits2_pos n) <= 53 -> digits2_pos (normal_mantissa n) = 53%positive.
Proof.
  intros Hd. unfold normal_mantissa.
  destruct (Zpos (digits2_pos n) - 53) as [|p|p] eqn:E; try lia.
  rewrite digits2_pos_shift. lia.
Qed.

Lemma normal_mantissa_value n :
  Zpos (digits2_pos n) <= 53 ->
  Zpos (normal_mantissa n) = Zpos n * 2 ^ (53 - Zpos (digits2_pos n)).
Proof.
  intros Hd. unfold normal_mantissa.
  destruct (Zpos (digits2_pos n) - 53) as [|p|p] eqn:E; try lia.
  - replace (53 - Zpos (digits2_pos n)) with 0 by lia. lia.
  - rewrite pos_iter_xO. f_equal. f_equal. lia.
Qed.

(** The double of a positive integer below [2 ** 53] is exact. *)
Lemma float_of_Z_pos n :
  Zpos (digits2_pos n) <= 53 ->
  float_of_Z (Zpos n)
  = S754_finite false (normal_mantissa n) (Zpos (digits2_pos n) - 53).
Proof.
  intros Hd. unfold float_of_Z, binary_normalize, binary_round.
  rewrite fexp_normal by lia.
  unfold shl_align, normal_mantissa.
  replace (Zpos (digits2_pos n) + 0 - 53 - 0) with (Zpos (digits2_pos n) - 53) by lia.
  destruct (Zpos (digits2_pos n) - 53) as [|p|p] eqn:E; try lia.
  - rewrite round_aux_canonical by lia. reflexivity.
  - rewrite round_aux_canonical.
    + f_equal. lia.
    + rewrite digits2_pos_shift. lia.
    + lia.
Qed.

Lemma ceil_div_spec a b :
  0 < b -> (ceil_div a b - 1) * b < a <= ceil_div a b * b.
Proof.
  intros Hb. unfold ceil_div.
  pose proof (Z.div_mod (- a) b ltac:(lia)) as Hdm.
  pose proof (Z.mod_pos_bound (- a) b Hb) as Hr.
  nia.
Qed.

Lemma ceil_div_unique a b c :
  0 < b -> (c - 1) * b < a <= c * b -> ceil_div a b = c.
Proof.
  intros Hb Hc. pose proof (ceil_div_spec a b Hb) as Hs. nia.
Qed.

Lemma ceil_div_mul c b : 0 < b -> ceil_div (c * b) b = c.
Proof. intros Hb. apply ceil_div_unique; [assumption|nia]. Qed.

Lemma f1024_pow2 : f1024 = pow2 10.
Proof. reflexivity. Qed.

Lemma pow2_digits : digits2_pos 4503599627370496 = 53%positive.
Proof. reflexivity. Qed.

(** [math.ceil] of a normal double with a fractional part. *)
Lemma float_ceil_normal M E :
  digits2_pos M = 53%positive -> E < 0 ->
  exists c, ceil_div (Zpos M) (2 ^ (- E)) = Zpos c /\
    Zpos (digits2_pos c) <= 53 /\
    float_ceil (S754_finite false M E)
    = S754_finite false (normal_mantissa c) (Zpos (digits2_pos c) - 53).
Proof.
  intros HM HE. destruct E as [|p|p]; try lia.
  assert (Hpow : 0 < 2 ^ Zpos p) by (apply Z.pow_pos_nonneg; lia).
  pose proof (ceil_div_spec (Zpos M) (2 ^ Zpos p) Hpow) as Hs.
  change (- Zneg p) with (Zpos p).
  assert (Hpow1 : 2 <= 2 ^ Zpos p).
  { change 2 with (2 ^ 1) at 1. apply Z.pow_le_mono_r; lia. }
  destruct (ceil_div (Zpos M) (2 ^ Zpos p)) as [|c|c] eqn:Hc; try nia.
  exists c. split; [reflexivity|].
  assert (Hd : Zpos (digits2_pos c) <= 53).
  { apply digits2_pos_le; [lia|].
    pose proof (digits2_pos_bounds M) as [_ HMhi]. rewrite HM in HMhi. nia. }
  split; [exact Hd|].
  unfold float_ceil.
  replace (ceilZ false M (Zneg p)) with (Zpos c)
    by (rewrite <- Hc; reflexivity).
  apply float_of_Z_pos. exact Hd.
Qed.

Lemma truncZ_normal c k :
  Zpos (digits2_pos c) <= 53 -> -60 <= k <= 60 ->
  truncZ false (normal_mantissa c) (Zpos (digits2_pos c) - 53 + k) = scale2 k (Zpos c).
Proof.
  intros Hd Hk. unfold truncZ, scale2.
  pose proof (normal_mantissa_value c Hd) as Hv.
  set (d := Zpos (digits2_pos c)) in *.
  assert (Hd1 : 1 <= d) by (unfold d; lia).
  destruct (d - 53 + k) as [|q|q] eqn:Eq; simpl cond_Zopp.
  - rewrite Hv. destruct (Z.ltb_spec k 0); [lia|].
    replace k with (53 - d) by lia. lia.
  - rewrite Hv. destruct (Z.ltb_spec k 0); [lia|].
    rewrite <- Z.mul_assoc, <- Z.pow_add_r by lia. f_equal. f_equal. lia.
  - rewrite Hv. destruct (Z.ltb_spec k 0).
    + replace (2 ^ Zpos q) with (2 ^ (- k) * 2 ^ (53 - d))
        by (rewrite <- Z.pow_add_r by lia; f_equal; lia).
      rewrite Z.div_mul_cancel_r; [reflexivity| |];
        apply Z.pow_nonzero; lia.
    + replace (2 ^ (53 - d)) with (2 ^ k * 2 ^ Zpos q)
        by (rewrite <- Z.pow_add_r by lia; f_equal; lia).
      rewrite Z.mul_assoc, Z.div_mul; [reflexivity|]. apply Z.pow_nonzero; lia.
Qed.

Lemma mul_floats a b : Py.mul (PFloat a) (PFloat b) = Ok (PFloat (fmul a b)).
Proof. reflexivity. Qed.

Lemma div_floats a b :
  is_zero b = false -> Py.div (PFloat a) (PFloat b) = Ok (PFloat (fdiv a b)).
Proof. intros H. unfold Py.div. simpl. rewrite H. reflexivity. Qed.

Lemma div_float_1024 a : Py.div (PFloat a) (PInt 1024) = Ok (PFloat (fdiv a (pow2 10))).
Proof. reflexivity. Qed.

(** [align] with rounding up, on a normal double and an extent size that
    is a power of two: the result is the ceiling of the quotient, scaled
    back and truncated. *)
Lemma align_normal k M E :
  digits2_pos M = 53%positive -> -10 <= k <= 20 -> -1000 <= E <= -12 ->
  align (PFloat (pow2 k)) (Some (PFloat (S754_finite false M E))) true
  = Ok (PInt (scale2 k (ceil_div (Zpos M) (2 ^ (k - E))))).
Proof.
  intros HM Hk HE. unfold align, numeric_type.
  rewrite f1024_pow2, !mul_floats.
  rewrite (fmul_pow2 false M E 10) by (try assumption; lia).
  unfold pow2 at 1. rewrite (fmul_pow2 false _ (k - 52) 10) by (try reflexivity; lia).
  change (S754_finite false 4503599627370496 (k - 52 + 10)) with
    (S754_finite false 4503599627370496 (k - 52 + 10)).
  replace (k - 52 + 10) with (k + 10 - 52) by lia.
  fold (pow2 (k + 10)).
  cbn [res_bind].
  rewrite div_floats by reflexivity. cbn [res_bind].
  rewrite (fdiv_pow2 false M (E + 10) (k + 10)) by (try assumption; lia).
  unfold math_ceil. cbn [to_float]. cbn [res_bind].
  destruct (float_ceil_normal M (E + 10 - (k + 10)) HM ltac:(lia)) as (c & Hc & Hd & Hceil).
  rewrite Hceil. rewrite mul_floats.
  rewrite (fmul_pow2 false _ _ (k + 10))
    by (try (apply normal_mantissa_digits; assumption); lia).
  cbn [res_bind]. rewrite div_float_1024. cbn [res_bind].
  rewrite (fdiv_pow2 false _ _ 10)
    by (try (apply normal_mantissa_digits; assumption); lia).
  cbn [Py.long]. cbn [res_bind].
  replace (Zpos (digits2_pos c) - 53 + (k + 10) - 10) with (Zpos (digits2_pos c) - 53 + k) by lia.
  rewrite truncZ_normal by (try assumption; lia).
  replace (- (E + 10 - (k + 10))) with (k - E) in Hc by lia.
  rewrite <- Hc. reflexivity.
Qed.

Lemma ceil_div_cancel a b c : 0 < c -> ceil_div (a * c) (b * c) = ceil_div a b.
Proof.
  intros Hc. unfold ceil_div. rewrite <- Z.mul_opp_l.
  destruct (Z.eq_dec b 0) as [->|Hb].
  - simpl. rewrite !Z.div_0_r. reflexivity.
  - rewrite Z.div_mul_cancel_r by lia. reflexivity.
Qed.

Lemma align_int_as_float pe n r :
  Zpos (digits2_pos n) <= 53 ->
  align pe (Some (PInt (Zpos n))) r
  = align pe (Some (PFloat (S754_finite false (normal_mantissa n)
                              (Zpos (digits2_pos n) - 53)))) r.
Proof.
  intros Hd. unfold align, numeric_type.
  assert (Hm : forall f, Py.mul (PInt (Zpos n)) (PFloat f)
               = Py.mul (PFloat (S754_finite false (normal_mantissa n)
                                   (Zpos (digits2_pos n) - 53))) (PFloat f)).
  { intros f. unfold Py.mul, arith, to_float. rewrite (float_of_Z_pos n Hd). reflexivity. }
  rewrite Hm. reflexivity.
Qed.

(** [align] with rounding up on a positive integer below [2 ** 41]. *)
Lemma align_int k n :
  0 < n < 2 ^ 41 -> -10 <= k <= 20 ->
  align (PFloat (pow2 k)) (Some (PInt n)) true
  = Ok (PInt (if k <? 0 then n else ceil_div n (2 ^ k) * 2 ^ k)).
Proof.
  intros Hn Hk. destruct n as [|p|p]; try lia.
  assert (Hd : Zpos (digits2_pos p) <= 41) by (apply digits2_pos_le; lia).
  rewrite align_int_as_float by lia.
  rewrite align_normal by (try (apply normal_mantissa_digits; lia); lia).
  rewrite normal_mantissa_value by lia.
  set (d := Zpos (digits2_pos p)) in *.
  do 2 f_equal. unfold scale2.
  destruct (Z.ltb_spec k 0) as [Hneg|Hpos].
  - replace (2 ^ (53 - d)) with (2 ^ (- k) * 2 ^ (k - (d - 53)))
      by (rewrite <- Z.pow_add_r by lia; f_equal; lia).
    rewrite Z.mul_assoc, ceil_div_mul by (apply Z.pow_pos_nonneg; lia).
    apply Z.div_mul. apply Z.pow_nonzero; lia.
  - replace (2 ^ (k - (d - 53))) with (2 ^ k * 2 ^ (53 - d))
      by (rewrite <- Z.pow_add_r by lia; f_equal; lia).
    rewrite ceil_div_cancel by (apply Z.pow_pos_nonneg; lia). reflexivity.
Qed.

Lemma align_zero k :
  -10 <= k <= 20 -> align (PFloat (pow2 k)) (Some (PInt 0)) true = Ok (PInt 0).
Proof.
  intros Hk. unfold align, numeric_type.
  change (Py.mul (PInt 0) (PFloat f1024)) with (Ok (PFloat (S754_zero false))).
  rewrite f1024_pow2, mul_floats.
  unfold pow2 at 1. rewrite (fmul_pow2 false _ (k - 52) 10) by (try reflexivity; lia).
  reflexivity.
Qed.

(** *** Rounding to nearest, ties to even, of mantissas of 53 and 54 bits *)

Lemma digits2_pos_unique n d :
  2 ^ (d - 1) <= Zpos n < 2 ^ d -> Zpos (digits2_pos n) = d.
Proof.
  intros [Hlo Hhi].
  pose proof (digits2_pos_bounds n) as [Blo Bhi].
  assert (Hd : 0 < d).
  { destruct (Z.lt_trichotomy d 0) as [H|[->|H]]; [|simpl in Hhi; lia|exact H].
    rewrite Z.pow_neg_r in Hhi by lia. lia. }
  destruct (Z.lt_trichotomy (Zpos (digits2_pos n)) d) as [H|[H|H]]; [|exact H|].
  - assert (2 ^ Zpos (digits2_pos n) <= 2 ^ (d - 1)) by (apply Z.pow_le_mono_r; lia). lia.
  - assert (2 ^ d <= 2 ^ (Zpos (digits2_pos n) - 1)) by (apply Z.pow_le_mono_r; lia). lia.
Qed.

Lemma round_nearest_even_up mx l :
  round_nearest_even mx l = if round_up mx l then mx + 1 else mx.
Proof. destruct l as [|[| |]]; simpl; try reflexivity. destruct (Z.even mx); reflexivity. Qed.

Lemma loc_of_record m l : loc_of_shr_record (shr_record_of_loc m l) = l.
Proof. destruct l as [|[| |]]; reflexivity. Qed.

Lemma shr_m_of_record m l : shr_m (shr_record_of_loc m l) = m.
Proof. destruct l as [|[| |]]; reflexivity. Qed.

(** Rounding a mantissa of 53 bits: it stays, or goes up by one. *)
Lemma round_aux_53 Q E l :
  digits2_pos Q = 53%positive -> -1074 <= E <= 970 ->
  binary_round_aux prec emax false (Zpos Q) E l
  = if round_up (Zpos Q) l then
      if Zpos Q + 1 =? 2 ^ 53 then S754_finite false 4503599627370496 (E + 1)
      else S754_finite false (Pos.succ Q) E
    else S754_finite false Q E.
Proof.
  intros HQ HE.
  unfold binary_round_aux. unfold shr_fexp at 1. unfold Zdigits2. rewrite HQ.
  rewrite fexp_normal by lia.
  replace (53 + E - 53 - E) with 0 by lia. unfold shr at 1.
  rewrite loc_of_record, shr_m_of_record, round_nearest_even_up.
  destruct (round_up (Zpos Q) l).
  - pose proof (digits2_pos_bounds Q) as HB. rewrite HQ in HB.
    change (2 ^ (53 - 1)) with 4503599627370496 in HB.
    change (2 ^ 53) with 9007199254740992 in *.
    destruct (Z.eqb_spec (Zpos Q + 1) 9007199254740992) as [Heq|Hne].
    + rewrite Heq. unfold shr_fexp. change (Zdigits2 9007199254740992) with 54.
      rewrite fexp_normal by lia. replace (54 + E - 53 - E) with 1 by lia.
      simpl. unfold emax, prec. destruct (Z.leb_spec (E + 1) (1024 - 53)); [reflexivity|lia].
    + replace (Zpos Q + 1) with (Zpos (Pos.succ Q)) by lia.
      assert (Hd : Zpos (digits2_pos (Pos.succ Q)) = 53)
        by (apply digits2_pos_unique; change (2 ^ (53 - 1)) with 4503599627370496;
            change (2 ^ 53) with 9007199254740992; lia).
      unfold shr_fexp. unfold Zdigits2. rewrite Hd.
      rewrite fexp_normal by lia. replace (53 + E - 53 - E) with 0 by lia.
      simpl. unfold emax, prec. destruct (Z.leb_spec E (1024 - 53)); [reflexivity|lia].
  - unfold shr_fexp. unfold Zdigits2. rewrite HQ.
    rewrite fexp_normal by lia. replace (53 + E - 53 - E) with 0 by lia.
    simpl. unfold emax, prec. destruct (Z.leb_spec E (1024 - 53)); [reflexivity|lia].
Qed.

(** Rounding a mantissa of 54 bits: the last bit is shifted out first. *)
Lemma round_aux_54 p (b : bool) E l :
  digits2_pos p = 53%positive -> -1075 <= E <= 969 ->
  binary_round_aux prec emax false (Zpos (if b then p~1 else p~0)) E l
  = binary_round_aux prec emax false (Zpos p) (E + 1) (shifted_loc b l).
Proof.
  intros Hp HE.
  unfold binary_round_aux. unfold shr_fexp at 1 3. unfold Zdigits2.
  assert (HQ : digits2_pos (if b then p~1 else p~0) = 54%positive)
    by (destruct b; simpl; rewrite Hp; reflexivity).
  rewrite HQ, Hp. rewrite !fexp_normal by lia.
  replace (54 + E - 53 - E) with 1 by lia.
  replace (53 + (E + 1) - 53 - (E + 1)) with 0 by lia.
  unfold shr at 1 2. unfold iter_pos.
  destruct b, l as [|[| |]]; reflexivity.
Qed.

Lemma new_location_exact B r : new_location B r = loc_Exact <-> r = 0.
Proof.
  unfold new_location, new_location_even, new_location_odd.
  destruct (Z.even B); destruct (Z.eqb_spec r 0); split; intros H;
    try reflexivity; try assumption; try discriminate; try contradiction.
Qed.

Lemma div_eucl_div_mod a b : Z.div_eucl a b = (a / b, a mod b).
Proof. unfold Z.div, Z.modulo. destruct (Z.div_eucl a b). reflexivity. Qed.

Lemma normal_mantissa_53 M : digits2_pos M = 53%positive -> normal_mantissa M = M.
Proof. intros H. unfold normal_mantissa. rewrite H. reflexivity. Qed.

(** [math.ceil] of a double with a mantissa of 53 bits and an exponent
    that is not positive. *)
Lemma ceil_of_float M E C :
  digits2_pos M = 53%positive -> E <= 0 ->
  (C - 1) * 2 ^ (- E) < Zpos M <= C * 2 ^ (- E) ->
  float_ceil (S754_finite false M E) = float_of_Z C.
Proof.
  intros HM HE HC. destruct E as [|p|p]; [| lia |].
  - change (2 ^ (- 0)) with 1 in HC. assert (C = Zpos M) by lia. subst C.
    rewrite float_of_Z_pos by (rewrite HM; lia).
    rewrite (normal_mantissa_53 M HM), HM. reflexivity.
  - unfold float_ceil, float_of_Z. f_equal.
    unfold ceilZ, floorZ. simpl negb. simpl cond_Zopp.
    change (- (Zneg M / 2 ^ Zpos p)) with (ceil_div (Zpos M) (2 ^ Zpos p)).
    apply ceil_div_unique; [apply Z.pow_pos_nonneg; lia|].
    exact HC.
Qed.

(** *** The quotient [q] of [a * J] by [m], against the ceiling [C] of [a / m] *)

Lemma quotient_above (a m J q r C : Z) (Hm : 0 < m) (HJ : m < J) (Hdiv : a * J = m * q + r)
    (Hr : 0 <= r < m) (HC : (C - 1) * m < a <= C * m) :
  (C - 1) * J < q.
Proof.
  assert (H1 : (C - 1) * m + 1 <= a) by lia.
  assert (H2 : ((C - 1) * m + 1) * J <= a * J) by (apply Z.mul_le_mono_nonneg_r; lia).
  assert (H3 : m * ((C - 1) * J) < m * q) by lia.
  apply Z.mul_lt_mono_pos_l in H3; [exact H3|exact Hm].
Qed.

Lemma quotient_below (a m J q r C : Z) (Hm : 0 < m) (HJ : m < J) (Hdiv : a * J = m * q + r)
    (Hr : 0 <= r < m) (HC : (C - 1) * m < a <= C * m) :
  q <= C * J.
Proof.
  assert (H2 : a * J <= C * m * J) by (apply Z.mul_le_mono_nonneg_r; lia).
  assert (H3 : m * q <= m * (C * J)) by lia.
  apply Z.mul_le_mono_pos_l in H3; [exact H3|exact Hm].
Qed.

Lemma quotient_below_strict (a m J q r C : Z) (Hm : 0 < m) (HJ : m < J) (Hdiv : a * J = m * q + r)
    (Hr : 0 <= r < m) (HC : (C - 1) * m < a <= C * m) :
  r <> 0 -> q < C * J.
Proof.
  intros Hr0.
  assert (H2 : a * J <= C * m * J) by (apply Z.mul_le_mono_nonneg_r; lia).
  assert (H3 : m * q < m * (C * J)) by lia.
  apply Z.mul_lt_mono_pos_l in H3; [exact H3|exact Hm].
Qed.

Lemma quotient_not_next (a m J q r C : Z) (Hm : 0 < m) (HJ : m < J) (Hdiv : a * J = m * q + r)
    (Hr : 0 <= r < m) (HC : (C - 1) * m < a <= C * m) :
  r = 0 -> q <> (C - 1) * J + 1.
Proof.
  intros Hr0 Hq. subst r q.
  assert (H1 : (a - (C - 1) * m) * J = m) by lia.
  assert (H2 : 1 <= a - (C - 1) * m) by lia.
  assert (H3 : 1 * J <= (a - (C - 1) * m) * J) by (apply Z.mul_le_mono_nonneg_r; lia).
  lia.
Qed.



Lemma scale_above_divisor (a m J q r Pa Pm : Z) (HPa : 0 < Pa <= 4503599627370496) (HPm : 0 < Pm)
    (Ha : Pa <= a < 2 * Pa) (Hm : Pm <= m < 2 * Pm)
    (HJ : J * Pa = 9007199254740992 * Pm) (Hdiv : a * J = m * q + r) (Hr : 0 <= r < m) :
  m < J.
Proof.
  destruct (Z.lt_ge_cases m J) as [H|H]; [exact H|exfalso].
  assert (H1 : J * Pa <= m * Pa) by (apply Z.mul_le_mono_nonneg_r; lia).
  assert (H2 : m * Pa < 2 * Pm * Pa) by (apply Z.mul_lt_mono_pos_r; lia).
  assert (H3 : 2 * Pm * Pa <= 2 * Pm * 4503599627370496)
    by (apply Z.mul_le_mono_nonneg_l; lia).
  lia.
Qed.

Lemma scale_positive (a m J q r Pa Pm : Z) (HPa : 0 < Pa <= 4503599627370496) (HPm : 0 < Pm)
    (Ha : Pa <= a < 2 * Pa) (Hm : Pm <= m < 2 * Pm)
    (HJ : J * Pa = 9007199254740992 * Pm) (Hdiv : a * J = m * q + r) (Hr : 0 <= r < m) :
  0 < J.
Proof. pose proof (scale_above_divisor a m J q r Pa Pm HPa HPm Ha Hm HJ Hdiv Hr). lia. Qed.

Lemma quotient_53_or_54 (a m J q r Pa Pm : Z) (HPa : 0 < Pa <= 4503599627370496) (HPm : 0 < Pm)
    (Ha : Pa <= a < 2 * Pa) (Hm : Pm <= m < 2 * Pm)
    (HJ : J * Pa = 9007199254740992 * Pm) (Hdiv : a * J = m * q + r) (Hr : 0 <= r < m) :
  4503599627370496 <= q < 18014398509481984.
Proof.
  pose proof (scale_positive a m J q r Pa Pm HPa HPm Ha Hm HJ Hdiv Hr) as HJ0.
  assert (H1 : Pa * J <= a * J) by (apply Z.mul_le_mono_nonneg_r; lia).
  assert (H2 : a * J < 2 * Pa * J) by (apply Z.mul_lt_mono_pos_r; lia).
  assert (H3 : 4503599627370496 * (m + 1) <= 4503599627370496 * (2 * Pm))
    by (apply Z.mul_le_mono_nonneg_l; lia).
  assert (H4 : 18014398509481984 * Pm <= 18014398509481984 * m)
    by (apply Z.mul_le_mono_nonneg_l; lia).
  split.
  - assert (H5 : m * 4503599627370496 < m * (q + 1)) by lia.
    apply Z.mul_lt_mono_pos_l in H5; lia.
  - assert (H5 : m * q < m * 18014398509481984) by lia.
    apply Z.mul_lt_mono_pos_l in H5; lia.
Qed.

Lemma round_up_inexact mx l : round_up mx l = true -> l <> loc_Exact.
Proof. destruct l; [discriminate|intros _; discriminate]. Qed.

Lemma round_up_shifted_false mx l : round_up mx (shifted_loc false l) = false.
Proof. destruct l as [|[| |]]; reflexivity. Qed.

Lemma round_up_shifted_true mx l :
  round_up mx (shifted_loc true l) = false -> l = loc_Exact.
Proof. destruct l as [|[| |]]; simpl; try discriminate; reflexivity. Qed.

(** The quotient of a normal double by the double of a positive integer
    below [2 ** 53]: the quotient of the mantissa, shifted by the digits
    of the divisor, is rounded. *)
Lemma fdiv_normal_integer M e m :
  digits2_pos M = 53%positive -> Zpos (digits2_pos m) <= 53 -> -1000 <= e <= 900 ->
  let dm := Zpos (digits2_pos m) in
  fdiv (S754_finite false M e) (float_of_Z (Zpos m))
  = binary_round_aux prec emax false (Zpos M * 2 ^ dm / Zpos m) (e - dm)
      (new_location (Zpos (normal_mantissa m))
         ((Zpos M * 2 ^ dm) mod Zpos m * 2 ^ (53 - dm))).
Proof.
  intros HM Hm He dm.
  rewrite (float_of_Z_pos m Hm).
  unfold fdiv, SFdiv, SFdiv_core_binary. unfold Zdigits2.
  rewrite HM, (normal_mantissa_digits m Hm).
  pose proof (Pos2Z.is_pos (digits2_pos m)) as Hdm.
  fold dm in Hm, Hdm |- *.
  rewrite fexp_normal by lia.
  replace (Z.min (53 + e - (53 + (dm - 53)) - 53) (e - (dm - 53)))
    with (e - dm) by lia.
  replace (e - (dm - 53) - (e - dm)) with 53 by lia.
  cbv iota. rewrite Z.shiftl_mul_pow2 by lia.
  rewrite div_eucl_div_mod. cbv iota beta. simpl xorb.
  rewrite (normal_mantissa_value m Hm).
  fold dm.
  assert (Hc : 0 < 2 ^ (53 - dm)) by (apply Z.pow_pos_nonneg; lia).
  assert (HX : Zpos M * 2 ^ 53 = Zpos M * 2 ^ dm * 2 ^ (53 - dm)).
  { rewrite <- !Z.mul_assoc, <- !Z.pow_add_r by lia. f_equal. f_equal. lia. }
  rewrite HX.
  rewrite Z.div_mul_cancel_r by lia.
  rewrite Z.mul_mod_distr_r by lia.
  reflexivity.
Qed.

(** The ceiling of the quotient of a normal double [M * 2 ** e], [e <= 0],
    by the double of a positive integer [m] below [2 ** 53] is the double
    of the ceiling of the exact quotient: the rounding of the division
    does not reach the next integer. *)
Lemma ceil_fdiv_normal M e m :
  digits2_pos M = 53%positive -> -1000 <= e <= 0 -> Zpos m < 2 ^ 53 ->
  float_ceil (fdiv (S754_finite false M e) (float_of_Z (Zpos m)))
  = float_of_Z (ceil_div (Zpos M) (Zpos m * 2 ^ (- e))).
Proof.
  intros HM He Hm.
  assert (Hdm : Zpos (digits2_pos m) <= 53) by (apply digits2_pos_le; [lia|exact Hm]).
  rewrite (fdiv_normal_integer M e m HM Hdm) by lia. cbv zeta.
  pose proof (digits2_pos_bounds M) as [Alo Ahi]. rewrite HM in Alo, Ahi.
  change (2 ^ (53 - 1)) with 4503599627370496 in Alo.
  change (2 ^ 53) with 9007199254740992 in *.
  pose proof (digits2_pos_bounds m) as [Mlo Mhi].
  pose proof (Pos2Z.is_pos (digits2_pos m)) as Pdm.
  set (dm := Zpos (digits2_pos m)) in *.
  set (j := dm - e).
  assert (Hj : 1 <= j <= 1053) by (unfold j; lia).
  set (T := 2 ^ (- e)).
  assert (HT : 0 < T) by (apply Z.pow_pos_nonneg; lia).
  (* the powers of two at hand *)
  assert (HJT : 2 ^ j = 2 ^ dm * T).
  { unfold T, j. rewrite <- Z.pow_add_r by lia. reflexivity. }
  assert (HJ : 2 ^ dm * 4503599627370496 = 9007199254740992 * 2 ^ (dm - 1)).
  { assert (H2 : 2 ^ dm = 2 * 2 ^ (dm - 1))
      by (rewrite <- Z.pow_succ_r by lia; f_equal; lia).
    lia. }
  assert (HPm : 0 < 2 ^ (dm - 1)) by (apply Z.pow_pos_nonneg; lia).
  assert (Mhi' : Zpos m < 2 * 2 ^ (dm - 1)).
  { rewrite <- Z.pow_succ_r by lia. replace (Z.succ (dm - 1)) with dm by lia. exact Mhi. }
  assert (HJ1 : 2 ^ j = 2 * 2 ^ (j - 1)).
  { rewrite <- Z.pow_succ_r by lia. f_equal. lia. }
  assert (P1 : 0 < 2 ^ (j - 1)) by (apply Z.pow_pos_nonneg; lia).
  assert (P4 : 0 < 2 ^ (53 - dm)) by (apply Z.pow_pos_nonneg; lia).
  (* quotient and remainder *)
  pose proof (Z.div_mod (Zpos M * 2 ^ dm) (Zpos m) ltac:(lia)) as Hdiv.
  pose proof (Z.mod_pos_bound (Zpos M * 2 ^ dm) (Zpos m) ltac:(lia)) as Hr.
  set (q := Zpos M * 2 ^ dm / Zpos m) in *.
  set (r := (Zpos M * 2 ^ dm) mod Zpos m) in *.
  set (l := new_location _ _).
  assert (Hl : l = loc_Exact <-> r = 0).
  { unfold l. rewrite new_location_exact. split; [|intros ->; reflexivity].
    intros H0. apply Z.mul_eq_0 in H0. lia. }
  clearbody l.
  pose proof (quotient_53_or_54 (Zpos M) (Zpos m) (2 ^ dm) q r 4503599627370496
                (2 ^ (dm - 1)) ltac:(lia) HPm ltac:(lia) (conj Mlo Mhi') HJ Hdiv Hr) as Hq.
  (* the same division, scaled by [T] *)
  assert (HmT : 0 < Zpos m * T) by (apply Z.mul_pos_pos; lia).
  assert (HJm : Zpos m * T < 2 ^ j).
  { rewrite HJT. apply Z.mul_lt_mono_pos_r; [exact HT|exact Mhi]. }
  assert (HdivT : Zpos M * 2 ^ j = Zpos m * T * q + r * T).
  { rewrite HJT, Z.mul_assoc, Hdiv. ring. }
  assert (HrT : 0 <= r * T < Zpos m * T).
  { split; [apply Z.mul_nonneg_nonneg; lia|apply Z.mul_lt_mono_pos_r; lia]. }
  assert (HrT0 : r * T = 0 <-> r = 0).
  { split; [intros H0; apply Z.mul_eq_0 in H0; lia|intros ->; reflexivity]. }
  (* the ceiling *)
  pose proof (ceil_div_spec (Zpos M) (Zpos m * T) HmT) as HC.
  set (C := ceil_div (Zpos M) (Zpos m * T)) in *.
  pose proof (quotient_above (Zpos M) (Zpos m * T) (2 ^ j) q (r * T) C HmT HJm HdivT HrT HC)
    as Qlo.
  pose proof (quotient_below (Zpos M) (Zpos m * T) (2 ^ j) q (r * T) C HmT HJm HdivT HrT HC)
    as Qhi.
  pose proof (quotient_below_strict (Zpos M) (Zpos m * T) (2 ^ j) q (r * T) C HmT HJm HdivT
                HrT HC) as Qst.
  pose proof (quotient_not_next (Zpos M) (Zpos m * T) (2 ^ j) q (r * T) C HmT HJm HdivT
                HrT HC) as Qnn.
  rewrite HrT0 in Qst, Qnn.
  assert (HCa : C <= Zpos M).
  { destruct (Z.le_gt_cases C (Zpos M)) as [H|H]; [exact H|exfalso].
    assert ((C - 1) * 1 <= (C - 1) * (Zpos m * T)) by (apply Z.mul_le_mono_nonneg_l; lia).
    lia. }
  clear Hdiv HJ Alo Mlo Mhi Mhi' HPm P4 HC HdivT HrT HrT0 HJT HJm HmT.
  replace (e - dm) with (- j) by (unfold j; lia).
  clearbody j. clear He HT. clearbody T.
  destruct q as [|Q|Q]; [lia| |lia].
  destruct (Z.lt_ge_cases (Zpos Q) 9007199254740992) as [H53|H54].
  - (* a quotient of 53 bits *)
    assert (HQ : digits2_pos Q = 53%positive).
    { assert (Zpos (digits2_pos Q) = 53)
        by (apply digits2_pos_unique; change (2 ^ (53 - 1)) with 4503599627370496;
            change (2 ^ 53) with 9007199254740992; lia).
      lia. }
    rewrite (round_aux_53 Q (- j) l HQ) by lia.
    destruct (round_up (Zpos Q) l) eqn:Hup.
    + assert (Hr0 : r <> 0) by (intros E0; apply (round_up_inexact _ _ Hup); apply Hl; exact E0).
      specialize (Qst Hr0).
      change (2 ^ 53) with 9007199254740992.
      destruct (Z.eqb_spec (Zpos Q + 1) 9007199254740992) as [Hcarry|Hno].
      * apply ceil_of_float; [reflexivity|lia|].
        replace (- (- j + 1)) with (j - 1) by lia. rewrite HJ1 in Qlo, Qst. lia.
      * assert (HS : digits2_pos (Pos.succ Q) = 53%positive).
        { assert (Zpos (digits2_pos (Pos.succ Q)) = 53)
            by (apply digits2_pos_unique; change (2 ^ (53 - 1)) with 4503599627370496;
                change (2 ^ 53) with 9007199254740992; lia).
          lia. }
        apply ceil_of_float; [exact HS|lia|].
        replace (- - j) with j by lia. rewrite Pos2Z.inj_succ. lia.
    + apply ceil_of_float; [exact HQ|lia|].
      replace (- - j) with j by lia. lia.
  - (* a quotient of 54 bits *)
    assert (HQ : Zpos (digits2_pos Q) = 54)
      by (apply digits2_pos_unique; change (2 ^ (54 - 1)) with 9007199254740992;
          change (2 ^ 54) with 18014398509481984; lia).
    assert (Hsplit : exists p (b : bool), Q = (if b then p~1 else p~0)%positive /\
                                 digits2_pos p = 53%positive).
    { destruct Q as [p|p|]; [exists p, true|exists p, false|discriminate];
        (split; [reflexivity|]); simpl in HQ; lia. }
    destruct Hsplit as (p & b & -> & Hp).
    rewrite (round_aux_54 p b (- j) l Hp) by lia.
    rewrite (round_aux_53 p (- j + 1) _ Hp) by lia.
    assert (Hpq : Zpos (if b then p~1 else p~0) = 2 * Zpos p + (if b then 1 else 0))
      by (destruct b; lia).
    rewrite Hpq in *. clear Hpq.
    rewrite HJ1 in Qlo, Qhi, Qst, Qnn.
    destruct (round_up (Zpos p) (shifted_loc b l)) eqn:Hup.
    + assert (Hb : b = true)
        by (destruct b; [reflexivity|rewrite round_up_shifted_false in Hup; discriminate]).
      subst b.
      change (2 ^ 53) with 9007199254740992.
      destruct (Z.eqb_spec (Zpos p + 1) 9007199254740992) as [Hcarry|Hno].
      * assert (Hj2 : 2 <= j).
        { destruct (Z.eq_dec j 1) as [E1|]; [|lia]. exfalso.
          rewrite E1 in Qhi. change (2 ^ (1 - 1)) with 1 in Qhi. lia. }
        assert (HJ2 : 2 ^ (j - 1) = 2 * 2 ^ (j - 2)).
        { rewrite <- Z.pow_succ_r by lia. f_equal. lia. }
        apply ceil_of_float; [reflexivity|lia|].
        replace (- (- j + 1 + 1)) with (j - 2) by lia.
        rewrite HJ2 in Qlo, Qhi. lia.
      * assert (HS : digits2_pos (Pos.succ p) = 53%positive).
        { pose proof (digits2_pos_bounds p) as HB. rewrite Hp in HB.
          change (2 ^ (53 - 1)) with 4503599627370496 in HB.
          change (2 ^ 53) with 9007199254740992 in HB.
          assert (Zpos (digits2_pos (Pos.succ p)) = 53)
            by (apply digits2_pos_unique; change (2 ^ (53 - 1)) with 4503599627370496;
                change (2 ^ 53) with 9007199254740992; lia).
          lia. }
        apply ceil_of_float; [exact HS|lia|].
        replace (- (- j + 1)) with (j - 1) by lia. rewrite Pos2Z.inj_succ. lia.
    + apply ceil_of_float; [exact Hp|lia|].
      replace (- (- j + 1)) with (j - 1) by lia.
      destruct b.
      * apply round_up_shifted_true in Hup. apply Hl in Hup. specialize (Qnn Hup). lia.
      * lia.
Qed.

Lemma mul_by_float x f :
  Py.mul x (PFloat f) = (do a <- to_float x; Ok (PFloat (fmul a f)))%res.
Proof. destruct x; reflexivity. Qed.

(** The source follows the words of the specification step by step. *)
Lemma align_as_worded pe size roundup :
  align pe size roundup = align_in_words pe (numeric_type size) roundup.
Proof.
  unfold align, align_in_words. rewrite !mul_by_float.
  destruct (to_float (numeric_type size)) as [a|err]; cbn [res_bind]; [|reflexivity].
  destruct (to_float pe) as [b|err]; cbn [res_bind]; [|reflexivity].
  unfold Py.div. cbn [to_float res_bind].
  destruct (is_zero (fmul b f1024)); [reflexivity|].
  cbn [res_bind].
  destruct roundup; unfold math_ceil, math_floor; cbn [to_float res_bind];
    rewrite mul_by_float; cbn [to_float res_bind];
    change (float_of_Z 1024) with f1024; cbv iota;
    change (is_zero f1024) with false; cbv iota; cbn [res_bind]; reflexivity.
Qed.

Lemma pow_split a b : 0 <= a -> 0 <= b -> 2 ^ (a + b) = 2 ^ a * 2 ^ b.
Proof. intros. apply Z.pow_add_r; assumption. Qed.

(** The product of the doubles of two positive integers is exact when
    the product of the integers is below [2 ** 53]. *)
Lemma fmul_integers c m :
  Zpos (c * m) < 2 ^ 53 ->
  fmul (float_of_Z (Zpos c)) (float_of_Z (Zpos m)) = float_of_Z (Zpos (c * m)).
Proof.
  intros HP.
  assert (HdP : Zpos (digits2_pos (c * m)) <= 53) by (apply digits2_pos_le; [lia|exact HP]).
  assert (Hc : Zpos c < 2 ^ 53) by nia.
  assert (Hm : Zpos m < 2 ^ 53) by nia.
  assert (Hdc : Zpos (digits2_pos c) <= 53) by (apply digits2_pos_le; [lia|exact Hc]).
  assert (Hdm : Zpos (digits2_pos m) <= 53) by (apply digits2_pos_le; [lia|exact Hm]).
  rewrite (float_of_Z_pos c Hdc), (float_of_Z_pos m Hdm), (float_of_Z_pos (c * m) HdP).
  pose proof (digits2_pos_bounds c) as [Clo Chi].
  pose proof (digits2_pos_bounds m) as [Mlo Mhi].
  pose proof (digits2_pos_bounds (c * m)) as [Plo Phi].
  pose proof (normal_mantissa_value c Hdc) as Vc.
  pose proof (normal_mantissa_value m Hdm) as Vm.
  pose proof (normal_mantissa_value (c * m) HdP) as VP.
  pose proof (Pos2Z.is_pos (digits2_pos c)) as Pdc.
  pose proof (Pos2Z.is_pos (digits2_pos m)) as Pdm.
  set (dc := Zpos (digits2_pos c)) in *. set (dm := Zpos (digits2_pos m)) in *.
  set (dP := Zpos (digits2_pos (c * m))) in *.
  assert (HdP' : dc + dm - 1 <= dP).
  { destruct (Z.le_gt_cases (dc + dm - 1) dP) as [H|H]; [exact H|exfalso].
    assert (H1 : 2 ^ dP <= 2 ^ (dc - 1 + (dm - 1))) by (apply Z.pow_le_mono_r; lia).
    rewrite pow_split in H1 by lia.
    assert (H2 : 2 ^ (dc - 1) * 2 ^ (dm - 1) <= Zpos c * Zpos m)
      by (apply Z.mul_le_mono_nonneg; try assumption; apply Z.pow_nonneg; lia).
    rewrite Pos2Z.inj_mul in Phi. lia. }
  unfold fmul, SFmul. simpl xorb.
  assert (Hs : 0 < 53 + dP - dc - dm) by lia.
  destruct (53 + dP - dc - dm) as [|s|s] eqn:Es; try lia.
  assert (Hprod : (normal_mantissa c * normal_mantissa m)%positive
                  = Pos.iter xO (normal_mantissa (c * m)) s).
  { apply Pos2Z.inj. rewrite Pos2Z.inj_mul, pos_iter_xO, Vc, Vm, VP, Pos2Z.inj_mul.
    rewrite <- Es.
    assert (H3 : 2 ^ (53 - dc) * 2 ^ (53 - dm) = 2 ^ (53 - dP) * 2 ^ (53 + dP - dc - dm)).
    { rewrite <- !Z.pow_add_r by lia. f_equal. lia. }
    set (A := 2 ^ (53 - dc)) in *. set (B := 2 ^ (53 - dm)) in *.
    set (D := 2 ^ (53 - dP)) in *. set (F := 2 ^ (53 + dP - dc - dm)) in *.
    transitivity (Zpos c * Zpos m * (A * B)); [ring|]. rewrite H3. ring. }
  rewrite Hprod.
  rewrite round_aux_shift by (try (apply normal_mantissa_digits; exact HdP); lia).
  f_equal. lia.
Qed.


Lemma float_of_Z_not_zero m : Zpos m < 2 ^ 53 -> is_zero (float_of_Z (Zpos m)) = false.
Proof.
  intros Hm. rewrite float_of_Z_pos by (apply digits2_pos_le; [lia|exact Hm]). reflexivity.
Qed.

(** [align] with rounding up, when the extent is [m] KB and the size in
    KB is the normal double [M * 2 ** e]: the exact ceiling of the
    quotient, times [m], over 1024. *)
Lemma align_whole pe x M e m :
  Py.mul pe (PFloat f1024) = Ok (PFloat (float_of_Z (Zpos m))) ->
  Py.mul x (PFloat f1024) = Ok (PFloat (S754_finite false M e)) ->
  digits2_pos M = 53%positive -> -1000 <= e <= 0 ->
  ceil_div (Zpos M) (Zpos m * 2 ^ (- e)) * Zpos m < 2 ^ 53 ->
  align pe (Some x) true
  = Ok (PInt (ceil_div (Zpos M) (Zpos m * 2 ^ (- e)) * Zpos m / 1024)).
Proof.
  intros Hpe Hx HM He HC.
  assert (HT : 0 < 2 ^ (- e)) by (apply Z.pow_pos_nonneg; lia).
  assert (HmT : 0 < Zpos m * 2 ^ (- e)) by (apply Z.mul_pos_pos; lia).
  pose proof (ceil_div_spec (Zpos M) (Zpos m * 2 ^ (- e)) HmT) as Hs.
  set (C := ceil_div (Zpos M) (Zpos m * 2 ^ (- e))) in *.
  assert (HC1 : 1 <= C).
  { destruct (Z.le_gt_cases 1 C) as [H|H]; [exact H|exfalso].
    assert (C * (Zpos m * 2 ^ (- e)) <= 0 * (Zpos m * 2 ^ (- e)))
      by (apply Z.mul_le_mono_nonneg_r; lia).
    lia. }
  destruct C as [|c|c] eqn:EC; try lia.
  assert (Hm : Zpos m < 2 ^ 53).
  { assert (1 * Zpos m <= Zpos c * Zpos m) by (apply Z.mul_le_mono_nonneg_r; lia). lia. }
  unfold align, numeric_type. rewrite Hx, Hpe. cbn [res_bind].
  rewrite div_floats by (apply float_of_Z_not_zero; exact Hm).
  cbn [res_bind]. unfold math_ceil. cbn [to_float res_bind].
  rewrite (ceil_fdiv_normal M e m HM He Hm).
  fold C. rewrite EC. rewrite mul_floats. cbn [res_bind].
  rewrite (fmul_integers c m) by (rewrite Pos2Z.inj_mul; exact HC).
  rewrite div_float_1024. cbn [res_bind].
  assert (HdP : Zpos (digits2_pos (c * m)) <= 53)
    by (apply digits2_pos_le; [lia|rewrite Pos2Z.inj_mul; exact HC]).
  rewrite (float_of_Z_pos (c * m) HdP).
  pose proof (Pos2Z.is_pos (digits2_pos (c * m))) as Pd.
  rewrite (fdiv_pow2 false _ _ 10)
    by (try (apply normal_mantissa_digits; exact HdP); lia).
  cbn [Py.long res_bind].
  replace (Zpos (digits2_pos (c * m)) - 53 - 10)
    with (Zpos (digits2_pos (c * m)) - 53 + (- 10)) by lia.
  rewrite truncZ_normal by (try exact HdP; lia).
  unfold scale2. simpl Z.ltb. cbv iota. rewrite Pos2Z.inj_mul. reflexivity.
Qed.

(** Extent sizes that are a whole number of KB: the double [m / 1024.0],
    and an integer number of MB. *)
Lemma kib_extent m :
  1 <= m < 2 ^ 53 -> Py.mul (kib m) (PFloat f1024) = Ok (PFloat (float_of_Z m)).
Proof.
  intros Hm. destruct m as [|p|p]; try lia.
  assert (Hd : Zpos (digits2_pos p) <= 53) by (apply digits2_pos_le; lia).
  pose proof (Pos2Z.is_pos (digits2_pos p)) as Pd.
  unfold kib. rewrite mul_floats. rewrite (float_of_Z_pos p Hd), f1024_pow2.
  rewrite fdiv_pow2 by (try (apply normal_mantissa_digits; exact Hd); lia).
  rewrite fmul_pow2 by (try (apply normal_mantissa_digits; exact Hd); lia).
  do 3 f_equal. lia.
Qed.

Lemma int_times_1024 n :
  Zpos n * 1024 < 2 ^ 53 ->
  Py.mul (PInt (Zpos n)) (PFloat f1024)
  = Ok (PFloat (S754_finite false (normal_mantissa n) (Zpos (digits2_pos n) - 53 + 10))).
Proof.
  intros Hn.
  assert (Hd : Zpos (digits2_pos n) <= 53) by (apply digits2_pos_le; lia).
  pose proof (Pos2Z.is_pos (digits2_pos n)) as Pd.
  unfold Py.mul, arith, to_float. rewrite (float_of_Z_pos n Hd). cbn [res_bind].
  rewrite f1024_pow2.
  rewrite fmul_pow2 by (try (apply normal_mantissa_digits; exact Hd); lia).
  reflexivity.
Qed.

Lemma int_extent k :
  1 <= k -> 1024 * k < 2 ^ 53 ->
  Py.mul (PInt k) (PFloat f1024) = Ok (PFloat (float_of_Z (1024 * k))).
Proof.
  intros Hk Hb. destruct k as [|p|p]; try lia.
  rewrite int_times_1024 by lia.
  assert (Hd : Zpos (digits2_pos p) <= 43).
  { apply digits2_pos_le; [lia|]. change (2 ^ 53) with (1024 * 2 ^ 43) in Hb. lia. }
  change (1024 * Zpos p) with (Zpos (Pos.iter xO p 10)).
  rewrite float_of_Z_pos by (rewrite digits2_pos_shift; lia).
  rewrite digits2_pos_shift. do 3 f_equal; [|lia].
  unfold normal_mantissa. rewrite digits2_pos_shift.
  pose proof (Pos2Z.is_pos (digits2_pos p)) as Pd.
  destruct (Zpos (digits2_pos p) - 53) as [|a|a] eqn:Ea; try lia.
  destruct (Zpos (digits2_pos p + 10) - 53) as [|b|b] eqn:Eb; try lia.
  - apply Pos2Z.inj. rewrite pos_iter_xO. change (Zpos (Pos.iter xO p 10)) with (1024 * Zpos p).
    replace (Zpos a) with 10 by lia. lia.
  - apply Pos2Z.inj. rewrite !pos_iter_xO.
    change (Zpos (Pos.iter xO p 10)) with (1024 * Zpos p).
    replace (Zpos a) with (10 + Zpos b) by lia.
    rewrite Z.pow_add_r by lia. change (2 ^ 10) with 1024. lia.
Qed.

Lemma float_times_1024 M E :
  digits2_pos M = 53%positive -> -1000 <= E <= 900 ->
  Py.mul (PFloat (S754_finite false M E)) (PFloat f1024)
  = Ok (PFloat (S754_finite false M (E + 10))).
Proof.
  intros HM HE. rewrite mul_floats, f1024_pow2, fmul_pow2 by (try exact HM; lia).
  reflexivity.
Qed.

Lemma ceil_div_le a b c : 0 < b -> a <= c * b -> ceil_div a b <= c.
Proof.
  intros Hb Hc. pose proof (ceil_div_spec a b Hb) as Hs.
  destruct (Z.le_gt_cases (ceil_div a b) c) as [H|H]; [exact H|exfalso].
  assert (c * b <= (ceil_div a b - 1) * b) by (apply Z.mul_le_mono_nonneg_r; lia).
  lia.
Qed.

Lemma ceil_div_pos a b : 0 < b -> 0 < a -> 1 <= ceil_div a b.
Proof.
  intros Hb Ha. pose proof (ceil_div_spec a b Hb) as Hs.
  destruct (Z.le_gt_cases 1 (ceil_div a b)) as [H|H]; [exact H|exfalso].
  assert (ceil_div a b * b <= 0 * b) by (apply Z.mul_le_mono_nonneg_r; lia).
  lia.
Qed.

(** [align] with rounding up on a positive integer, the extent being
    [m] KB. *)
Lemma align_int_whole pe m n :
  1 <= m -> Py.mul pe (PFloat f1024) = Ok (PFloat (float_of_Z m)) ->
  0 < n -> 1024 * n < 2 ^ 53 -> ceil_div (1024 * n) m * m < 2 ^ 53 ->
  align pe (Some (PInt n)) true = Ok (PInt (ceil_div (1024 * n) m * m / 1024)).
Proof.
  intros Hm Hpe Hn Hb HC.
  destruct m as [|m|m]; try lia. destruct n as [|n|n]; try lia.
  assert (Hd : Zpos (digits2_pos n) <= 43).
  { apply digits2_pos_le; [lia|]. change (2 ^ 53) with (1024 * 2 ^ 43) in Hb. lia. }
  pose proof (Pos2Z.is_pos (digits2_pos n)) as Pd.
  set (d := Zpos (digits2_pos n)) in *.
  assert (HK : 0 < 2 ^ (43 - d)) by (apply Z.pow_pos_nonneg; lia).
  assert (Hceil : ceil_div (Zpos (normal_mantissa n)) (Zpos m * 2 ^ (- (d - 53 + 10)))
                  = ceil_div (1024 * Zpos n) (Zpos m)).
  { rewrite normal_mantissa_value by (fold d; lia). fold d.
    replace (- (d - 53 + 10)) with (43 - d) by lia.
    replace (2 ^ (53 - d)) with (1024 * 2 ^ (43 - d))
      by (change 1024 with (2 ^ 10); rewrite <- Z.pow_add_r by lia; f_equal; lia).
    replace (Zpos n * (1024 * 2 ^ (43 - d))) with (1024 * Zpos n * 2 ^ (43 - d)) by ring.
    apply ceil_div_cancel. exact HK. }
  rewrite <- Hceil in HC |- *.
  apply (align_whole pe (PInt (Zpos n)) (normal_mantissa n) (d - 53 + 10) m).
  - exact Hpe.
  - apply int_times_1024. lia.
  - apply normal_mantissa_digits. fold d. lia.
  - lia.
  - exact HC.
Qed.

Lemma align_zero_whole pe m :
  1 <= m < 2 ^ 53 -> Py.mul pe (PFloat f1024) = Ok (PFloat (float_of_Z m)) ->
  align pe (Some (PInt 0)) true = Ok (PInt 0).
Proof.
  intros Hm Hpe. destruct m as [|m|m]; try lia.
  unfold align, numeric_type. rewrite Hpe.
  change (Py.mul (PInt 0) (PFloat f1024)) with (Ok (PFloat (S754_zero false))).
  cbn [res_bind].
  rewrite div_floats by (apply float_of_Z_not_zero; lia). cbn [res_bind].
  rewrite float_of_Z_pos by (apply digits2_pos_le; lia).
  reflexivity.
Qed.

(** C8 (amended): [align] runs the steps the specification words, on
    every input.  When the extent size in KB, [peSize * 1024.0], is a
    whole number [m], and the size [x] is a positive integer or a positive
    normal double with [1024 * x + m <= 2 ** 53], the rounding of the
    division never reaches the next integer and the product is exact:
    [align] with rounding up gives the exact ceiling of [1024 * x / m],
    times [m], over 1024 and truncated; and [align] with rounding up
    leaves that result as it is. *)
Theorem align_roundup_idempotent :
  (forall pe size roundup,
     align pe size roundup = align_in_words pe (numeric_type size) roundup) /\
  (forall pe m x,
     1 <= m ->
     Py.mul pe (PFloat f1024) = Ok (PFloat (float_of_Z m)) ->
     fits m x ->
     let y := extents_above m x * m / 1024 in
     0 <= y /\
     align pe (Some x) true = Ok (PInt y) /\
     align pe (Some (PInt y)) true = Ok (PInt y)).
Proof.
  split; [exact align_as_worded|].
  intros pe m x Hm Hpe Hx.
  assert (Hagain : forall C, 1 <= C -> C * m < 2 ^ 53 ->
            0 <= C * m / 1024 /\
            align pe (Some (PInt (C * m / 1024))) true = Ok (PInt (C * m / 1024))).
  { intros C HC1 HCm.
    assert (HP : 0 <= C * m) by (apply Z.mul_nonneg_nonneg; lia).
    pose proof (Z.div_mod (C * m) 1024 ltac:(lia)) as Hdm.
    pose proof (Z.mod_pos_bound (C * m) 1024 ltac:(lia)) as Hr.
    set (y := C * m / 1024) in *.
    assert (Hy0 : 0 <= y) by (apply Z.div_pos; lia).
    split; [exact Hy0|].
    assert (Hmb : m < 2 ^ 53).
    { assert (1 * m <= C * m) by (apply Z.mul_le_mono_nonneg_r; lia). lia. }
    destruct (Z.eq_dec y 0) as [->|Hne]; [apply (align_zero_whole pe m); [lia|exact Hpe]|].
    pose proof (ceil_div_spec (1024 * y) m ltac:(lia)) as Hs.
    assert (Hle : ceil_div (1024 * y) m <= C) by (apply ceil_div_le; lia).
    assert (Hmono : ceil_div (1024 * y) m * m <= C * m)
      by (apply Z.mul_le_mono_nonneg_r; lia).
    rewrite (align_int_whole pe m y) by (try assumption; lia).
    do 2 f_equal.
    symmetry. apply (Z.div_unique _ _ _ (ceil_div (1024 * y) m * m - 1024 * y)); lia. }
  destruct x as [n|[ | | |[|] M E]]; simpl in Hx; try contradiction.
  - (* an integer *)
    destruct Hx as [Hn Hb]. cbv zeta. cbn [extents_above].
    pose proof (ceil_div_spec (1024 * n) m ltac:(lia)) as Hs.
    pose proof (ceil_div_pos (1024 * n) m ltac:(lia) ltac:(lia)) as HC1.
    set (C := ceil_div (1024 * n) m) in *.
    assert (HCm : C * m < 2 ^ 53) by lia.
    destruct (Hagain C HC1 HCm) as [Hy0 Hyy].
    split; [exact Hy0|]. split; [|exact Hyy].
    apply align_int_whole; try assumption; lia.
  - (* a normal double *)
    destruct Hx as (HM & HE & Hb). cbv zeta. cbn [extents_above].
    destruct (Z.leb_spec (E + 10) 0) as [_|]; [|lia].
    destruct m as [|m|m]; try lia.
    assert (HT : 0 < 2 ^ (- (E + 10))) by (apply Z.pow_pos_nonneg; lia).
    assert (HmT : 0 < Zpos m * 2 ^ (- (E + 10))) by (apply Z.mul_pos_pos; lia).
    pose proof (ceil_div_spec (Zpos M) (Zpos m * 2 ^ (- (E + 10))) HmT) as Hs.
    pose proof (ceil_div_pos (Zpos M) (Zpos m * 2 ^ (- (E + 10))) HmT ltac:(lia)) as HC1.
    set (C := ceil_div (Zpos M) (Zpos m * 2 ^ (- (E + 10)))) in *.
    assert (HCm : C * Zpos m < 2 ^ 53).
    { assert (H1 : C * Zpos m * 2 ^ (- (E + 10)) < 2 ^ 53 * 2 ^ (- (E + 10))).
      { rewrite <- Z.pow_add_r by lia.
        replace (53 + - (E + 10)) with (53 - (E + 10)) by lia.
        replace (C * Zpos m * 2 ^ (- (E + 10)))
          with ((C - 1) * (Zpos m * 2 ^ (- (E + 10))) + Zpos m * 2 ^ (- (E + 10))) by ring.
        lia. }
      apply Z.mul_lt_mono_pos_r in H1; [exact H1|exact HT]. }
    destruct (Hagain C HC1 HCm) as [Hy0 Hyy].
    split; [exact Hy0|]. split; [|exact Hyy].
    apply (align_whole pe _ M (E + 10) m); try assumption.
    + apply float_times_1024; [exact HM|lia].
    + lia.
Qed.

Lemma align_roundup_idempotent_witness :
  (let y := extents_above 4096 (PInt 5) * 4096 / 1024 in
   0 <= y /\
   align (PFloat f4) (Some (PInt 5)) true = Ok (PInt y) /\
   align (PFloat f4) (Some (PInt y)) true = Ok (PInt y)) /\
  (let x := PFloat (S754_finite false 5629499534213120 (-51)) in
   let y := extents_above 3000 x * 3000 / 1024 in
   0 <= y /\
   align (kib 3000) (Some x) true = Ok (PInt y) /\
   align (kib 3000) (Some (PInt y)) true = Ok (PInt y)).
Proof.
  split.
  - apply (proj2 align_roundup_idempotent (PFloat f4) 4096 (PInt 5)).
    + lia.
    + reflexivity.
    + simpl. lia.
  - apply (proj2 align_roundup_idempotent (kib 3000) 3000
             (PFloat (S754_finite false 5629499534213120 (-51)))).
    + lia.
    + reflexivity.
    + simpl. repeat split; lia.
Defined.

(** C8 (as stated, refuted): [align] with rounding up is not idempotent
    for all positive sizes.  With the extent size 0.19999999999999998 MB,
    a valid double, it gives 1 on the size 2 and 0 on the size 1.  With
    extent sizes that are whole numbers of KB it fails once
    [1024 * x + m] exceeds [2 ** 53]: with 3 MB at 9008517011947958,
    and with an extent of 751323565 KB at 8796092832562, which is below
    [2 ** 43] and less than one extent beyond the bound. *)
Lemma align_roundup_not_idempotent :
  (valid_binary prec emax (S754_finite false 7205759403792793 (-55)) = true /\
   exists y, align odd_extent (Some (PInt 2)) true = Ok (PInt y) /\
             align odd_extent (Some (PInt y)) true <> Ok (PInt y)) /\
  (Py.mul (PInt 3) (PFloat f1024) = Ok (PFloat (float_of_Z 3072)) /\
   exists y, align (PInt 3) (Some (PInt 9008517011947958)) true = Ok (PInt y) /\
             align (PInt 3) (Some (PInt y)) true <> Ok (PInt y)) /\
  (Py.mul (kib 751323565) (PFloat f1024) = Ok (PFloat (float_of_Z 751323565)) /\
   8796092832562 < 2 ^ 43 /\
   2 ^ 53 < 1024 * 8796092832562 + 751323565 < 2 ^ 53 + 751323565 /\
   exists y, align (kib 751323565) (Some (PInt 8796092832562)) true = Ok (PInt y) /\
             align (kib 751323565) (Some (PInt y)) true <> Ok (PInt y)).
Proof.
  split; [|split].
  - split; [reflexivity|].
    exists 1. split; [vm_compute; reflexivity|].
    vm_compute. discriminate.
  - split; [reflexivity|].
    exists 9008517011947960. split; [vm_compute; reflexivity|].
    vm_compute. discriminate.
  - split; [reflexivity|]. split; [reflexivity|]. split; [split; reflexivity|].
    exists 8796093489804. split; [vm_compute; reflexivity|].
    vm_compute. discriminate.
Qed.

End FloatFacts.

(** ** Setting up, and the rollback of a failed commit *)

Section Lifecycle.
Import Outcomes Members.

(** Every class tests the existence flag first. *)
Lemma setup_not_created (fuel i : nat) (orig : bool) (w : World) (d : Device)
    (n : string) :
  devs w !! i = Some d ->
  py_true (exists_ d) = false ->
  name_of (devs w) d = Some n ->
  setup (S fuel) i orig w = Throw (DeviceError "device has not been created" n) w.
Proof.
  intros Hd He Hn. cbn [setup]. unfold bind at 1. rewrite (get_Return _ _ _ Hd).
  assert (Hname : name i w = Return n w) by (apply (name_Return _ _ d); assumption).
  destruct (cls d);
    unfold StorageDevice_setup, LVMVolumeGroupDevice_setup, LVMLogicalVolumeDevice_setup;
    unfold bind at 1; rewrite (get_Return _ _ _ Hd), He;
    change (negb false) with true; cbv beta iota;
    unfold bind; rewrite Hname; reflexivity.
Qed.

(** X1: [setup] of a device that does not exist, of whichever class,
    raises DeviceError (device has not been created) with the name of
    the device, before anything else is done: the state is the one
    before the call. *)
Theorem setup_requires_exists (fuel i : nat) (orig : bool) (w : World) (d : Device)
    (n : string) :
  devs w !! i = Some d ->
  py_true (exists_ d) = false ->
  name_of (devs w) d = Some n ->
  setup (S fuel) i orig w = Throw (DeviceError "device has not been created" n) w.
Proof.
  intros Hd He Hn. exact (setup_not_created fuel i orig w d n Hd He Hn).
Qed.

Lemma setup_requires_exists_witness :
  setup 1 3 false pool_with_thin_volume
  = Throw (DeviceError "device has not been created" "vg-thin") pool_with_thin_volume.
Proof.
  apply (setup_requires_exists 0 3 false pool_with_thin_volume
           (set_size (PInt 500) (blank LVMThinLogicalVolumeDevice "thin" [2%nat] (Some false)))).
  - reflexivity.
  - reflexivity.
  - reflexivity.
Defined.

(** X2: whether [setup] returns or raises, every object of the graph
    keeps its class, name, parents, child count, existence flag, formats,
    target size, list of logical volumes and count of physical volumes. *)
Theorem setup_keeps_graph (fuel i : nat) (orig : bool) (w w' : World) (j : nat)
    (d : Device) :
  final (setup fuel i orig w) = Some w' ->
  devs w !! j = Some d ->
  exists d', devs w' !! j = Some d' /\
    cls d' = cls d /\ _name d' = _name d /\ parents d' = parents d /\
    kids d' = kids d /\ exists_ d' = exists_ d /\
    _format d' = _format d /\ originalFormat d' = originalFormat d /\
    _targetSize d' = _targetSize d /\ _lvs d' = _lvs d /\ pvCount d' = pvCount d.
Proof.
  intros Hrun Hd.
  assert (K : keeps same_but_probe w w').
  { pose proof (setup_keeps fuel i orig w) as H.
    destruct (setup fuel i orig w); simpl in Hrun; inversion Hrun; subst; exact H. }
  destruct (keeps_lookup _ _ _ _ _ K Hd) as (d' & Hd' & HP).
  exists d'. split; [exact Hd'|].
  unfold same_but_probe in HP. rewrite HP. destruct d; simpl. repeat split.
Qed.

Lemma setup_keeps_graph_witness :
  exists w' d',
    final (setup 4 2 false pool_with_thin_volume) = Some w' /\
    devs w' !! 2%nat = Some d' /\ kids d' = 1 /\ exists_ d' = Some true /\
    node_active d' = true.
Proof.
  assert (Hrun : exists w', final (setup 4 2 false pool_with_thin_volume) = Some w')
    by (eexists; vm_compute; reflexivity).
  destruct Hrun as [w' Hrun].
  destruct (setup_keeps_graph 4 2 false pool_with_thin_volume w' 2
              (set_size (PInt 1000) (set_kids 1
                 (blank LVMThinPoolDevice "pool" [1%nat] (Some true)))) Hrun)
    as (d' & Hd' & _ & _ & _ & Hk & He & _).
  - reflexivity.
  - exists w', d'. split; [exact Hrun|]. split; [exact Hd'|].
    split; [exact Hk|]. split; [exact He|].
    vm_compute in Hrun. inversion Hrun; subst w'. vm_compute in Hd'.
    inversion Hd'; subst d'. reflexivity.
Defined.

(** X3: when the commit of the disk label fails while an existing leaf
    partition with a sysfs path is destroyed, the partition is added back
    to the label: after the set-up of the parents the calls are the
    removal, the commit and the addition, in that order.  The device then
    takes the partition the label has at the path of the device, and its
    name is computed again: from the node name of that partition, or,
    when there is none, from [req_name].  DiskLabelCommitError is raised
    again, unless there is no partition at the path and the device has no
    [req_name], as a device built as existing: then AttributeError is
    raised in its place.  Nothing else changes; the existence flag is not
    touched. *)
Theorem partition_destroy_rolls_back (fuel i : nat) (w w1 : World) (d d1 : Device)
    (disk : nat) (p : string) :
  devs w !! i = Some d ->
  py_true (exists_ d) = true ->
  sysfsPath d <> "" ->
  kids d = 0 ->
  disk_of d = Some disk ->
  setupParents (setup fuel) i true w = Return tt w1 ->
  commit_ok w1 = false ->
  devs w1 !! i = Some d1 ->
  path_of (devs w1) d1 = Some p ->
  let calls := (trace w1 ++ [LabelRemovePartition disk (partedPartition d);
                             LabelCommit disk;
                             LabelAddPartition disk (partedPartition d)])%list in
  let found := partition_by_path w1 disk p in
  let after (d' : Device) := with_devs (<[i := d']> (devs w1)) (with_trace calls w1) in
  PartitionDevice_destroy fuel i w
  = match found, req_name d1 with
    | Some pp, _ =>
        Throw (DiskLabelCommitError "commit failed")
          (after (set_name (devicePathToName (pp_nodeName pp))
                    (set_partedPartition found d1)))
    | None, Some n =>
        Throw (DiskLabelCommitError "commit failed")
          (after (set_name n (set_partedPartition None d1)))
    | None, None =>
        Throw (AttributeError "'PartitionDevice' object has no attribute 'req_name'")
          (after (set_partedPartition None d1))
    end.
Proof.
  intros Hd He Hs Hk Hdisk Hsetup Hc Hd1 Hp calls found after.
  unfold PartitionDevice_destroy. unfold bind at 1. rewrite (get_Return _ _ _ Hd), He.
  change (negb true) with false. cbv beta iota.
  destruct (String.eqb_spec (sysfsPath d) ""); [contradiction|].
  unfold isleaf. rewrite Hk. change (negb (0 =? 0)) with false. cbv beta iota.
  unfold bind at 1. rewrite Hsetup.
  unfold the_disk. rewrite Hdisk. unfold bind at 1. unfold ret at 1.
  unfold bind at 1. unfold emit at 1.
  unfold bind at 1. unfold commit. unfold bind at 1. unfold emit at 1.
  cbn [commit_ok with_trace]. rewrite Hc.
  unfold bind at 1. unfold emit at 1.
  set (w2 := with_trace _ (with_trace _ (with_trace _ w1))).
  assert (Hw2 : w2 = with_trace calls w1).
  { unfold w2, calls, with_trace. simpl. rewrite <- !app_assoc. reflexivity. }
  clearbody w2. subst w2.
  assert (Hd2 : devs (with_trace calls w1) !! i = Some d1) by exact Hd1.
  unfold bind at 1.
  rewrite (path_Return i (with_trace calls w1) d1 p Hd2 Hp).
  unfold bind at 1. unfold getPartitionByPath. cbn [partition_by_path with_trace].
  fold found.
  unfold bind at 1. unfold _setPartedPartition. unfold bind at 1.
  rewrite (modify_Return i _ _ d1 Hd2).
  set (w3 := with_devs _ _).
  assert (Hd3 : devs w3 !! i = Some (set_partedPartition found d1))
    by (unfold w3; simpl; apply lookup_insert_eq).
  unfold updateName. unfold bind at 1. rewrite (get_Return _ _ _ Hd3).
  assert (Hins : forall d', with_devs (<[i := d']> (devs w3)) w3 = after d').
  { intros d'. unfold w3, after, with_devs, with_trace. simpl.
    rewrite insert_insert_eq. reflexivity. }
  assert (Hreq : req_name (set_partedPartition found d1) = req_name d1) by reflexivity.
  assert (Hpp : partedPartition (set_partedPartition found d1) = found) by reflexivity.
  rewrite Hpp, Hreq.
  destruct found as [pp|].
  - rewrite (modify_Return i _ _ _ Hd3), Hins. reflexivity.
  - destruct (req_name d1) as [n'|].
    + rewrite (modify_Return i _ _ _ Hd3), Hins. reflexivity.
    + reflexivity.
Qed.

Lemma partition_destroy_rolls_back_witness :
  (exists w' d',
     PartitionDevice_destroy 3 1 partition_found
     = Throw (DiskLabelCommitError "commit failed") w' /\
     devs w' !! 1%nat = Some d' /\ exists_ d' = Some true /\ _name d' = "sda1" /\
     length (trace w') = 3%nat) /\
  (exists w' d',
     PartitionDevice_destroy 3 1 partition_on_disk
     = Throw (AttributeError "'PartitionDevice' object has no attribute 'req_name'") w' /\
     devs w' !! 1%nat = Some d' /\ exists_ d' = Some true /\ partedPartition d' = None).
Proof.
  split.
  - assert (Hrun : exists w1, setupParents (setup 3) 1 true partition_found = Return tt w1)
      by (eexists; vm_compute; reflexivity).
    destruct Hrun as [w1 Hrun].
    assert (Hw1 : w1 = partition_found)
      by (vm_compute in Hrun; inversion Hrun; reflexivity).
    subst w1.
    assert (Hd : exists d, devs partition_found !! 1%nat = Some d)
      by (eexists; vm_compute; reflexivity).
    destruct Hd as [d Hd].
    pose proof (partition_destroy_rolls_back 3 1 partition_found partition_found d d 0
                  "/dev/sda1" Hd) as H.
    vm_compute in Hd. inversion Hd; subst d. clear Hd.
    specialize (H eq_refl ltac:(discriminate) eq_refl eq_refl Hrun eq_refl eq_refl eq_refl).
    cbv zeta in H.
    change (partition_by_path partition_found 0 "/dev/sda1") with (Some sda1_partition) in H.
    cbv beta iota in H.
    match type of H with _ = Throw _ ?x => exists x end.
    eexists. split; [exact H|].
    split; [vm_compute; reflexivity|]. repeat split.
  - assert (Hrun : exists w1, setupParents (setup 3) 1 true partition_on_disk = Return tt w1)
      by (eexists; vm_compute; reflexivity).
    destruct Hrun as [w1 Hrun].
    assert (Hw1 : w1 = partition_on_disk)
      by (vm_compute in Hrun; inversion Hrun; reflexivity).
    subst w1.
    assert (Hd : exists d, devs partition_on_disk !! 1%nat = Some d)
      by (eexists; vm_compute; reflexivity).
    destruct Hd as [d Hd].
    pose proof (partition_destroy_rolls_back 3 1 partition_on_disk partition_on_disk d d 0
                  "/dev/sda1" Hd) as H.
    vm_compute in Hd. inversion Hd; subst d. clear Hd.
    specialize (H eq_refl ltac:(discriminate) eq_refl eq_refl Hrun eq_refl eq_refl eq_refl).
    cbv zeta in H.
    change (partition_by_path partition_on_disk 0 "/dev/sda1") with (@None PartedPartition) in H.
    cbn [req_name] in H. cbv beta iota in H.
    match type of H with _ = Throw _ ?x => exists x end.
    eexists. split; [exact H|].
    split; [vm_compute; reflexivity|]. repeat split.
Defined.

End Lifecycle.

(** ** The size of a volume group, and reading a size twice *)

Section VolumeGroupSize.

Lemma align_returns_int pe size r v :
  align pe size r = Ok v -> exists z, v = PInt z.
Proof.
  unfold align.
  destruct (Py.mul (numeric_type size) (PFloat f1024)) as [a|]; [|discriminate].
  cbn [res_bind].
  destruct (Py.mul pe (PFloat f1024)) as [b|]; [|discriminate]. cbn [res_bind].
  destruct (Py.div a b) as [q|]; [|discriminate]. cbn [res_bind].
  destruct ((if r then math_ceil else math_floor) q) as [c|]; [|discriminate].
  cbn [res_bind].
  destruct (Py.mul c b) as [p|]; [|discriminate]. cbn [res_bind].
  destruct (Py.div p (PInt 1024)) as [x|]; [|discriminate]. cbn [res_bind].
  destruct (Py.long x) as [z|]; [|discriminate]. cbn [res_bind].
  intros H; inversion H. eauto.
Qed.

Lemma max0_int z : exists m, max0 (PInt z) = PInt m /\ 0 <= m.
Proof.
  unfold max0, Py.gt, Py.compare.
  destruct (Z.compare_spec z 0); eexists; split; try reflexivity; lia.
Qed.

Lemma vg_size_loop_nonnegative (rec : nat -> M num) pe pvs :
  forall z w v w', 0 <= z ->
    vg_size_loop rec pe pvs (PInt z) w = Return v w' ->
    exists n, v = PInt n /\ z <= n.
Proof.
  induction pvs as [|pv pvs IH]; intros z w v w' Hz Hrun; simpl in Hrun.
  - inversion Hrun. exists z. split; [reflexivity|lia].
  - apply bind_Return in Hrun. destruct Hrun as (s & w1 & _ & Hrun).
    apply bind_Return in Hrun. destruct Hrun as (pvd & w2 & _ & Hrun).
    apply bind_Return in Hrun. destruct Hrun as (fmt & w3 & _ & Hrun).
    apply bind_Return in Hrun. destruct Hrun as (usable & w4 & _ & Hrun).
    apply bind_Return in Hrun. destruct Hrun as (a & w5 & Ha & Hrun).
    apply bind_Return in Hrun. destruct Hrun as (size' & w6 & Hs & Hrun).
    destruct (align pe (Some usable) false) as [a'|] eqn:Hal; [|discriminate].
    simpl in Ha. inversion Ha; subst a' w5.
    destruct (align_returns_int _ _ _ _ Hal) as [az ->].
    destruct (max0_int az) as (m & Hm & Hm0). rewrite Hm in Hs.
    simpl in Hs. inversion Hs; subst size' w6.
    destruct (IH (z + m) _ _ _ ltac:(lia) Hrun) as (n & -> & Hn).
    exists n. split; [reflexivity|lia].
Qed.

(** X4: the size of a volume group, when the read returns, is an integer
    that is not negative, whatever the sizes of its physical volumes and
    the starts of their extents are: each summand is [max(0, ...)] of an
    aligned value. *)
Theorem vg_size_is_nonnegative (fuel i : nat) (w w' : World) (d : Device) (v : num) :
  devs w !! i = Some d ->
  cls d = LVMVolumeGroupDevice ->
  size_of fuel i w = Return v w' ->
  exists n, v = PInt n /\ 0 <= n.
Proof.
  intros Hd Hc Hrun. destruct fuel as [|fuel]; [discriminate|].
  cbn [size_of] in Hrun. unfold bind at 1 in Hrun.
  rewrite (get_Return _ _ _ Hd), Hc in Hrun.
  unfold LVMVolumeGroupDevice_size in Hrun. unfold bind at 1 in Hrun.
  rewrite (get_Return _ _ _ Hd) in Hrun.
  eapply vg_size_loop_nonnegative; [|exact Hrun]. lia.
Qed.

Lemma vg_size_is_nonnegative_witness :
  exists w', size_of 3 1 pool_with_thin_volume = Return (PInt 2000) w' /\
    exists n, PInt 2000 = PInt n /\ 0 <= n.
Proof.
  assert (Hrun : exists w', size_of 3 1 pool_with_thin_volume = Return (PInt 2000) w')
    by (eexists; vm_compute; reflexivity).
  destruct Hrun as [w' Hrun]. exists w'. split; [exact Hrun|].
  eapply (vg_size_is_nonnegative 3 1 pool_with_thin_volume w');
    [reflexivity|reflexivity|exact Hrun].
Defined.

End VolumeGroupSize.

Section SizeReadTwice.
Import Outcomes.

Lemma any_status_ext (f g : nat -> option bool) l :
  (forall x, f x = g x) -> any_status f l = any_status g l.
Proof. intros H. induction l as [|x l IH]; simpl; [reflexivity|]. rewrite H, IH. reflexivity. Qed.

Lemma all_status_ext (f g : nat -> option bool) l :
  (forall x, f x = g x) -> all_status f l = all_status g l.
Proof. intros H. induction l as [|x l IH]; simpl; [reflexivity|]. rewrite H, IH. reflexivity. Qed.

Lemma refresh_status_fields d :
  cls (refresh d) = cls d /\ exists_ (refresh d) = exists_ d /\
  node_active (refresh d) = node_active d /\ _lvs (refresh d) = _lvs d /\
  parents (refresh d) = parents d /\ complete (refresh d) = complete d.
Proof.
  unfold refresh. destruct (_partedDevice d); [destruct d; repeat split|].
  destruct (parted_probe d); destruct d; repeat split.
Qed.

Lemma status_of_refresh fuel m i d :
  m !! i = Some d ->
  forall j, status_of fuel (<[i := refresh d]> m) j = status_of fuel m j.
Proof.
  intros Hd. induction fuel as [|fuel IH]; intros j; simpl; [reflexivity|].
  destruct (refresh_status_fields d) as (Hc & He & Hn & Hl & Hp & Hco).
  destruct (decide (i = j)) as [<-|Hne].
  - rewrite lookup_insert_eq, Hd, Hc, He, Hn, Hl, Hp, Hco.
    rewrite (any_status_ext _ _ _ IH), (all_status_ext _ _ _ IH). reflexivity.
  - rewrite lookup_insert_ne by exact Hne.
    destruct (m !! j) as [dj|]; [|reflexivity].
    rewrite (any_status_ext _ _ _ IH), (all_status_ext _ _ _ IH). reflexivity.
Qed.

(** The value of a read is what the fields stored after it report. *)
Lemma getSize_value fuel i w v w1 :
  StorageDevice_getSize fuel i w = Return v w1 ->
  exists d1, devs w1 !! i = Some d1 /\ v = reported_size d1.
Proof.
  unfold StorageDevice_getSize, mediaPresent. intros H.
  apply bind_Return in H. destruct H as (d & w0 & Hg & H).
  rewrite andb_false_r in H.
  apply bind_Return in H. destruct H as (pd & w2 & _ & H).
  apply bind_Return in H. destruct H as (u & w3 & _ & H).
  apply bind_Return in H. destruct H as (d' & w4 & Hg' & H).
  unfold get in Hg'. destruct (devs w3 !! i) as [x|] eqn:Hx; [|discriminate].
  inversion Hg'; subst x w4. exists d'. unfold reported_size.
  destruct (_ && _ && _); inversion H; subst; auto.
Qed.

(** A read on an object that holds its parted device. *)
Lemma getSize_cached fuel i w d s st :
  devs w !! i = Some d ->
  py_true (exists_ d) = true ->
  _partedDevice d = Some s ->
  status_of fuel (devs w) i = Some st ->
  StorageDevice_getSize fuel i w
  = Return (reported_size (set_size s d)) (with_devs (<[i := set_size s d]> (devs w)) w).
Proof.
  intros Hd He Hpd Hst.
  unfold StorageDevice_getSize, mediaPresent.
  unfold bind at 1. rewrite (get_Return _ _ _ Hd). rewrite andb_false_r, He. simpl andb.
  cbv iota.
  assert (Hp : partedDevice fuel i w = Return (Some s) w).
  { unfold partedDevice. unfold bind at 1. rewrite (get_Return _ _ _ Hd), He.
    unfold bind at 1. unfold status, query. rewrite Hst.
    rewrite Hpd. simpl is_some. rewrite andb_false_r.
    unfold bind, ret. rewrite (get_Return _ _ _ Hd), Hpd. reflexivity. }
  unfold bind at 1. rewrite Hp. simpl is_some. cbv iota.
  unfold bind at 1. unfold bind at 1. unfold currentSize at 1.
  unfold bind at 1. rewrite (get_Return _ _ _ Hd), He.
  unfold bind at 1. rewrite Hp. unfold ret at 1.
  rewrite (modify_Return _ _ _ _ Hd).
  unfold bind, get. simpl devs. rewrite lookup_insert_eq.
  unfold reported_size. destruct (_ && _ && _); reflexivity.
Qed.

Lemma getSize_status fuel i w v w1 d :
  devs w !! i = Some d ->
  py_true (exists_ d) = true ->
  StorageDevice_getSize fuel i w = Return v w1 ->
  is_Some (status_of fuel (devs w) i).
Proof.
  intros Hd He H. destruct (status_of fuel (devs w) i) eqn:Hs; [eauto|].
  exfalso. revert H. unfold StorageDevice_getSize, mediaPresent.
  unfold bind at 1. rewrite (get_Return _ _ _ Hd). rewrite andb_false_r, He.
  unfold bind at 1. unfold partedDevice. unfold bind at 1.
  rewrite (get_Return _ _ _ Hd), He. unfold bind at 1. unfold status, query.
  rewrite Hs. discriminate.
Qed.

(** X5: reading the size of a device through [StorageDevice._getSize] a
    second time, in the state the first read leaves, gives the same value
    and changes nothing more. *)
Theorem size_read_is_stable (fuel i : nat) (w w1 : World) (v : num) :
  StorageDevice_getSize fuel i w = Return v w1 ->
  StorageDevice_getSize fuel i w1 = Return v w1.
Proof.
  intros H. pose proof (StorageDevice_getSize_run fuel i w) as Hrun.
  rewrite H in Hrun. destruct Hrun as [->|(d & Hd & He & Hw)]; [exact H|].
  destruct (getSize_status _ _ _ _ _ _ Hd He H) as [st Hst].
  destruct (getSize_value _ _ _ _ _ H) as (d1 & Hd1 & Hv).
  assert (Hd1' : d1 = refresh d).
  { rewrite Hw in Hd1. simpl in Hd1. rewrite lookup_insert_eq in Hd1. congruence. }
  subst d1.
  assert (Hsame : forall s, _size (refresh d) = s ->
            with_devs (<[i := set_size s (refresh d)]> (devs w1)) w1 = w1).
  { intros s Hs. replace (set_size s (refresh d)) with (refresh d)
      by (rewrite <- Hs; destruct (refresh d); reflexivity).
    rewrite insert_id by exact Hd1. destruct w1; reflexivity. }
  assert (Hst1 : status_of fuel (devs w1) i = Some st).
  { rewrite Hw. simpl. rewrite status_of_refresh by exact Hd. exact Hst. }
  assert (He1 : py_true (exists_ (refresh d)) = true) by (rewrite refresh_exists; exact He).
  destruct (_partedDevice d) as [s|] eqn:Hpd.
  - assert (Hr : refresh d = set_size s d) by (unfold refresh; rewrite Hpd; reflexivity).
    rewrite (getSize_cached fuel i w1 (refresh d) s st Hd1 He1); [|rewrite Hr; destruct d; exact Hpd|exact Hst1].
    rewrite Hsame by (rewrite Hr; destruct d; reflexivity).
    rewrite Hv. f_equal. f_equal. rewrite Hr. destruct d; reflexivity.
  - destruct (parted_probe d) as [s|] eqn:Hpp.
    + assert (Hr : refresh d = set_size s (set_partedDevice (Some s) d))
        by (unfold refresh; rewrite Hpd, Hpp; reflexivity).
      rewrite (getSize_cached fuel i w1 (refresh d) s st Hd1 He1);
        [|rewrite Hr; destruct d; reflexivity|exact Hst1].
      rewrite Hsame by (rewrite Hr; destruct d; reflexivity).
      rewrite Hv. f_equal. f_equal. rewrite Hr. destruct d; reflexivity.
    + assert (Hr : refresh d = d) by (unfold refresh; rewrite Hpd, Hpp; reflexivity).
      assert (Hww : w1 = w).
      { rewrite Hw, Hr. rewrite insert_id by exact Hd. destruct w; reflexivity. }
      rewrite Hww. rewrite <- Hww at 2. exact H.
Qed.

Lemma size_read_is_stable_witness :
  exists w1,
    StorageDevice_getSize 3 2 active_volume = Return (PInt 1000) w1 /\
    (_size <$> devs w1 !! 2%nat) = Some (PInt 1000) /\
    StorageDevice_getSize 3 2 w1 = Return (PInt 1000) w1.
Proof.
  assert (Hrun : exists w1, StorageDevice_getSize 3 2 active_volume = Return (PInt 1000) w1)
    by (eexists; vm_compute; reflexivity).
  destruct Hrun as [w1 Hrun]. exists w1.
  split; [exact Hrun|]. split.
  - vm_compute in Hrun. inversion Hrun. vm_compute. reflexivity.
  - apply (size_read_is_stable 3 2 active_volume w1 (PInt 1000) Hrun).
Defined.

End SizeReadTwice.

(** ** Alignment to extents, both ways *)

Section AlignDown.

(** [math.floor] of a normal double with a fractional part. *)
Lemma float_floor_normal M E :
  digits2_pos M = 53%positive -> E < 0 ->
  (Zpos M / 2 ^ (- E) = 0 /\
   float_floor (S754_finite false M E) = S754_zero false) \/
  exists c, Zpos M / 2 ^ (- E) = Zpos c /\
    Zpos (digits2_pos c) <= 53 /\
    float_floor (S754_finite false M E)
    = S754_finite false (normal_mantissa c) (Zpos (digits2_pos c) - 53).
Proof.
  intros HM HE. destruct E as [|p|p]; try lia.
  assert (Hpow : 0 < 2 ^ Zpos p) by (apply Z.pow_pos_nonneg; lia).
  change (- Zneg p) with (Zpos p).
  assert (Hpow1 : 2 <= 2 ^ Zpos p).
  { change 2 with (2 ^ 1) at 1. apply Z.pow_le_mono_r; lia. }
  pose proof (Z.div_pos (Zpos M) (2 ^ Zpos p) ltac:(lia) Hpow) as Hq0.
  pose proof (Z.mul_div_le (Zpos M) (2 ^ Zpos p) Hpow) as Hq1.
  destruct (Zpos M / 2 ^ Zpos p) as [|c|c] eqn:Hc; try lia.
  - left. split; [reflexivity|]. unfold float_floor, floorZ. simpl cond_Zopp.
    rewrite Hc. reflexivity.
  - right. exists c. split; [reflexivity|].
    assert (Hd : Zpos (digits2_pos c) <= 53).
    { apply digits2_pos_le; [lia|].
      pose proof (digits2_pos_bounds M) as [_ HMhi]. rewrite HM in HMhi. nia. }
    split; [exact Hd|].
    unfold float_floor, floorZ. simpl cond_Zopp. rewrite Hc.
    apply float_of_Z_pos. exact Hd.
Qed.

(** [align] with rounding down, on a normal double and an extent size
    that is a power of two. *)
Lemma align_down_normal k M E :
  digits2_pos M = 53%positive -> -10 <= k <= 20 -> -1000 <= E <= -12 ->
  align (PFloat (pow2 k)) (Some (PFloat (S754_finite false M E))) false
  = Ok (PInt (scale2 k (Zpos M / 2 ^ (k - E)))).
Proof.
  intros HM Hk HE. unfold align, numeric_type.
  rewrite f1024_pow2, !mul_floats.
  rewrite (fmul_pow2 false M E 10) by (try assumption; lia).
  unfold pow2 at 1. rewrite (fmul_pow2 false _ (k - 52) 10) by (try reflexivity; lia).
  replace (k - 52 + 10) with (k + 10 - 52) by lia.
  fold (pow2 (k + 10)).
  cbn [res_bind].
  rewrite div_floats by reflexivity. cbn [res_bind].
  rewrite (fdiv_pow2 false M (E + 10) (k + 10)) by (try assumption; lia).
  unfold math_floor. cbn [to_float]. cbn [res_bind].
  destruct (float_floor_normal M (E + 10 - (k + 10)) HM ltac:(lia))
    as [[Hc Hfl]|(c & Hc & Hd & Hfl)];
    replace (- (E + 10 - (k + 10))) with (k - E) in Hc by lia;
    rewrite Hfl, Hc.
  - rewrite mul_floats. cbn [res_bind].
    assert (Hz : scale2 k 0 = 0).
    { unfold scale2. destruct (Z.ltb_spec k 0); [|reflexivity].
      apply Z.div_0_l. apply Z.pow_nonzero; lia. }
    rewrite Hz. reflexivity.
  - rewrite mul_floats.
    rewrite (fmul_pow2 false _ _ (k + 10))
      by (try (apply normal_mantissa_digits; assumption); lia).
    cbn [res_bind]. rewrite div_float_1024. cbn [res_bind].
    rewrite (fdiv_pow2 false _ _ 10)
      by (try (apply normal_mantissa_digits; assumption); lia).
    cbn [Py.long]. cbn [res_bind].
    replace (Zpos (digits2_pos c) - 53 + (k + 10) - 10) with (Zpos (digits2_pos c) - 53 + k) by lia.
    rewrite truncZ_normal by (try assumption; lia).
    reflexivity.
Qed.

(** [align] with rounding down on a positive integer below [2 ** 41]. *)
Lemma align_down_int k n :
  0 < n < 2 ^ 41 -> -10 <= k <= 20 ->
  align (PFloat (pow2 k)) (Some (PInt n)) false
  = Ok (PInt (if k <? 0 then n else n / 2 ^ k * 2 ^ k)).
Proof.
  intros Hn Hk. destruct n as [|p|p]; try lia.
  assert (Hd : Zpos (digits2_pos p) <= 41) by (apply digits2_pos_le; lia).
  rewrite align_int_as_float by lia.
  rewrite align_down_normal by (try (apply normal_mantissa_digits; lia); lia).
  rewrite normal_mantissa_value by lia.
  set (d := Zpos (digits2_pos p)) in *.
  do 2 f_equal. unfold scale2.
  destruct (Z.ltb_spec k 0) as [Hneg|Hpos].
  - replace (2 ^ (53 - d)) with (2 ^ (- k) * 2 ^ (k - (d - 53)))
      by (rewrite <- Z.pow_add_r by lia; f_equal; lia).
    rewrite Z.mul_assoc, Z.div_mul by (apply Z.pow_nonzero; lia).
    apply Z.div_mul. apply Z.pow_nonzero; lia.
  - replace (2 ^ (k - (d - 53))) with (2 ^ k * 2 ^ (53 - d))
      by (rewrite <- Z.pow_add_r by lia; f_equal; lia).
    rewrite Z.div_mul_cancel_r by (apply Z.pow_nonzero; lia). reflexivity.
Qed.

(** X6: for an extent size of [2 ^ k] MB, [0 <= k <= 20], and an integer
    size [n] with [0 < n < 2 ^ 41], [align] without and with [roundup]
    gives the multiples of the extent size next below and next above [n]:
    both are multiples, the first is at most [n] and the second at least
    [n], and each is less than one extent away from [n]. *)
Theorem align_brackets_size (k n : Z) :
  0 <= k <= 20 -> 0 < n < 2 ^ 41 ->
  exists lo hi,
    align (PFloat (pow2 k)) (Some (PInt n)) false = Ok (PInt lo) /\
    align (PFloat (pow2 k)) (Some (PInt n)) true = Ok (PInt hi) /\
    lo mod 2 ^ k = 0 /\ hi mod 2 ^ k = 0 /\
    n - 2 ^ k < lo <= n /\ n <= hi < n + 2 ^ k.
Proof.
  intros Hk Hn.
  assert (Hp : 0 < 2 ^ k) by (apply Z.pow_pos_nonneg; lia).
  exists (n / 2 ^ k * 2 ^ k), (ceil_div n (2 ^ k) * 2 ^ k).
  rewrite align_down_int, align_int by lia.
  destruct (Z.ltb_spec k 0); [lia|].
  split; [reflexivity|]. split; [reflexivity|].
  rewrite !Z.mod_mul by lia.
  split; [reflexivity|]. split; [reflexivity|].
  pose proof (ceil_div_spec n (2 ^ k) Hp) as Hs.
  pose proof (Z.mul_div_le n (2 ^ k) Hp) as Hlo.
  pose proof (Z.mul_succ_div_gt n (2 ^ k) Hp) as Hhi.
  lia.
Qed.

Lemma align_brackets_size_witness :
  exists lo hi,
    align (PFloat (pow2 2)) (Some (PInt 1001)) false = Ok (PInt lo) /\
    align (PFloat (pow2 2)) (Some (PInt 1001)) true = Ok (PInt hi) /\
    lo mod 2 ^ 2 = 0 /\ hi mod 2 ^ 2 = 0 /\
    1001 - 2 ^ 2 < lo <= 1001 /\ 1001 <= hi < 1001 + 2 ^ 2.
Proof.
  apply (align_brackets_size 2 1001); lia.
Defined.

End AlignDown.

(** ** MDRaidArrayDevice: the superblock and the smallest member *)

Section SuperBlock.
Import Py MDRaid MDRaidExamples.

Lemma gt_int_mono x y a : x <= y -> gt (PInt x) a = true -> gt (PInt y) a = true.
Proof.
  intros Hxy. unfold gt, compare.
  destruct a as [b|f].
  - destruct (Z.compare_spec x b); try discriminate.
    destruct (Z.compare_spec y b); try lia; reflexivity.
  - unfold cmp_float_Z, option_map.
    destruct f as [s|s| |s m e]; try discriminate.
    + destruct (Z.compare_spec 0 x); try discriminate;
        destruct (Z.compare_spec 0 y); try lia; reflexivity.
    + destruct s; auto.
    + assert (Hp : forall p, 0 < 2 ^ Zpos p) by (intros p; apply Z.pow_pos_nonneg; lia).
      destruct e as [|p|p].
      * destruct (Z.compare_spec (cond_Zopp s (Zpos m) * 2 ^ 0) x); try discriminate;
          destruct (Z.compare_spec (cond_Zopp s (Zpos m) * 2 ^ 0) y); try lia; reflexivity.
      * destruct (Z.compare_spec (cond_Zopp s (Zpos m) * 2 ^ Zpos p) x); try discriminate;
          destruct (Z.compare_spec (cond_Zopp s (Zpos m) * 2 ^ Zpos p) y); try lia;
          reflexivity.
      * specialize (Hp p).
        destruct (Z.compare_spec (cond_Zopp s (Zpos m)) (x * 2 ^ Zpos p)); try discriminate;
          destruct (Z.compare_spec (cond_Zopp s (Zpos m)) (y * 2 ^ Zpos p)); try nia;
          reflexivity.
Qed.

Lemma headroom_loop_negative a :
  gt (PInt 0) a = true ->
  forall fuel h, 0 <= h -> headroom_loop fuel h a = None.
Proof.
  intros Ha. induction fuel as [|fuel IH]; intros h Hh; simpl.
  - rewrite (gt_int_mono 0 _ a) by (try assumption; apply Z.shiftl_nonneg; lia).
    reflexivity.
  - rewrite (gt_int_mono 0 _ a) by (try assumption; apply Z.shiftl_nonneg; lia).
    apply IH. apply Z.shiftr_nonneg. lia.
Qed.

(** X7: with 1.1 or 1.2 metadata and a raw array size below zero, as for
    a RAID5 array built without a count of member devices, the loop of
    [superBlockSize] never ends: the headroom reaches 0, which still
    exceeds the array size, and stays there.  So neither [superBlockSize]
    nor [size] gives a value, with however much fuel. *)
Theorem size_of_negative_array_never_returns (d : MDRaidArrayDevice) (a : num) :
  existsb (String.eqb (metadataVersion d)) ["1.1"; "1.2"] = true ->
  rawArraySize d = Ok a ->
  gt (PInt 0) a = true ->
  _type d <> "mdbiosraidarray" ->
  forall fuel, superBlockSize fuel d = None /\ size fuel d = None.
Proof.
  intros Hv Hraw Ha Ht fuel.
  assert (Hsb : superBlockSize fuel d = None).
  { unfold superBlockSize. rewrite Hv, Hraw. simpl negb. cbv iota.
    rewrite headroom_loop_negative by (try assumption; lia). reflexivity. }
  split; [exact Hsb|].
  unfold size. unfold rawArraySize in Hraw.
  destruct (devices d) as [|m l] eqn:Hdev.
  - unfold smallestMember_size, smallestMember in Hraw. rewrite Hdev in Hraw.
    discriminate.
  - destruct (String.eqb_spec (_type d) "mdbiosraidarray"); [contradiction|].
    destruct (smallestMember_size d); [|discriminate].
    rewrite Hsb. reflexivity.
Qed.

Lemma size_of_negative_array_never_returns_witness :
  rawArraySize raid5_without_member_count = Ok (PInt (-100)) /\
  forall fuel, superBlockSize fuel raid5_without_member_count = None /\
               size fuel raid5_without_member_count = None.
Proof.
  split; [reflexivity|].
  apply (size_of_negative_array_never_returns raid5_without_member_count (PInt (-100))).
  - reflexivity.
  - reflexivity.
  - reflexivity.
  - discriminate.
Defined.

(** X8: with 1.1 or 1.2 metadata and a raw array size that is not below
    zero, [superBlockSize] returns, in at most eight halvings, the largest
    of 128, 64, ..., 1, 0 MB whose 1024-fold does not exceed the raw array
    size. *)
Theorem superBlockSize_of_array (fuel : nat) (d : MDRaidArrayDevice) (a : num) :
  existsb (String.eqb (metadataVersion d)) ["1.1"; "1.2"] = true ->
  rawArraySize d = Ok a ->
  gt (PInt 0) a = false ->
  (8 <= fuel)%nat ->
  exists h, superBlockSize fuel d = Some (Ok (PInt h)) /\
    In h [128; 64; 32; 16; 8; 4; 2; 1; 0] /\
    gt (PInt (h * 1024)) a = false /\
    forall h', In h' [128; 64; 32; 16; 8; 4; 2; 1; 0] -> h < h' ->
      gt (PInt (h' * 1024)) a = true.
Proof.
  intros Hv Hraw Ha Hfuel.
  unfold superBlockSize. rewrite Hv, Hraw. simpl negb. cbv iota.
  do 8 (destruct fuel as [|fuel]; [lia|]). clear Hfuel.
  cbn [headroom_loop].
  change (Z.shiftl 128 10) with (128 * 1024).
  change (Z.shiftr 128 1) with 64. change (Z.shiftl 64 10) with (64 * 1024).
  change (Z.shiftr 64 1) with 32. change (Z.shiftl 32 10) with (32 * 1024).
  change (Z.shiftr 32 1) with 16. change (Z.shiftl 16 10) with (16 * 1024).
  change (Z.shiftr 16 1) with 8. change (Z.shiftl 8 10) with (8 * 1024).
  change (Z.shiftr 8 1) with 4. change (Z.shiftl 4 10) with (4 * 1024).
  change (Z.shiftr 4 1) with 2. change (Z.shiftl 2 10) with (2 * 1024).
  change (Z.shiftr 2 1) with 1. change (Z.shiftl 1 10) with (1 * 1024).
  change (Z.shiftr 1 1) with 0.
  assert (H0 : headroom_loop fuel 0 a = Some 0).
  { destruct fuel; simpl; change (Z.shiftl 0 10) with 0; rewrite Ha; reflexivity. }
  change (0 * 1024) with 0 in *.
  destruct (gt (PInt (128 * 1024)) a) eqn:G128;
    [|exists 128; repeat split; simpl; auto 10;
      intros h' Hin Hlt; simpl in Hin; intuition (subst; try lia; auto)].
  destruct (gt (PInt (64 * 1024)) a) eqn:G64;
    [|exists 64; repeat split; simpl; auto 10;
      intros h' Hin Hlt; simpl in Hin; intuition (subst; try lia; auto)].
  destruct (gt (PInt (32 * 1024)) a) eqn:G32;
    [|exists 32; repeat split; simpl; auto 10;
      intros h' Hin Hlt; simpl in Hin; intuition (subst; try lia; auto)].
  destruct (gt (PInt (16 * 1024)) a) eqn:G16;
    [|exists 16; repeat split; simpl; auto 10;
      intros h' Hin Hlt; simpl in Hin; intuition (subst; try lia; auto)].
  destruct (gt (PInt (8 * 1024)) a) eqn:G8;
    [|exists 8; repeat split; simpl; auto 10;
      intros h' Hin Hlt; simpl in Hin; intuition (subst; try lia; auto)].
  destruct (gt (PInt (4 * 1024)) a) eqn:G4;
    [|exists 4; repeat split; simpl; auto 10;
      intros h' Hin Hlt; simpl in Hin; intuition (subst; try lia; auto)].
  destruct (gt (PInt (2 * 1024)) a) eqn:G2;
    [|exists 2; repeat split; simpl; auto 10;
      intros h' Hin Hlt; simpl in Hin; intuition (subst; try lia; auto)].
  destruct (gt (PInt (1 * 1024)) a) eqn:G1;
    [|exists 1; repeat split; simpl; auto 10;
      intros h' Hin Hlt; simpl in Hin; intuition (subst; try lia; auto)].
  rewrite H0.
  exists 0; repeat split; simpl; auto 10.
  intros h' Hin Hlt; simpl in Hin; intuition (subst; try lia; auto).
Qed.

Lemma superBlockSize_of_array_witness :
  exists h, superBlockSize 8 raid0_example = Some (Ok (PInt h)) /\
    In h [128; 64; 32; 16; 8; 4; 2; 1; 0] /\
    gt (PInt (h * 1024)) (PInt 400) = false /\
    forall h', In h' [128; 64; 32; 16; 8; 4; 2; 1; 0] -> h < h' ->
      gt (PInt (h' * 1024)) (PInt 400) = true.
Proof.
  apply (superBlockSize_of_array 8 raid0_example (PInt 400)).
  - reflexivity.
  - reflexivity.
  - reflexivity.
  - lia.
Defined.

End SuperBlock.

Section Smallest.
Import Py MDRaid.

Lemma lt_int a b : lt (PInt a) (PInt b) = (a <? b).
Proof. unfold lt, compare, Z.ltb. destruct (a ?= b); reflexivity. Qed.

Lemma insert_sorted_In x l y : In y (insert_sorted x l) <-> y = x \/ In y l.
Proof.
  induction l as [|z l IH]; simpl.
  - intuition.
  - destruct (lt (member_size x) (member_size z)); simpl; [intuition|].
    rewrite IH. intuition.
Qed.

Lemma sorted_In l : forall acc y,
  In y (fold_left (fun acc x => insert_sorted x acc) l acc) <-> In y acc \/ In y l.
Proof.
  induction l as [|x l IH]; intros acc y; simpl.
  - intuition.
  - rewrite IH, insert_sorted_In. intuition.
Qed.

(** No element is smaller than the head. *)
Lemma insert_sorted_head x l :
  Forall (fun m => exists z, member_size m = PInt z) (x :: l) ->
  (forall h t, l = h :: t -> Forall (fun m => lt (member_size m) (member_size h) = false) l) ->
  forall h t, insert_sorted x l = h :: t ->
    Forall (fun m => lt (member_size m) (member_size h) = false) (insert_sorted x l).
Proof.
  intros Hint Hl h t Heq.
  apply List.Forall_forall. intros m Hm. apply insert_sorted_In in Hm.
  assert (Hz : forall m', m' = x \/ In m' l -> exists z, member_size m' = PInt z).
  { intros m' [->|Hin]; [inversion Hint; assumption|].
    inversion Hint; subst. rewrite List.Forall_forall in H2. auto. }
  destruct l as [|y l'].
  - simpl in Heq. inversion Heq; subst h t.
    destruct Hm as [->|[]]. destruct (Hz x) as [z Hzx]; [auto|].
    rewrite Hzx, lt_int. apply Z.ltb_irrefl.
  - specialize (Hl y l' eq_refl). rewrite List.Forall_forall in Hl.
    destruct (Hz x) as [zx Hzx]; [auto|].
    destruct (Hz y) as [zy Hzy]; [right; left; reflexivity|].
    destruct (Hz m Hm) as [zm Hzm].
    simpl in Heq. rewrite Hzx, Hzy, lt_int in Heq.
    destruct (Z.ltb_spec zx zy) as [Hlt|Hge]; inversion Heq; subst h t.
    + rewrite Hzm, Hzx, lt_int. destruct Hm as [->|Hin].
      * rewrite Hzx in Hzm. inversion Hzm; subst. apply Z.ltb_irrefl.
      * specialize (Hl m Hin). rewrite Hzm, Hzy, lt_int in Hl.
        apply Z.ltb_ge in Hl. apply Z.ltb_ge. lia.
    + rewrite Hzm, Hzy, lt_int. destruct Hm as [->|Hin].
      * rewrite Hzx in Hzm. inversion Hzm; subst. apply Z.ltb_ge. lia.
      * specialize (Hl m Hin). rewrite Hzm, Hzy, lt_int in Hl. exact Hl.
Qed.

Lemma sorted_head l : forall acc,
  Forall (fun m => exists z, member_size m = PInt z) (acc ++ l) ->
  (forall h t, acc = h :: t -> Forall (fun m => lt (member_size m) (member_size h) = false) acc) ->
  forall h t, fold_left (fun acc x => insert_sorted x acc) l acc = h :: t ->
    Forall (fun m => lt (member_size m) (member_size h) = false)
           (fold_left (fun acc x => insert_sorted x acc) l acc).
Proof.
  induction l as [|x l IH]; intros acc Hint Hacc h t Heq; simpl in *.
  - rewrite app_nil_r in Hint. eapply Hacc; eauto.
  - apply (IH (insert_sorted x acc)) with (t := t); [| |exact Heq].
    + apply List.Forall_forall. intros m Hm. rewrite List.Forall_forall in Hint. apply Hint.
      rewrite in_app_iff in *. simpl. rewrite insert_sorted_In in Hm. intuition.
    + intros h' t' E. apply insert_sorted_head with (t := t'); [|exact Hacc|exact E].
      apply List.Forall_forall. intros m Hm. rewrite List.Forall_forall in Hint. apply Hint.
      rewrite in_app_iff. simpl in *. intuition.
Qed.

(** X9: when the sizes of the members are integers, [smallestMember] is a
    member of the array and no member is smaller than it. *)
Theorem smallestMember_is_minimal (d : MDRaidArrayDevice) (m : Member) :
  Forall (fun x => exists z, member_size x = PInt z) (devices d) ->
  smallestMember d = Some m ->
  In m (devices d) /\
  Forall (fun x => lt (member_size x) (member_size m) = false) (devices d).
Proof.
  intros Hint Hs. unfold smallestMember, sorted in Hs.
  destruct (fold_left _ (devices d) []) as [|h t] eqn:Heq; [discriminate|].
  inversion Hs; subst h.
  assert (Hin : In m (devices d)).
  { assert (H : In m (fold_left (fun acc x => insert_sorted x acc) (devices d) []))
      by (rewrite Heq; left; reflexivity).
    apply sorted_In in H. destruct H as [[]|H]. exact H. }
  split; [exact Hin|].
  pose proof (sorted_head (devices d) [] Hint ltac:(discriminate) m t Heq) as H.
  rewrite List.Forall_forall in *. intros x Hx. apply H.
  apply sorted_In. right. exact Hx.
Qed.

Lemma smallestMember_is_minimal_witness :
  exists m, smallestMember (raid1_example "1.1") = Some m /\
    member_size m = PInt 100 /\
    Forall (fun x => lt (member_size x) (member_size m) = false)
           (devices (raid1_example "1.1")).
Proof.
  exists (mk_member "sda1" 100). split; [reflexivity|]. split; [reflexivity|].
  apply (smallestMember_is_minimal (raid1_example "1.1") (mk_member "sda1" 100)).
  - repeat constructor; eexists; reflexivity.
  - reflexivity.
Defined.

End Smallest.

(** ** Physical volumes of a volume group *)

Section PhysicalVolumes.
Import Members.

Lemma mem_In x l : mem x l = true <-> In x l.
Proof.
  unfold mem. rewrite existsb_exists. split.
  - intros (y & Hy & E). apply Nat.eqb_eq in E. subst. exact Hy.
  - intros H. exists x. split; [exact H|apply Nat.eqb_refl].
Qed.

Lemma remove_first_app x l : mem x l = false -> remove_first x (l ++ [x]) = Some l.
Proof.
  induction l as [|y l IH]; simpl; intros H.
  - rewrite Nat.eqb_refl. reflexivity.
  - apply orb_false_iff in H. destruct H as [Hxy Hl].
    rewrite Hxy, (IH Hl). reflexivity.
Qed.

Lemma remove_first_mem x l : mem x l = true -> exists l', remove_first x l = Some l'.
Proof.
  induction l as [|y l IH]; simpl; intros H; [discriminate|].
  destruct (Nat.eqb x y); [eauto|].
  destruct (IH H) as [l' ->]. simpl. eauto.
Qed.

Lemma remove_first_length x l l' :
  remove_first x l = Some l' -> length l = S (length l').
Proof.
  revert l'. induction l as [|y l IH]; simpl; intros l' H; [discriminate|].
  destruct (Nat.eqb x y); [inversion H; reflexivity|].
  destruct (remove_first x l) as [l0|]; [|discriminate].
  simpl in H. inversion H. simpl. rewrite (IH l0 eq_refl). reflexivity.
Qed.

Lemma eq_int_inj a b x : Py.eq (PInt a) x = true -> Py.eq (PInt b) x = true -> a = b.
Proof.
  unfold Py.eq, compare. destruct x as [c|f].
  - destruct (Z.compare_spec a c); try discriminate.
    destruct (Z.compare_spec b c); try discriminate. lia.
  - unfold cmp_float_Z, option_map.
    destruct f as [s|s| |s m e]; try discriminate.
    + destruct (Z.compare_spec 0 a); try discriminate.
      destruct (Z.compare_spec 0 b); try discriminate. lia.
    + destruct s; discriminate.
    + assert (Hp : forall p, 0 < 2 ^ Zpos p) by (intros p; apply Z.pow_pos_nonneg; lia).
      destruct e as [|p|p].
      * destruct (Z.compare_spec (cond_Zopp s (Zpos m) * 2 ^ 0) a); try discriminate.
        destruct (Z.compare_spec (cond_Zopp s (Zpos m) * 2 ^ 0) b); try discriminate. lia.
      * destruct (Z.compare_spec (cond_Zopp s (Zpos m) * 2 ^ Zpos p) a); try discriminate.
        destruct (Z.compare_spec (cond_Zopp s (Zpos m) * 2 ^ Zpos p) b); try discriminate. lia.
      * specialize (Hp p).
        destruct (Z.compare_spec (cond_Zopp s (Zpos m)) (a * 2 ^ Zpos p)); try discriminate.
        destruct (Z.compare_spec (cond_Zopp s (Zpos m)) (b * 2 ^ Zpos p)); try discriminate.
        nia.
Qed.

(** X10: [_removeDevice] of a physical volume of an existing, complete
    volume group succeeds and takes the volume out of the parents without
    updating [pvCount]: the volume group is no longer complete. *)
Theorem removeDevice_leaves_vg_incomplete (vg device : nat) (w : World) (d : Device) :
  devs w !! vg = Some d ->
  py_true (exists_ d) = true ->
  complete d = true ->
  mem device (parents d) = true ->
  is_Some (devs w !! device) ->
  exists w' d',
    _removeDevice vg device w = Return tt w' /\
    devs w' !! vg = Some d' /\
    S (length (parents d')) = length (parents d) /\
    pvCount d' = pvCount d /\
    complete d' = false.
Proof.
  intros Hd He Hc Hm [p Hp].
  destruct (remove_first_mem _ _ Hm) as [l Hl].
  pose proof (remove_first_length _ _ _ Hl) as Hlen.
  unfold _removeDevice. unfold bind at 1. rewrite (get_Return _ _ _ Hd), Hl.
  unfold bind. rewrite (modify_Return _ _ _ _ Hd).
  unfold removeChild, modify. simpl devs.
  assert (Hcomp : forall k, complete (set_kids k (set_parents l d)) = false).
  { intros k. unfold complete in *. unfold set_kids, set_parents. simpl.
    destruct (hasDuplicate d); [discriminate|].
    rewrite He in *. simpl in *. rewrite orb_false_r in *.
    destruct (Py.eq (PInt (Z.of_nat (length l))) (pvCount d)) eqn:E; [|reflexivity].
    pose proof (eq_int_inj _ _ _ Hc E). lia. }
  destruct (decide (vg = device)) as [<-|Hne].
  - rewrite lookup_insert_eq. eexists. eexists. split; [reflexivity|].
    simpl. rewrite lookup_insert_eq. split; [reflexivity|].
    split; [simpl; lia|]. split; [reflexivity|]. apply Hcomp.
  - rewrite lookup_insert_ne by exact Hne. rewrite Hp.
    eexists. eexists. split; [reflexivity|].
    simpl. rewrite lookup_insert_ne by congruence. rewrite lookup_insert_eq.
    split; [reflexivity|]. split; [simpl; lia|]. split; [reflexivity|].
    specialize (Hcomp (kids d)). destruct d; exact Hcomp.
Qed.

Lemma removeDevice_leaves_vg_incomplete_witness :
  exists w' d',
    _removeDevice 1 0 pool_with_thin_volume = Return tt w' /\
    devs w' !! 1%nat = Some d' /\
    parents d' = [] /\ pvCount d' = PInt 1 /\ complete d' = false.
Proof.
  destruct (removeDevice_leaves_vg_incomplete 1 0 pool_with_thin_volume
    {| cls := LVMVolumeGroupDevice; _name := "vg"; parents := [0%nat]; kids := 1;
       exists_ := Some true;
       _format := Some (getFormat_None "/dev/mapper/vg" (Some true));
       originalFormat := Some (getFormat_None "/dev/mapper/vg" (Some true));
       sysfsPath := ""; _size := PInt 0; _targetSize := PInt 0;
       _partedDevice := None; node_active := false; parted_probe := None;
       partedPartition := None; req_name := None;
       peSize := PFloat f4; _lvs := [2%nat; 3%nat]; pvCount := PInt 1;
       hasDuplicate := false;
       reserved_percent := PInt 0; reserved_space := PInt 0;
       voriginSnapshots := [];
       copies := PInt 1; logSize := PInt 0; metaDataSize := PInt 0;
       snapshotSpace := PInt 0; snapshots := [] |})
    as (w' & d' & Hrun & Hd' & Hlen & Hpv & Hc).
  - reflexivity.
  - reflexivity.
  - reflexivity.
  - reflexivity.
  - vm_compute. eauto.
  - exists w', d'. split; [exact Hrun|]. split; [exact Hd'|].
    split; [|split; [exact Hpv|exact Hc]].
    simpl in Hlen. destruct (parents d'); [reflexivity|discriminate].
Defined.

Lemma parents_remove_Return i x w d l :
  devs w !! i = Some d ->
  remove_first x (parents d) = Some l ->
  parents_remove i x w = Return tt (with_devs (<[i := set_parents l d]> (devs w)) w).
Proof.
  intros Hd Hl. unfold parents_remove, bind.
  rewrite (get_Return _ _ _ Hd), Hl. apply modify_Return. exact Hd.
Qed.

Lemma lvs_remove_Return i x w d l :
  devs w !! i = Some d ->
  remove_first x (_lvs d) = Some l ->
  lvs_remove i x w = Return tt (with_devs (<[i := set_lvs l d]> (devs w)) w).
Proof.
  intros Hd Hl. unfold lvs_remove, bind.
  rewrite (get_Return _ _ _ Hd), Hl. apply modify_Return. exact Hd.
Qed.

(** X11: on a volume group that does not exist, [_addPV] of a device that
    is not yet a physical volume appends it to the parents, counts a child
    on it and sets [pvCount] to the new number of parents; [_removePV] of
    the same device then undoes all of that, except that [pvCount] is now
    the number of parents, whatever it was before.  No other object
    changes and no external call is made. *)
Theorem addPV_then_removePV (vg pv : nat) (w : World) (d p : Device) :
  devs w !! vg = Some d ->
  devs w !! pv = Some p ->
  vg <> pv ->
  py_true (exists_ d) = false ->
  mem pv (parents d) = false ->
  exists w1 w2,
    _addPV vg pv w = Return tt w1 /\
    devs w1 !! vg = Some (set_pvCount (len (parents d ++ [pv]))
                            (set_parents (parents d ++ [pv]) d)) /\
    devs w1 !! pv = Some (set_kids (kids p + 1) p) /\
    _removePV vg pv w1 = Return tt w2 /\
    devs w2 !! vg = Some (set_pvCount (len (parents d)) d) /\
    devs w2 !! pv = Some p /\
    trace w2 = trace w /\
    forall j, j <> vg -> j <> pv -> devs w2 !! j = devs w !! j.
Proof.
  intros Hd Hp Hne He Hm.
  assert (Hnepv : pv <> vg) by congruence.
  (* the run of _addPV *)
  set (d1 := set_parents (parents d ++ [pv]) d).
  set (w1 := with_devs (<[vg := d1]> (devs w)) w).
  set (w2 := with_devs (<[pv := set_kids (kids p + 1) p]> (devs w1)) w1).
  set (d3 := set_pvCount (len (parents d1)) d1).
  set (w3 := with_devs (<[vg := d3]> (devs w2)) w2).
  assert (Hadd : _addPV vg pv w = Return tt w3).
  { unfold _addPV. unfold bind at 1. rewrite (get_Return _ _ _ Hd), Hm, He.
    unfold bind at 1. rewrite (modify_Return _ _ _ _ Hd). fold d1 w1.
    unfold bind at 1. unfold addChild.
    rewrite (modify_Return _ _ _ p)
      by (simpl; rewrite lookup_insert_ne by exact Hne; exact Hp).
    fold w2.
    rewrite (modify_Return _ _ _ d1)
      by (simpl; rewrite lookup_insert_ne by exact Hnepv; apply lookup_insert_eq).
    reflexivity. }
  assert (Hvg3 : devs w3 !! vg = Some d3) by (simpl; apply lookup_insert_eq).
  assert (Hpv3 : devs w3 !! pv = Some (set_kids (kids p + 1) p)).
  { simpl. rewrite lookup_insert_ne by exact Hne. apply lookup_insert_eq. }
  (* the run of _removePV *)
  assert (Hm3 : mem pv (parents d3) = true).
  { apply mem_In. simpl. apply in_or_app. right. left. reflexivity. }
  assert (Hr3 : remove_first pv (parents d3) = Some (parents d))
    by (simpl; apply remove_first_app; exact Hm).
  set (d4 := set_parents (parents d) d3).
  set (w4 := with_devs (<[vg := d4]> (devs w3)) w3).
  set (w5 := with_devs (<[pv := set_kids (kids p + 1 - 1) (set_kids (kids p + 1) p)]> (devs w4)) w4).
  set (d6 := set_pvCount (len (parents d4)) d4).
  set (w6 := with_devs (<[vg := d6]> (devs w5)) w5).
  assert (Hrem : _removePV vg pv w3 = Return tt w6).
  { unfold _removePV. unfold bind at 1. rewrite (get_Return _ _ _ Hvg3), Hm3.
    simpl negb. cbv iota.
    replace (py_true (exists_ d3)) with false by (rewrite <- He; destruct d; reflexivity).
    change (negb true) with false. cbv beta iota.
    unfold bind. rewrite (parents_remove_Return _ _ _ _ _ Hvg3 Hr3). fold d4 w4.
    unfold removeChild.
    rewrite (modify_Return _ _ _ (set_kids (kids p + 1) p))
      by (simpl; rewrite lookup_insert_ne by exact Hne; exact Hpv3).
    replace (kids (set_kids (kids p + 1) p)) with (kids p + 1) by (destruct p; reflexivity).
    fold w5.
    rewrite (modify_Return _ _ _ d4)
      by (simpl; rewrite lookup_insert_ne by exact Hnepv; apply lookup_insert_eq).
    reflexivity. }
  exists w3, w6. split; [exact Hadd|]. split; [exact Hvg3|]. split; [exact Hpv3|].
  split; [exact Hrem|]. split.
  { simpl. rewrite lookup_insert_eq. f_equal; destruct d; reflexivity. }
  split.
  { simpl. rewrite lookup_insert_ne by exact Hne. rewrite lookup_insert_eq.
    f_equal; destruct p; simpl; unfold set_kids; simpl; f_equal; lia. }
  split; [reflexivity|].
  intros j Hj1 Hj2. simpl.
  rewrite !lookup_insert_ne by congruence. reflexivity.
Qed.

Lemma addPV_then_removePV_witness :
  exists w1 w2 d1 d2,
    _addPV 1 2 new_vg = Return tt w1 /\
    devs w1 !! 1%nat = Some d1 /\ parents d1 = [0%nat; 2%nat] /\ pvCount d1 = PInt 2 /\
    _removePV 1 2 w1 = Return tt w2 /\
    devs w2 !! 1%nat = Some d2 /\ parents d2 = [0%nat] /\
    devs w2 !! 2%nat = devs new_vg !! 2%nat.
Proof.
  destruct (addPV_then_removePV 1 2 new_vg
              (set_pvCount (PInt 1) (blank LVMVolumeGroupDevice "vg" [0%nat] (Some false)))
              (blank PartitionDevice "sdb1" [] (Some true)))
    as (w1 & w2 & Hadd & Hvg1 & _ & Hrem & Hvg2 & Hpv2 & _).
  - reflexivity.
  - reflexivity.
  - discriminate.
  - reflexivity.
  - reflexivity.
  - exists w1, w2. eexists. eexists.
    split; [exact Hadd|]. split; [exact Hvg1|]. split; [reflexivity|].
    split; [reflexivity|]. split; [exact Hrem|]. split; [exact Hvg2|].
    split; [reflexivity|]. rewrite Hpv2. reflexivity.
Defined.

End PhysicalVolumes.

(** ** Child counters and parent lists *)

Section ChildCounters.
Import Outcomes Members.

Lemma child_count_delete m i d p :
  m !! i = Some d ->
  child_count m p = child_count (delete i m) p + times_parent p d.
Proof.
  intros Hd. unfold child_count.
  rewrite (map_fold_delete_L _ _ i d m); [reflexivity| |exact Hd].
  intros. lia.
Qed.

Lemma child_count_insert m i d d' p :
  m !! i = Some d ->
  child_count (<[i := d']> m) p = child_count m p - times_parent p d + times_parent p d'.
Proof.
  intros Hd. rewrite (child_count_delete m i d p Hd).
  rewrite <- (insert_delete_eq m). unfold child_count.
  rewrite map_fold_insert_L; [lia| |apply lookup_delete_eq].
  intros. lia.
Qed.

(** What replacing one object does to the imbalance of any object. *)
Lemma imbalance_insert m i d d' q :
  m !! i = Some d ->
  imbalance (<[i := d']> m) q
  = option_map (fun z => z - (times_parent q d' - times_parent q d)
                         + (if decide (q = i) then kids d' - kids d else 0))
               (imbalance m q).
Proof.
  intros Hd. unfold imbalance. rewrite (child_count_insert m i d d' q Hd).
  destruct (decide (q = i)) as [->|Hne].
  - rewrite lookup_insert_eq, Hd. simpl. f_equal. lia.
  - rewrite lookup_insert_ne by congruence.
    destruct (m !! q); simpl; [f_equal; lia|reflexivity].
Qed.

Lemma counted_imbalance m :
  counted m <-> forall q, imbalance m q = None \/ imbalance m q = Some 0.
Proof.
  unfold counted, imbalance. split.
  - intros H q. destruct (m !! q) as [d|] eqn:E; [|auto].
    right. rewrite (H q d E). f_equal. lia.
  - intros H p d Hp. specialize (H p). rewrite Hp in H.
    destruct H as [H|H]; inversion H. lia.
Qed.

Lemma modify_run i f w w' :
  final (modify i f w) = Some w' ->
  exists d, devs w !! i = Some d /\ w' = with_devs (<[i := f d]> (devs w)) w.
Proof.
  unfold modify. destruct (devs w !! i) as [d|]; simpl; intros H; inversion H. eauto.
Qed.

Lemma times_parent_app q x d d' :
  parents d' = (parents d ++ [x])%list ->
  times_parent q d' = times_parent q d + (if decide (q = x) then 1 else 0).
Proof.
  intros H. unfold times_parent. rewrite H, count_occ_app. simpl.
  destruct (Nat.eq_dec x q), (decide (q = x)); try congruence; lia.
Qed.

Lemma times_parent_remove q x d d' :
  remove_first x (parents d) = Some (parents d') ->
  times_parent q d = times_parent q d' + (if decide (q = x) then 1 else 0).
Proof.
  unfold times_parent. generalize (parents d'). induction (parents d) as [|y l IH];
    intros l' H; simpl in H; [discriminate|].
  destruct (Nat.eqb_spec x y) as [->|Hne].
  - inversion H; subst l'. simpl.
    destruct (Nat.eq_dec y q), (decide (q = y)); try congruence; lia.
  - destruct (remove_first x l) as [l0|]; [|discriminate].
    simpl in H. inversion H; subst l'. simpl. specialize (IH l0 eq_refl).
    destruct (Nat.eq_dec y q); lia.
Qed.

Lemma final_bind {A B} (m : M A) (k : A -> M B) w w' :
  final (bind m k w) = Some w' ->
  (exists e, m w = Throw e w') \/
  (exists a w1, m w = Return a w1 /\ final (k a w1) = Some w').
Proof.
  unfold bind. destruct (m w) as [a w1|e w1|]; simpl; intros H.
  - right. eauto.
  - left. inversion H. eauto.
  - discriminate.
Qed.

Lemma query_never_throws {A} (f : gmap nat Device -> option A) w e w' :
  query f w <> Throw e w'.
Proof. unfold query. destruct (f (devs w)); discriminate. Qed.

Lemma query_Return_same {A} (f : gmap nat Device -> option A) w a w' :
  query f w = Return a w' -> w' = w.
Proof. unfold query. destruct (f (devs w)); intros H; inversion H. reflexivity. Qed.

Lemma modify_never_throws i f w e w' : modify i f w <> Throw e w'.
Proof. unfold modify. destruct (devs w !! i); discriminate. Qed.

Lemma imbalance_modify i f w w' :
  modify i f w = Return tt w' ->
  exists d, devs w !! i = Some d /\
    forall q, imbalance (devs w') q
      = option_map (fun z => z - (times_parent q (f d) - times_parent q d)
                             + (if decide (q = i) then kids (f d) - kids d else 0))
                   (imbalance (devs w) q).
Proof.
  unfold modify. destruct (devs w !! i) as [d|] eqn:Hd; [|discriminate].
  intros H. inversion H; subst w'. exists d. split; [reflexivity|].
  intros q. simpl. apply imbalance_insert. exact Hd.
Qed.

Lemma imbalance_addChild i w w' :
  addChild i w = Return tt w' ->
  forall q, imbalance (devs w') q
    = option_map (fun z => z + (if decide (q = i) then 1 else 0)) (imbalance (devs w) q).
Proof.
  intros H q. destruct (imbalance_modify _ _ _ _ H) as (d & _ & Hq). rewrite Hq.
  destruct (imbalance (devs w) q); [simpl; f_equal|reflexivity].
  replace (times_parent q (set_kids (kids d + 1) d)) with (times_parent q d)
    by (destruct d; reflexivity).
  replace (kids (set_kids (kids d + 1) d)) with (kids d + 1) by (destruct d; reflexivity).
  destruct (decide (q = i)); lia.
Qed.

Lemma imbalance_removeChild i w w' :
  removeChild i w = Return tt w' ->
  forall q, imbalance (devs w') q
    = option_map (fun z => z - (if decide (q = i) then 1 else 0)) (imbalance (devs w) q).
Proof.
  intros H q. destruct (imbalance_modify _ _ _ _ H) as (d & _ & Hq). rewrite Hq.
  destruct (imbalance (devs w) q); [simpl; f_equal|reflexivity].
  replace (times_parent q (set_kids (kids d - 1) d)) with (times_parent q d)
    by (destruct d; reflexivity).
  replace (kids (set_kids (kids d - 1) d)) with (kids d - 1) by (destruct d; reflexivity).
  destruct (decide (q = i)); lia.
Qed.

Lemma imbalance_pvCount i w w' :
  modify i (fun d => set_pvCount (len (parents d)) d) w = Return tt w' ->
  forall q, imbalance (devs w') q = imbalance (devs w) q.
Proof.
  intros H q. destruct (imbalance_modify _ _ _ _ H) as (d & _ & Hq). rewrite Hq.
  destruct (imbalance (devs w) q); [simpl; f_equal|reflexivity].
  replace (times_parent q (set_pvCount (len (parents d)) d)) with (times_parent q d)
    by (destruct d; reflexivity).
  replace (kids (set_pvCount (len (parents d)) d)) with (kids d) by (destruct d; reflexivity).
  destruct (decide (q = i)); lia.
Qed.

Lemma imbalance_set_parents i l w w' d :
  devs w !! i = Some d ->
  modify i (set_parents l) w = Return tt w' ->
  forall q, imbalance (devs w') q
    = option_map (fun z => z - (times_parent q (set_parents l d) - times_parent q d))
                 (imbalance (devs w) q).
Proof.
  intros Hd H q. destruct (imbalance_modify _ _ _ _ H) as (d0 & Hd0 & Hq). rewrite Hq.
  rewrite Hd in Hd0. inversion Hd0; subst d0.
  destruct (imbalance (devs w) q); [simpl; f_equal|reflexivity].
  replace (kids (set_parents l d)) with (kids d) by (destruct d; reflexivity).
  destruct (decide (q = i)); lia.
Qed.

Lemma counted_of_imbalance m m' :
  (forall q, imbalance m' q = imbalance m q) -> counted m -> counted m'.
Proof.
  intros H Hc. apply counted_imbalance. intros q. rewrite H.
  apply counted_imbalance. exact Hc.
Qed.

Lemma addPV_imbalance vg pv w w' :
  final (_addPV vg pv w) = Some w' ->
  forall q, imbalance (devs w') q = imbalance (devs w) q.
Proof.
  unfold _addPV. intros H.
  apply final_bind in H. destruct H as [[e H]|(d & w0 & Hg & H)].
  { unfold get in H. destruct (devs w !! vg); discriminate. }
  unfold get in Hg. destruct (devs w !! vg) as [d0|] eqn:Hd; [|discriminate].
  inversion Hg; subst d0 w0. clear Hg.
  destruct (mem pv (parents d)); [inversion H; reflexivity|].
  destruct (py_true (exists_ d)).
  { apply final_bind in H. destruct H as [[e H]|(n & w0 & Hn & H)].
    - exfalso. unfold name in H. exact (query_never_throws _ _ _ _ H).
    - unfold name in Hn. apply query_Return_same in Hn. subst w0.
      inversion H. reflexivity. }
  apply final_bind in H. destruct H as [[e H]|([] & w1 & H1 & H)];
    [exfalso; exact (modify_never_throws _ _ _ _ _ H)|].
  apply final_bind in H. destruct H as [[e H]|([] & w2 & H2 & H)];
    [exfalso; exact (modify_never_throws _ _ _ _ _ H)|].
  destruct (modify vg _ w2) as [[] w3|e w3|] eqn:H3; simpl in H;
    [|exfalso; exact (modify_never_throws _ _ _ _ _ H3)|discriminate].
  inversion H; subst w3. clear H.
  intros q. rewrite (imbalance_pvCount _ _ _ H3 q), (imbalance_addChild _ _ _ H2 q).
  destruct (imbalance_modify _ _ _ _ H1) as (d0 & Hd0 & Hq). rewrite Hq.
  rewrite Hd in Hd0. inversion Hd0; subst d0.
  destruct (imbalance (devs w) q); [simpl; f_equal|reflexivity].
  rewrite (times_parent_app q pv d (set_parents (parents d ++ [pv]) d))
    by (destruct d; reflexivity).
  replace (kids (set_parents (parents d ++ [pv]) d)) with (kids d) by (destruct d; reflexivity).
  destruct (decide (q = pv)), (decide (q = vg)); lia.
Qed.

Lemma parents_remove_run i x w d :
  devs w !! i = Some d ->
  match parents_remove i x w with
  | Return _ w1 =>
      exists l, remove_first x (parents d) = Some l /\
                modify i (set_parents l) w = Return tt w1
  | Throw _ w1 => w1 = w
  | Abort => True
  end.
Proof.
  intros Hd. unfold parents_remove, bind. rewrite (get_Return _ _ _ Hd).
  destruct (remove_first x (parents d)) as [l|]; [|reflexivity].
  destruct (modify i (set_parents l) w) as [[] w1|e w1|] eqn:H; [eauto| |exact I].
  exfalso. exact (modify_never_throws _ _ _ _ _ H).
Qed.

Lemma removePV_imbalance vg pv w w' :
  final (_removePV vg pv w) = Some w' ->
  forall q, imbalance (devs w') q = imbalance (devs w) q.
Proof.
  unfold _removePV. intros H.
  apply final_bind in H. destruct H as [[e H]|(d & w0 & Hg & H)].
  { unfold get in H. destruct (devs w !! vg); discriminate. }
  unfold get in Hg. destruct (devs w !! vg) as [d0|] eqn:Hd; [|discriminate].
  inversion Hg; subst d0 w0. clear Hg.
  destruct (negb (mem pv (parents d))); [inversion H; reflexivity|].
  destruct (py_true (exists_ d)).
  { apply final_bind in H. destruct H as [[e H]|(n & w0 & Hn & H)].
    - exfalso. unfold name in H. exact (query_never_throws _ _ _ _ H).
    - unfold name in Hn. apply query_Return_same in Hn. subst w0.
      inversion H. reflexivity. }
  pose proof (parents_remove_run vg pv w d Hd) as Hpr.
  apply final_bind in H. destruct H as [[e H]|([] & w1 & H1 & H)].
  { rewrite H in Hpr. subst w'. reflexivity. }
  rewrite H1 in Hpr. destruct Hpr as (l & Hl & Hm1). clear H1. rename Hm1 into H1.
  apply final_bind in H. destruct H as [[e H]|([] & w2 & H2 & H)];
    [exfalso; exact (modify_never_throws _ _ _ _ _ H)|].
  destruct (modify vg _ w2) as [[] w3|e w3|] eqn:H3; simpl in H;
    [|exfalso; exact (modify_never_throws _ _ _ _ _ H3)|discriminate].
  inversion H; subst w3. clear H.
  intros q. rewrite (imbalance_pvCount _ _ _ H3 q), (imbalance_removeChild _ _ _ H2 q).
  rewrite (imbalance_set_parents _ _ _ _ _ Hd H1 q).
  destruct (imbalance (devs w) q); [simpl; f_equal|reflexivity].
  rewrite (times_parent_remove q pv d (set_parents l d)) by (destruct d; exact Hl).
  destruct (decide (q = pv)); lia.
Qed.

Lemma removeDevice_imbalance vg pv w w' :
  final (_removeDevice vg pv w) = Some w' ->
  forall q, imbalance (devs w') q = imbalance (devs w) q.
Proof.
  unfold _removeDevice. intros H.
  apply final_bind in H. destruct H as [[e H]|(d & w0 & Hg & H)].
  { unfold get in H. destruct (devs w !! vg); discriminate. }
  unfold get in Hg. destruct (devs w !! vg) as [d0|] eqn:Hd; [|discriminate].
  inversion Hg; subst d0 w0. clear Hg.
  destruct (remove_first pv (parents d)) as [l|] eqn:Hl; [|inversion H; reflexivity].
  apply final_bind in H. destruct H as [[e H]|([] & w1 & H1 & H)];
    [exfalso; exact (modify_never_throws _ _ _ _ _ H)|].
  destruct (removeChild pv w1) as [[] w2|e w2|] eqn:H2; simpl in H;
    [|exfalso; exact (modify_never_throws _ _ _ _ _ H2)|discriminate].
  inversion H; subst w2. clear H.
  intros q. rewrite (imbalance_removeChild _ _ _ H2 q).
  rewrite (imbalance_set_parents _ _ _ _ _ Hd H1 q).
  destruct (imbalance (devs w) q); [simpl; f_equal|reflexivity].
  rewrite (times_parent_remove q pv d (set_parents l d)) by (destruct d; exact Hl).
  destruct (decide (q = pv)); lia.
Qed.

Lemma modify_parents i f w w' :
  modify i f w = Return tt w' ->
  (forall x, parents (f x) = parents x) ->
  forall j dj', devs w' !! j = Some dj' ->
    exists dj, devs w !! j = Some dj /\ parents dj' = parents dj.
Proof.
  unfold modify. destruct (devs w !! i) as [d|] eqn:Hd; [|discriminate].
  intros H Hf j dj' Hj. inversion H; subst w'. simpl in Hj.
  destruct (decide (i = j)) as [<-|Hne].
  - rewrite lookup_insert_eq in Hj. inversion Hj; subst dj'. eauto.
  - rewrite lookup_insert_ne in Hj by exact Hne. eauto.
Qed.

Lemma setDisk_imbalance i disk w w' d :
  devs w !! i = Some d ->
  (length (parents d) <= 1)%nat ->
  final (_setDisk i disk w) = Some w' ->
  forall q, imbalance (devs w') q = imbalance (devs w) q.
Proof.
  intros Hd Hlen H. unfold _setDisk in H.
  unfold bind at 1 in H. rewrite (get_Return _ _ _ Hd) in H.
  (* the old disk loses a child *)
  assert (Hold : exists w1 d1,
            (match disk_of d with Some old => removeChild old | None => ret tt end) w
            = Return tt w1 /\
            devs w1 !! i = Some d1 /\ parents d1 = parents d /\
            final ((match disk with
                    | Some new => exec modify i (set_parents [new]) in addChild new
                    | None => modify i (set_parents [])
                    end) w1) = Some w' /\
            forall q, imbalance (devs w1) q
              = option_map (fun z => z - times_parent q d) (imbalance (devs w) q)).
  { apply final_bind in H. destruct H as [[e H]|([] & w1 & H1 & H)].
    - exfalso. destruct (disk_of d); [exact (modify_never_throws _ _ _ _ _ H)|discriminate].
    - unfold disk_of in H1 |- *. unfold times_parent.
      destruct (parents d) as [|old [|? ?]] eqn:Hp; simpl in Hlen; try lia; simpl in H1;
        simpl head.
      + inversion H1; subst w1. exists w, d.
        split; [reflexivity|]. split; [exact Hd|]. split; [exact Hp|]. split; [exact H|].
        intros q. destruct (imbalance (devs w) q); simpl; [f_equal; lia|reflexivity].
      + assert (Hi : exists d1, devs w1 !! i = Some d1 /\ parents d1 = parents d).
        { unfold removeChild, modify in H1.
          destruct (devs w !! old) as [o|] eqn:Ho; [|discriminate].
          inversion H1; subst w1. simpl.
          destruct (decide (old = i)) as [->|Hne].
          - rewrite lookup_insert_eq. rewrite Hd in Ho. inversion Ho; subst o.
            eexists. split; [reflexivity|]. destruct d; reflexivity.
          - rewrite lookup_insert_ne by exact Hne. eauto. }
        destruct Hi as (d1 & Hd1 & Hp1). exists w1, d1.
        split; [exact H1|]. split; [exact Hd1|]. split; [congruence|].
        split; [exact H|].
        intros q. rewrite (imbalance_removeChild _ _ _ H1 q).
        destruct (imbalance (devs w) q); simpl; [f_equal|reflexivity].
        destruct (Nat.eq_dec old q), (decide (q = old)); try congruence; lia. }
  destruct Hold as (w1 & d1 & _ & Hd1 & Hp1 & Hrest & Him1).
  assert (Htp : forall q, times_parent q d1 = times_parent q d)
    by (intros q; unfold times_parent; rewrite Hp1; reflexivity).
  destruct disk as [new|].
  - apply final_bind in Hrest. destruct Hrest as [[e H2]|([] & w2 & H2 & H3)];
      [exfalso; exact (modify_never_throws _ _ _ _ _ H2)|].
    destruct (addChild new w2) as [[] w3|e w3|] eqn:H4; simpl in H3;
      [|exfalso; exact (modify_never_throws _ _ _ _ _ H4)|discriminate].
    inversion H3; subst w3.
    intros q. rewrite (imbalance_addChild _ _ _ H4 q).
    rewrite (imbalance_set_parents _ _ _ _ _ Hd1 H2 q), Him1, Htp.
    destruct (imbalance (devs w) q); simpl; [f_equal|reflexivity].
    replace (times_parent q (set_parents [new] d1)) with (if decide (q = new) then 1 else 0).
    + destruct (decide (q = new)); lia.
    + unfold times_parent. destruct d1; simpl.
      destruct (Nat.eq_dec new q), (decide (q = new)); try congruence; reflexivity.
  - destruct (modify i (set_parents []) w1) as [[] w2|e w2|] eqn:H2; simpl in Hrest;
      [|exfalso; exact (modify_never_throws _ _ _ _ _ H2)|discriminate].
    inversion Hrest; subst w2.
    intros q. rewrite (imbalance_set_parents _ _ _ _ _ Hd1 H2 q), Him1, Htp.
    destruct (imbalance (devs w) q); simpl; [f_equal|reflexivity].
    replace (times_parent q (set_parents [] d1)) with 0 by (destruct d1; reflexivity).
    lia.
Qed.

Lemma for_each_addChild_imbalance l : forall w w',
  for_each addChild l w = Return tt w' ->
  forall q, imbalance (devs w') q
    = option_map (fun z => z + Z.of_nat (count_occ Nat.eq_dec l q)) (imbalance (devs w) q).
Proof.
  induction l as [|x l IH]; intros w w' H q; simpl in H.
  - inversion H; subst w'. destruct (imbalance (devs w) q); simpl; [f_equal; lia|reflexivity].
  - apply bind_Return in H. destruct H as ([] & w1 & H1 & H).
    rewrite (IH _ _ H q), (imbalance_addChild _ _ _ H1 q).
    destruct (imbalance (devs w) q); simpl; [f_equal|reflexivity].
    destruct (Nat.eq_dec x q), (decide (q = x)); try congruence; lia.
Qed.

Lemma counted_new_vg : counted (devs new_vg).
Proof.
  apply counted_imbalance. intros q. unfold imbalance.
  destruct (decide (q = 0%nat)) as [->|H0]; [right; vm_compute; reflexivity|].
  destruct (decide (q = 1%nat)) as [->|H1]; [right; vm_compute; reflexivity|].
  destruct (decide (q = 2%nat)) as [->|H2]; [right; vm_compute; reflexivity|].
  left. unfold new_vg, world_of. simpl.
  rewrite !lookup_insert_ne by congruence. rewrite lookup_empty. reflexivity.
Qed.

(** X12: [_addPV], [_removePV] and [_removeDevice] change the parents of
    the volume group and the child counter of the physical volume
    together: however the call ends, the difference between the child
    counter of an object and the number of times it is listed as a parent
    is the same as before, for every object; so counters that agreed with
    the parent lists still agree. *)
Theorem vg_membership_keeps_counters (vg pv : nat) (w w' : World) :
  final (_addPV vg pv w) = Some w' \/
  final (_removePV vg pv w) = Some w' \/
  final (_removeDevice vg pv w) = Some w' ->
  (forall q, imbalance (devs w') q = imbalance (devs w) q) /\
  (counted (devs w) -> counted (devs w')).
Proof.
  intros H.
  assert (Hq : forall q, imbalance (devs w') q = imbalance (devs w) q).
  { destruct H as [H|[H|H]].
    - exact (addPV_imbalance _ _ _ _ H).
    - exact (removePV_imbalance _ _ _ _ H).
    - exact (removeDevice_imbalance _ _ _ _ H). }
  split; [exact Hq|]. apply counted_of_imbalance. exact Hq.
Qed.

Lemma vg_membership_keeps_counters_witness :
  exists w' p,
    _addPV 1 2 new_vg = Return tt w' /\
    devs w' !! 2%nat = Some p /\ kids p = 1 /\
    counted (devs w').
Proof.
  assert (Hrun : exists w', _addPV 1 2 new_vg = Return tt w')
    by (eexists; vm_compute; reflexivity).
  destruct Hrun as [w' Hrun].
  destruct (vg_membership_keeps_counters 1 2 new_vg w') as [_ Hc].
  - left. rewrite Hrun. reflexivity.
  - exists w'. eexists. split; [exact Hrun|].
    split; [|split; [|exact (Hc counted_new_vg)]].
    + vm_compute in Hrun. inversion Hrun. vm_compute. reflexivity.
    + reflexivity.
Defined.

(** X13: the same for [_setDisk] on a partition with at most one parent:
    the old disk loses a child, the new disk gains one, and the counters
    agree with the parent lists after the call when they did before. *)
Theorem setDisk_keeps_counters (i : nat) (disk : option nat) (w w' : World) (d : Device) :
  devs w !! i = Some d ->
  (length (parents d) <= 1)%nat ->
  final (_setDisk i disk w) = Some w' ->
  (forall q, imbalance (devs w') q = imbalance (devs w) q) /\
  (counted (devs w) -> counted (devs w')).
Proof.
  intros Hd Hlen H.
  assert (Hq : forall q, imbalance (devs w') q = imbalance (devs w) q)
    by exact (setDisk_imbalance _ _ _ _ _ Hd Hlen H).
  split; [exact Hq|]. apply counted_of_imbalance. exact Hq.
Qed.

Lemma counted_two_disks : counted (devs two_disks).
Proof.
  apply counted_imbalance. intros q. unfold imbalance.
  destruct (decide (q = 0%nat)) as [->|H0]; [right; vm_compute; reflexivity|].
  destruct (decide (q = 1%nat)) as [->|H1]; [right; vm_compute; reflexivity|].
  destruct (decide (q = 2%nat)) as [->|H2]; [right; vm_compute; reflexivity|].
  left. unfold two_disks, world_of. simpl.
  rewrite !lookup_insert_ne by congruence. rewrite lookup_empty. reflexivity.
Qed.

Lemma setDisk_keeps_counters_witness :
  exists w' old new part,
    _setDisk 1 (Some 2%nat) two_disks = Return tt w' /\
    devs w' !! 0%nat = Some old /\ kids old = 0 /\
    devs w' !! 2%nat = Some new /\ kids new = 1 /\
    devs w' !! 1%nat = Some part /\ parents part = [2%nat] /\
    counted (devs w').
Proof.
  assert (Hrun : exists w', _setDisk 1 (Some 2%nat) two_disks = Return tt w')
    by (eexists; vm_compute; reflexivity).
  destruct Hrun as [w' Hrun].
  destruct (setDisk_keeps_counters 1 (Some 2%nat) two_disks w'
              (blank PartitionDevice "sda1" [0%nat] (Some true))) as [_ Hc].
  - reflexivity.
  - simpl. lia.
  - rewrite Hrun. reflexivity.
  - specialize (Hc counted_two_disks).
    vm_compute in Hrun. inversion Hrun; subst w'. clear Hrun.
    eexists. eexists. eexists. eexists.
    split; [reflexivity|].
    split; [vm_compute; reflexivity|]. split; [reflexivity|].
    split; [vm_compute; reflexivity|]. split; [reflexivity|].
    split; [vm_compute; reflexivity|]. split; [reflexivity|].
    exact Hc.
Defined.

(** X14: the loop at the end of [Device.__init__] makes the counters
    agree with the parent lists: when, before it, each object is short of
    exactly the times the new device lists it as a parent, then after it
    every child counter is the number of times the object is listed. *)
Theorem new_device_is_counted (i : nat) (w w' : World) (d : Device) :
  devs w !! i = Some d ->
  (forall q z, imbalance (devs w) q = Some z -> z = - times_parent q d) ->
  register_with_parents i w = Return tt w' ->
  counted (devs w').
Proof.
  intros Hd Hpre H. unfold register_with_parents in H.
  unfold bind in H. rewrite (get_Return _ _ _ Hd) in H.
  apply counted_imbalance. intros q.
  rewrite (for_each_addChild_imbalance _ _ _ H q).
  destruct (imbalance (devs w) q) as [z|] eqn:E; [right|left; reflexivity].
  simpl. f_equal. rewrite (Hpre q z E). unfold times_parent. lia.
Qed.

Lemma new_device_is_counted_witness :
  exists w' a b,
    register_with_parents 2 unregistered_device = Return tt w' /\
    devs w' !! 0%nat = Some a /\ kids a = 1 /\
    devs w' !! 1%nat = Some b /\ kids b = 1 /\
    counted (devs w').
Proof.
  assert (Hrun : exists w', register_with_parents 2 unregistered_device = Return tt w')
    by (eexists; vm_compute; reflexivity).
  destruct Hrun as [w' Hrun].
  assert (Hc : counted (devs w')).
  { apply (new_device_is_counted 2 unregistered_device w'
             (blank StorageDevice "md0" [0%nat; 1%nat] (Some false))).
    - reflexivity.
    - intros q z. unfold imbalance.
      destruct (decide (q = 0%nat)) as [->|H0];
        [vm_compute; intros H; inversion H; reflexivity|].
      destruct (decide (q = 1%nat)) as [->|H1];
        [vm_compute; intros H; inversion H; reflexivity|].
      destruct (decide (q = 2%nat)) as [->|H2];
        [vm_compute; intros H; inversion H; reflexivity|].
      unfold unregistered_device, world_of. simpl.
      rewrite !lookup_insert_ne by congruence. rewrite lookup_empty. discriminate.
    - exact Hrun. }
  vm_compute in Hrun. inversion Hrun; subst w'. clear Hrun.
  eexists. eexists. eexists.
  split; [reflexivity|].
  split; [vm_compute; reflexivity|]. split; [reflexivity|].
  split; [vm_compute; reflexivity|]. split; [reflexivity|].
  exact Hc.
Defined.

End ChildCounters.

(** ** Logical volumes of a volume group and of a pool *)

Section LogicalVolumeLists.
Import Members.

Variable get_pool_padding : num -> num -> res num.
Variable req_grow : nat -> bool.

(** X15: [LVMThinPoolDevice._removeLogVol] takes the volume out of the
    list of the pool before it asks the volume group: when the volume
    group does not list the volume, ValueError is raised and the list of
    the pool has already lost it. *)
Theorem pool_removeLogVol_half_done (pool lv vg : nat) (w : World) (pd vd : Device)
    (l : list nat) :
  devs w !! pool = Some pd ->
  cls pd = LVMThinPoolDevice ->
  head (parents pd) = Some vg ->
  vg <> pool ->
  devs w !! vg = Some vd ->
  remove_first lv (_lvs pd) = Some l ->
  mem lv (_lvs vd) = false ->
  LVMThinPoolDevice_removeLogVol pool lv w
  = Throw (ValueError "specified lv is not part of this vg")
      (with_devs (<[pool := set_lvs l pd]> (devs w)) w).
Proof.
  intros Hp Hc Hh Hne Hv Hl Hm.
  assert (Hmem : mem lv (_lvs pd) = true).
  { clear -Hl. revert l Hl. induction (_lvs pd) as [|y t IH]; simpl; intros l Hl;
      [discriminate|].
    destruct (Nat.eqb lv y); [reflexivity|].
    destruct (remove_first lv t); [|discriminate]. simpl. eapply IH. reflexivity. }
  unfold LVMThinPoolDevice_removeLogVol. unfold bind at 1.
  rewrite (get_Return _ _ _ Hp), Hmem. change (negb true) with false. cbv beta iota.
  unfold bind at 1. rewrite (lvs_remove_Return _ _ _ _ _ Hp Hl).
  set (w1 := with_devs (<[pool := set_lvs l pd]> (devs w)) w).
  assert (Hvg : the_vg pool w1 = Return vg w1).
  { unfold the_vg, query. simpl. rewrite lookup_insert_eq.
    unfold vg_of. replace (cls (set_lvs l pd)) with LVMThinPoolDevice
      by (rewrite <- Hc; destruct pd; reflexivity).
    replace (parents (set_lvs l pd)) with (parents pd) by (destruct pd; reflexivity).
    rewrite Hh. reflexivity. }
  unfold bind at 1. rewrite Hvg.
  unfold LVMVolumeGroupDevice_removeLogVol. unfold bind.
  rewrite (get_Return vg w1 vd) by (simpl; rewrite lookup_insert_ne by congruence; exact Hv).
  rewrite Hm. reflexivity.
Qed.

Lemma pool_removeLogVol_half_done_witness :
  exists w' pd',
    LVMThinPoolDevice_removeLogVol 2 3 pool_lists_alone
    = Throw (ValueError "specified lv is not part of this vg") w' /\
    (_lvs <$> devs pool_lists_alone !! 2%nat) = Some [3%nat] /\
    devs w' !! 2%nat = Some pd' /\ _lvs pd' = [].
Proof.
  eexists. eexists. split.
  - eapply (pool_removeLogVol_half_done 2 3 1 pool_lists_alone
             (set_lvs [3%nat] (set_size (PInt 1000) (set_kids 1
                 (blank LVMThinPoolDevice "pool" [1%nat] (Some true)))))).
    + reflexivity.
    + reflexivity.
    + reflexivity.
    + discriminate.
    + vm_compute. reflexivity.
    + reflexivity.
    + reflexivity.
  - split; [reflexivity|]. split; [vm_compute; reflexivity|]. reflexivity.
Defined.

Lemma refreshed_lvs w w1 j d :
  only_refreshed w w1 ->
  devs w !! j = Some d ->
  exists d1, devs w1 !! j = Some d1 /\ _lvs d1 = _lvs d /\
             cls d1 = cls d /\ parents d1 = parents d.
Proof.
  intros Hr Hd. destruct (only_refreshed_lookup _ _ _ _ Hr Hd) as (d1 & Hd1 & [->|[_ ->]] & _).
  - eauto.
  - exists (refresh d). split; [exact Hd1|].
    unfold refresh. destruct (_partedDevice d); [destruct d; auto|].
    destruct (parted_probe d); destruct d; auto.
Qed.

Lemma addLogVol_check_refreshed fuel vg lv (l : Device) :
  preserves only_refreshed
    (if negb (py_true (exists_ l)) then
       let! g := query (fun m => growable req_grow fuel m vg) in
       if negb g && negb (is_thin (cls l)) then
         let! s := size_of fuel lv in
         let! f := freeSpace get_pool_padding fuel vg in
         ret (Py.gt s f)
       else ret false
     else ret false).
Proof.
  repeat first [ apply size_of_refreshed | apply freeSpace_refreshed | pres_step ].
Qed.

(** A successful [_addLogVol] of the volume group appends to its list. *)
Lemma vg_addLogVol_appends fuel vg lv w w' vd :
  devs w !! vg = Some vd ->
  LVMVolumeGroupDevice_addLogVol get_pool_padding req_grow fuel vg lv w = Return tt w' ->
  mem lv (_lvs vd) = false /\
  exists vd', devs w' !! vg = Some vd' /\ _lvs vd' = (_lvs vd ++ [lv])%list /\
    forall j d, j <> vg -> devs w !! j = Some d ->
      exists d', devs w' !! j = Some d' /\ _lvs d' = _lvs d /\
                 cls d' = cls d /\ parents d' = parents d.
Proof.
  intros Hv H. unfold LVMVolumeGroupDevice_addLogVol in H.
  unfold bind at 1 in H. rewrite (get_Return _ _ _ Hv) in H.
  destruct (mem lv (_lvs vd)) eqn:Hm; [discriminate|]. split; [reflexivity|].
  apply bind_Return in H. destruct H as (l & w0 & Hg & H).
  unfold get in Hg. destruct (devs w !! lv) as [l0|]; [|discriminate].
  inversion Hg; subst l0 w0. clear Hg.
  apply bind_Return in H. destruct H as (big & w1 & Hchk & H).
  pose proof (preserves_Return _ _ _ _ _ (addLogVol_check_refreshed fuel vg lv l) Hchk) as R1.
  destruct big.
  { apply bind_Return in H. destruct H as (n & w2 & _ & H). discriminate. }
  apply bind_Return in H. destruct H as (s & w2 & Hs & H).
  pose proof (preserves_Return _ _ _ _ _ (size_of_refreshed fuel lv) Hs) as R2.
  assert (R : only_refreshed w w2) by (etransitivity; eassumption).
  destruct (refreshed_lvs _ _ _ _ R Hv) as (vd2 & Hvd2 & Hl2 & _).
  rewrite (modify_Return _ _ _ _ Hvd2) in H. inversion H; subst w'. simpl.
  eexists. rewrite lookup_insert_eq. split; [reflexivity|].
  split; [rewrite <- Hl2; destruct vd2; reflexivity|].
  intros j d Hj Hd. rewrite lookup_insert_ne by congruence.
  exact (refreshed_lvs _ _ _ _ R Hd).
Qed.

(** X16: when [LVMThinPoolDevice._addLogVol] returns, the volume was in
    neither list before, and is now the last element of the list of the
    pool and of the list of the volume group, after what they held. *)
Theorem pool_addLogVol_enters_both (fuel pool lv vg : nat) (w w' : World)
    (pd vd : Device) :
  devs w !! pool = Some pd ->
  cls pd = LVMThinPoolDevice ->
  head (parents pd) = Some vg ->
  vg <> pool ->
  devs w !! vg = Some vd ->
  LVMThinPoolDevice_addLogVol get_pool_padding req_grow fuel pool lv w = Return tt w' ->
  mem lv (_lvs pd) = false /\ mem lv (_lvs vd) = false /\
  exists pd' vd',
    devs w' !! pool = Some pd' /\ _lvs pd' = (_lvs pd ++ [lv])%list /\
    devs w' !! vg = Some vd' /\ _lvs vd' = (_lvs vd ++ [lv])%list.
Proof.
  intros Hp Hc Hh Hne Hv H. unfold LVMThinPoolDevice_addLogVol in H.
  unfold bind at 1 in H. rewrite (get_Return _ _ _ Hp) in H.
  destruct (mem lv (_lvs pd)) eqn:Hm; [discriminate|]. split; [reflexivity|].
  assert (Hvg : the_vg pool w = Return vg w).
  { unfold the_vg, query. rewrite Hp. unfold vg_of. rewrite Hc, Hh. reflexivity. }
  unfold bind at 1 in H. rewrite Hvg in H.
  apply bind_Return in H. destruct H as ([] & w1 & Hadd & H).
  destruct (vg_addLogVol_appends _ _ _ _ _ _ Hv Hadd) as (Hmv & vd1 & Hvd1 & Hl1 & Hoth).
  split; [exact Hmv|].
  destruct (Hoth pool pd ltac:(congruence) Hp) as (pd1 & Hpd1 & Hlp1 & _).
  apply bind_Return in H. destruct H as (s & w2 & Hs & H).
  pose proof (preserves_Return _ _ _ _ _ (size_of_refreshed fuel lv) Hs) as R2.
  destruct (refreshed_lvs _ _ _ _ R2 Hpd1) as (pd2 & Hpd2 & Hlp2 & _).
  destruct (refreshed_lvs _ _ _ _ R2 Hvd1) as (vd2 & Hvd2 & Hlv2 & _).
  rewrite (modify_Return _ _ _ _ Hpd2) in H. inversion H; subst w'. simpl.
  exists (set_lvs (_lvs pd2 ++ [lv]) pd2), vd2.
  rewrite lookup_insert_eq. split; [reflexivity|].
  split; [rewrite Hlp2, Hlp1; destruct pd2; reflexivity|].
  rewrite lookup_insert_ne by congruence. split; [exact Hvd2|]. congruence.
Qed.

End LogicalVolumeLists.

Section LogicalVolumeListsWitness.
Import Members.

Lemma pool_addLogVol_enters_both_witness :
  exists w' pd' vd',
    LVMThinPoolDevice_addLogVol no_padding no_grow 4 2 3 thin_volume_request = Return tt w' /\
    devs w' !! 2%nat = Some pd' /\ _lvs pd' = [3%nat] /\
    devs w' !! 1%nat = Some vd' /\ _lvs vd' = [2%nat; 3%nat].
Proof.
  assert (Hrun : exists w',
            LVMThinPoolDevice_addLogVol no_padding no_grow 4 2 3 thin_volume_request
            = Return tt w') by (eexists; vm_compute; reflexivity).
  destruct Hrun as [w' Hrun].
  assert (Hvd : exists vd, devs thin_volume_request !! 1%nat = Some vd /\ _lvs vd = [2%nat])
    by (eexists; split; [vm_compute; reflexivity|reflexivity]).
  destruct Hvd as (vd & Hvd & Hlv).
  destruct (pool_addLogVol_enters_both no_padding no_grow 4 2 3 1 thin_volume_request w'
              (set_size (PInt 1000) (set_kids 1
                 (blank LVMThinPoolDevice "pool" [1%nat] (Some true)))) vd)
    as (_ & _ & pd' & vd' & Hp' & Hlp' & Hv' & Hlv').
  - reflexivity.
  - reflexivity.
  - reflexivity.
  - discriminate.
  - exact Hvd.
  - exact Hrun.
  - exists w', pd', vd'. split; [exact Hrun|]. split; [exact Hp'|].
    split; [exact Hlp'|]. split; [exact Hv'|]. rewrite Hlv', Hlv. reflexivity.
Defined.

End LogicalVolumeListsWitness.

(** ** dependsOn *)

Section DependsOn.
Import Members.

Variable isExtended isLogical : nat -> bool.

Lemma any_status_true f l :
  any_status f l = Some true -> exists x, In x l /\ f x = Some true.
Proof.
  induction l as [|y l IH]; simpl; [discriminate|].
  destruct (f y) as [[|]|] eqn:E; try discriminate.
  - intros _. exists y. auto.
  - intros H. destruct (IH H) as (x & Hx & Hf). exists x. auto.
Qed.

Lemma any_status_false f l :
  any_status f l = Some false -> forall x, In x l -> f x = Some false.
Proof.
  induction l as [|y l IH]; simpl; [contradiction|].
  destruct (f y) as [[|]|] eqn:E; try discriminate.
  intros H x [<-|Hx]; [exact E|]. apply IH; assumption.
Qed.

Lemma any_status_returns f l :
  (forall x, In x l -> is_Some (f x)) -> is_Some (any_status f l).
Proof.
  induction l as [|y l IH]; simpl; intros H; [eauto|].
  destruct (H y (or_introl eq_refl)) as [[|] ->]; [eauto|].
  apply IH. intros x Hx. apply H. right. exact Hx.
Qed.

Lemma dependsOn_sound fuel m dep : forall i,
  dependsOn isExtended isLogical fuel m i dep = Some true ->
  depends isExtended isLogical m dep i.
Proof.
  induction fuel as [|fuel IH]; intros i H; simpl in H; [discriminate|].
  destruct (m !! i) as [d|] eqn:Hd; [|discriminate].
  destruct (is_partition (cls d)) eqn:Hc.
  - destruct (logical_on_extended isExtended isLogical m d i dep) as [[|]|] eqn:Hl;
      [eapply depends_logical; eassumption| |discriminate].
    destruct (mem dep (parents d)) eqn:Hm.
    + eapply depends_direct; [eassumption|]. apply mem_In. exact Hm.
    + destruct (any_status_true _ _ H) as (p & Hp & Hf).
      eapply depends_parent; [eassumption|exact Hp|]. apply IH. exact Hf.
  - destruct (mem dep (parents d)) eqn:Hm.
    + eapply depends_direct; [eassumption|]. apply mem_In. exact Hm.
    + destruct (any_status_true _ _ H) as (p & Hp & Hf).
      eapply depends_parent; [eassumption|exact Hp|]. apply IH. exact Hf.
Qed.

Lemma dependsOn_complete m dep i :
  depends isExtended isLogical m dep i ->
  forall fuel, dependsOn isExtended isLogical fuel m i dep <> Some false.
Proof.
  induction 1 as [i d Hd Hin|i d Hd Hc Hl|i d p Hd Hin Hdep IH]; intros fuel;
    (destruct fuel as [|fuel]; simpl; [discriminate|]); rewrite Hd.
  - apply mem_In in Hin. rewrite Hin.
    destruct (is_partition (cls d)); [|discriminate].
    destruct (logical_on_extended _ _ m d i dep) as [[|]|]; discriminate.
  - rewrite Hc, Hl. discriminate.
  - intros H.
    assert (Hrest : (if mem dep (parents d) then Some true
                     else any_status (fun p => dependsOn isExtended isLogical fuel m p dep)
                                     (parents d)) = Some false).
    { destruct (is_partition (cls d)); [|exact H].
      destruct (logical_on_extended _ _ m d i dep) as [[|]|]; try discriminate. exact H. }
    destruct (mem dep (parents d)); [discriminate|].
    apply (IH fuel). exact (any_status_false _ _ Hrest p Hin).
Qed.

Lemma dependsOn_returns (rank : nat -> nat) m dep :
  is_Some (m !! dep) ->
  (forall j d p, m !! j = Some d -> In p (parents d) ->
     is_Some (m !! p) /\ (rank p < rank j)%nat) ->
  forall fuel i, is_Some (m !! i) -> (rank i < fuel)%nat ->
    is_Some (dependsOn isExtended isLogical fuel m i dep).
Proof.
  intros [dd Hdd] Hwf. induction fuel as [|fuel IH]; intros i [d Hd] Hr; [lia|].
  simpl. rewrite Hd.
  assert (Hrest : is_Some (if mem dep (parents d) then Some true
                     else any_status (fun p => dependsOn isExtended isLogical fuel m p dep)
                                     (parents d))).
  { destruct (mem dep (parents d)); [eauto|].
    apply any_status_returns. intros p Hp.
    destruct (Hwf i d p Hd Hp) as [Hs Hlt]. apply IH; [exact Hs|lia]. }
  destruct (is_partition (cls d)); [|exact Hrest].
  unfold logical_on_extended. rewrite Hdd.
  destruct (_ && _ && _ && _); [eauto|exact Hrest].
Qed.

(** X17: on a graph whose parents are present and acyclic (a rank
    decreases along them), [dependsOn] returns, and returns true exactly
    when [dep] is reached along parents or some device reached, the device
    itself included, is a logical partition on the disk of the extended
    partition [dep]. *)
Theorem dependsOn_decides_ancestry (rank : nat -> nat) (m : gmap nat Device)
    (fuel i dep : nat) :
  is_Some (m !! i) ->
  is_Some (m !! dep) ->
  (forall j d p, m !! j = Some d -> In p (parents d) ->
     is_Some (m !! p) /\ (rank p < rank j)%nat) ->
  (rank i < fuel)%nat ->
  exists b, dependsOn isExtended isLogical fuel m i dep = Some b /\
            (b = true <-> depends isExtended isLogical m dep i).
Proof.
  intros Hi Hdep Hwf Hr.
  destruct (dependsOn_returns rank m dep Hdep Hwf fuel i Hi Hr) as [b Hb].
  exists b. split; [exact Hb|]. split.
  - intros ->. eapply dependsOn_sound. exact Hb.
  - intros H. destruct b; [reflexivity|].
    exfalso. exact (dependsOn_complete m dep i H fuel Hb).
Qed.

End DependsOn.

Section DependsOnWitness.
Import Members.

Lemma dependsOn_decides_ancestry_witness :
  dependsOn (fun _ => false) (fun _ => false) 4 (devs pool_with_thin_volume) 3 0 = Some true /\
  depends (fun _ => false) (fun _ => false) (devs pool_with_thin_volume) 0 3 /\
  dependsOn (fun _ => false) (fun _ => false) 4 (devs pool_with_thin_volume) 0 3 = Some false /\
  ~ depends (fun _ => false) (fun _ => false) (devs pool_with_thin_volume) 3 0.
Proof.
  assert (Hwf : forall j d p, devs pool_with_thin_volume !! j = Some d -> In p (parents d) ->
            is_Some (devs pool_with_thin_volume !! p) /\ (id p < id j)%nat).
  { intros j d p Hj Hp.
    destruct (decide (j = 0%nat)) as [->|H0];
      [vm_compute in Hj; inversion Hj; subst d; destruct Hp|].
    destruct (decide (j = 1%nat)) as [->|H1];
      [vm_compute in Hj; inversion Hj; subst d; destruct Hp as [<-|[]];
       split; [vm_compute; eauto|unfold id; lia]|].
    destruct (decide (j = 2%nat)) as [->|H2];
      [vm_compute in Hj; inversion Hj; subst d; destruct Hp as [<-|[]];
       split; [vm_compute; eauto|unfold id; lia]|].
    destruct (decide (j = 3%nat)) as [->|H3];
      [vm_compute in Hj; inversion Hj; subst d; destruct Hp as [<-|[]];
       split; [vm_compute; eauto|unfold id; lia]|].
    exfalso. unfold pool_with_thin_volume, world_of in Hj. simpl in Hj.
    rewrite !lookup_insert_ne in Hj by congruence. rewrite lookup_empty in Hj.
    discriminate. }
  destruct (dependsOn_decides_ancestry (fun _ => false) (fun _ => false) id
              (devs pool_with_thin_volume) 4 3 0) as (b & Hb & Hiff).
  - vm_compute. eauto.
  - vm_compute. eauto.
  - exact Hwf.
  - unfold id. lia.
  - destruct (dependsOn_decides_ancestry (fun _ => false) (fun _ => false) id
                (devs pool_with_thin_volume) 4 0 3) as (b' & Hb' & Hiff').
    + vm_compute. eauto.
    + vm_compute. eauto.
    + exact Hwf.
    + unfold id. lia.
    + assert (E : b = true) by (vm_compute in Hb; congruence).
      assert (E' : b' = false) by (vm_compute in Hb'; congruence).
      subst b b'. split; [exact Hb|]. split; [apply Hiff; reflexivity|].
      split; [exact Hb'|]. intros H. apply Hiff' in H. discriminate.
Defined.

End DependsOnWitness.

(** ** Paths and names *)

Section NamesFacts.
Import Names.

Lemma devicePathToName_dev n :
  devicePathToName ("/dev/" ++ n)
  = if startswith n "mapper/" then drop_chars 7 n else n.
Proof. reflexivity. Qed.

Lemma devicePathToName_mapper n : devicePathToName ("/dev/mapper/" ++ n) = n.
Proof. reflexivity. Qed.

Lemma path_of_parts m d p :
  path_of m d = Some p ->
  exists dir n, node_dir m d = Some dir /\ node_name m d = Some n /\
                p = dir ++ "/" ++ n /\ (dir = "/dev" \/ dir = "/dev/mapper").
Proof.
  unfold path_of, node_dir, node_name.
  destruct (cls d) eqn:Hc.
  - intros H; inversion H. exists "/dev", (_name d). auto.
  - destruct (parents d) as [|q l].
    + intros H; inversion H. exists "/dev", (_name d). auto.
    + destruct (m !! q) as [pd|]; [|discriminate].
      intros H; inversion H. exists (_devDir (cls pd)), (_name d).
      repeat split; try reflexivity. destruct (cls pd); auto.
  - destruct (mapName m d) as [n|]; [|discriminate].
    intros H; inversion H. exists "/dev/mapper", n. auto.
  - destruct (mapName m d) as [n|]; [|discriminate].
    intros H; inversion H. exists "/dev/mapper", n. auto.
  - destruct (mapName m d) as [n|]; [|discriminate].
    intros H; inversion H. exists "/dev/mapper", n. auto.
  - destruct (mapName m d) as [n|]; [|discriminate].
    intros H; inversion H. exists "/dev/mapper", n. auto.
Qed.

(** X18: [devicePathToName] gives back the last component of the path of
    a device: the map name for a device under [/dev/mapper], the name for
    a device under [/dev], unless that name itself starts with [mapper/],
    which is then cut off as well. *)
Theorem devicePathToName_of_path (m : gmap nat Device) (d : Device) (p : string) :
  path_of m d = Some p ->
  exists dir n, node_dir m d = Some dir /\ node_name m d = Some n /\
    p = dir ++ "/" ++ n /\
    (dir = "/dev/mapper" -> devicePathToName p = n) /\
    (dir = "/dev" -> startswith n "mapper/" = false -> devicePathToName p = n) /\
    (dir = "/dev" -> startswith n "mapper/" = true ->
       devicePathToName p = drop_chars 7 n).
Proof.
  intros H. destruct (path_of_parts m d p H) as (dir & n & Hdir & Hn & -> & Hd).
  exists dir, n. split; [exact Hdir|]. split; [exact Hn|]. split; [reflexivity|].
  split; [|split].
  - intros ->. apply devicePathToName_mapper.
  - intros -> Hs. change ("/dev" ++ "/" ++ n) with ("/dev/" ++ n).
    rewrite devicePathToName_dev, Hs. reflexivity.
  - intros -> Hs. change ("/dev" ++ "/" ++ n) with ("/dev/" ++ n).
    rewrite devicePathToName_dev, Hs. reflexivity.
Qed.

Lemma devicePathToName_of_path_witness :
  exists p, path (3%nat) pool_with_thin_volume = Return p pool_with_thin_volume /\
    p = "/dev/mapper/vg-thin" /\ devicePathToName p = "vg-thin".
Proof.
  exists "/dev/mapper/vg-thin". split; [reflexivity|]. split; [reflexivity|].
  destruct (devicePathToName_of_path (devs pool_with_thin_volume)
              (set_size (PInt 500)
                 (blank LVMThinLogicalVolumeDevice "thin" [2%nat] (Some false)))
              "/dev/mapper/vg-thin")
    as (dir & n & Hdir & Hn & _ & Hm & _).
  - reflexivity.
  - vm_compute in Hdir. vm_compute in Hn. inversion Hdir; inversion Hn; subst.
    apply Hm. reflexivity.
Defined.

Lemma replace_dash_injective a : forall b, replace_dash a = replace_dash b -> a = b.
Proof.
  induction a as [|c a IH]; intros [|e b]; simpl.
  - reflexivity.
  - destruct (Ascii.eqb e "-"); discriminate.
  - destruct (Ascii.eqb c "-"); discriminate.
  - destruct (Ascii.eqb_spec c "-") as [->|Hc], (Ascii.eqb_spec e "-") as [->|He];
      intros H; inversion H; subst.
    + f_equal. apply IH. assumption.
    + contradiction.
    + contradiction.
    + f_equal. apply IH. assumption.
Qed.

(** X19: two volume groups with the same path have the same name: the
    doubling of dashes in [mapName] loses nothing. *)
Theorem volume_groups_have_distinct_paths (m : gmap nat Device) (d1 d2 : Device)
    (p : string) :
  cls d1 = LVMVolumeGroupDevice ->
  cls d2 = LVMVolumeGroupDevice ->
  path_of m d1 = Some p ->
  path_of m d2 = Some p ->
  _name d1 = _name d2.
Proof.
  unfold path_of, mapName. intros -> ->. simpl.
  intros H1 H2. rewrite <- H2 in H1. inversion H1.
  apply replace_dash_injective. assumption.
Qed.

Lemma volume_groups_have_distinct_paths_witness :
  path_of (devs pool_with_thin_volume)
    (blank LVMVolumeGroupDevice "my-vg" [] (Some false)) = Some "/dev/mapper/my--vg" /\
  _name (blank LVMVolumeGroupDevice "my-vg" [] (Some false))
  = _name (blank LVMVolumeGroupDevice "my-vg" [0%nat] (Some true)).
Proof.
  split; [reflexivity|].
  apply (volume_groups_have_distinct_paths (devs pool_with_thin_volume) _ _
           "/dev/mapper/my--vg"); reflexivity.
Defined.

End NamesFacts.

(** ** Required packages *)

Section PackagesFacts.
Import Packages.

Variable format_packages : nat -> list string.

Lemma contents_store k k' l s :
  contents k' (store k l s) = if decide (k' = k) then l else contents k' s.
Proof. destruct k, k'; reflexivity. Qed.

Lemma extends_refl s : extends s s.
Proof. intros k. exists []. rewrite app_nil_r. reflexivity. Qed.

Lemma extends_trans s1 s2 s3 : extends s1 s2 -> extends s2 s3 -> extends s1 s3.
Proof.
  intros H1 H2 k. destruct (H1 k) as [t1 E1], (H2 k) as [t2 E2].
  exists (t1 ++ t2)%list. rewrite E2, E1, app_assoc. reflexivity.
Qed.

Lemma extends_store k t s : extends s (store k (contents k s ++ t) s).
Proof.
  intros k'. rewrite contents_store. destruct (decide (k' = k)) as [->|].
  - exists t. reflexivity.
  - exists []. rewrite app_nil_r. reflexivity.
Qed.

Lemma append_absent_extends k pkgs : forall s, extends s (append_absent k pkgs s).
Proof.
  unfold append_absent. induction pkgs as [|p pkgs IH]; intros s; simpl.
  - apply extends_refl.
  - eapply extends_trans; [|apply IH].
    destruct (existsb _ _); [apply extends_refl|apply extends_store].
Qed.

Lemma fold_append_absent_extends k (f : nat -> list string) ps :
  forall s, extends s (fold_left (fun s p => append_absent k (f p) s) ps s).
Proof.
  induction ps as [|p ps IH]; intros s; simpl.
  - apply extends_refl.
  - eapply extends_trans; [apply append_absent_extends|apply IH].
Qed.

(** The value of a read: the class list has grown, and by the packages
    of the format at least. *)
Lemma packages_grow fuel m : forall i s k s',
  packages format_packages fuel m i s = Some (k, s') ->
  extends s s' /\
  exists d t1 t2, m !! i = Some d /\ k = _packages (cls d) /\
    contents k s' = (contents k s ++ t1 ++ format_packages i ++ t2)%list.
Proof.
  induction fuel as [|fuel IH]; intros i s k s' H; simpl in H; [discriminate|].
  destruct (m !! i) as [d|] eqn:Hd; [|discriminate].
  set (k0 := _packages (cls d)) in *.
  assert (Hloop : forall ps s0 s1,
    (fix over_parents (ps : list nat) (s : ClassLists) : option ClassLists :=
       match ps with
       | [] => Some s
       | p :: ps' =>
           match packages format_packages fuel m p s with
           | None => None
           | Some (kp, s1) => over_parents ps' (append_absent k0 (contents kp s1) s1)
           end
       end) ps s0 = Some s1 -> extends s0 s1).
  { induction ps as [|p ps IHps]; intros s0 s1 E.
    - inversion E. apply extends_refl.
    - destruct (packages format_packages fuel m p s0) as [[kp s2]|] eqn:Ep; [|discriminate].
      destruct (IH _ _ _ _ Ep) as [Hx _].
      eapply extends_trans; [exact Hx|].
      eapply extends_trans; [apply append_absent_extends|]. apply IHps. exact E. }
  match type of H with
  | match ?loop with _ => _ end = _ => destruct loop as [s1|] eqn:El; [|discriminate]
  end.
  inversion H; subst k s'. clear H.
  pose proof (Hloop _ _ _ El) as X1.
  pose proof (extends_store k0 (format_packages i) s1) as X2.
  pose proof (fold_append_absent_extends k0 format_packages (parents d)
                (store k0 (contents k0 s1 ++ format_packages i) s1)) as X3.
  split.
  - eapply extends_trans; [exact X1|]. eapply extends_trans; [exact X2|exact X3].
  - exists d. destruct (X1 k0) as [t1 E1], (X3 k0) as [t2 E3].
    exists t1, t2. split; [reflexivity|]. split; [reflexivity|].
    rewrite E3, contents_store. destruct (decide (k0 = k0)); [|congruence].
    rewrite E1, <- !app_assoc. reflexivity.
Qed.

(** X20: [packages] returns, and extends, the list that is an attribute
    of the class.  After a read on the device [i], a read on a device [j]
    whose class shares that list still holds every package of the format
    of [i]; and a second read on [i] itself holds each of them at least
    twice, since [extend] adds them once more. *)
Theorem packages_accumulate (fuel fuel' : nat) (m : gmap nat Device) (i j : nat)
    (s s1 s2 : ClassLists) (k : PackageList) :
  packages format_packages fuel m i s = Some (k, s1) ->
  packages format_packages fuel' m j s1 = Some (k, s2) ->
  forall x, In x (format_packages i) ->
    In x (contents k s2) /\
    (j = i -> (2 <= count_occ string_dec (contents k s2) x)%nat).
Proof.
  intros H1 H2 x Hx.
  destruct (packages_grow _ _ _ _ _ _ H1) as (_ & d & t1 & t2 & _ & _ & E1).
  destruct (packages_grow _ _ _ _ _ _ H2) as (_ & d' & t1' & t2' & _ & _ & E2).
  rewrite E2, E1. split.
  - rewrite !in_app_iff. auto 10.
  - intros ->. rewrite !count_occ_app.
    assert (Hc : (1 <= count_occ string_dec (format_packages i) x)%nat)
      by (apply count_occ_In; exact Hx).
    lia.
Qed.

End PackagesFacts.

Section PackagesWitness.
Import Packages.

Lemma packages_accumulate_witness :
  exists s1 s2 s3,
    packages ext4_on_sda1 3 (devs (disk_and_request (Some true) (Some true))) 1 at_import
    = Some (Device_packages, s1) /\
    packages ext4_on_sda1 3 (devs (disk_and_request (Some true) (Some true))) 1 s1
    = Some (Device_packages, s2) /\
    contents Device_packages s2 = ["e2fsprogs"; "e2fsprogs"] /\
    packages ext4_on_sda1 3 (devs (disk_and_request (Some true) (Some true))) 0 s1
    = Some (Device_packages, s3) /\
    In "e2fsprogs" (contents Device_packages s3).
Proof.
  eexists. eexists. eexists.
  split; [vm_compute; reflexivity|].
  split; [vm_compute; reflexivity|].
  split; [reflexivity|].
  split; [vm_compute; reflexivity|].
  eapply (packages_accumulate ext4_on_sda1 3 3
            (devs (disk_and_request (Some true) (Some true))) 1 0 at_import
            _ _ Device_packages).
  - vm_compute. reflexivity.
  - vm_compute. reflexivity.
  - left. reflexivity.
Defined.

End PackagesWitness.

(** ** Reads, and setting up after other calls *)

Section SilentReads.
Import Outcomes Members.

Variable get_pool_padding : num -> num -> res num.

(** X21: reading [size], [vgSpaceUsed] or [freeSpace] makes no external
    call that changes anything, whether the read returns or raises: the
    trace is unchanged, and every object is unchanged or, when it exists,
    has its stored size and cached parted device refreshed; target sizes
    and existence flags stay. *)
Theorem size_reads_are_silent (fuel i : nat) (w w' : World) :
  final (size_of fuel i w) = Some w' \/
  final (vgSpaceUsed get_pool_padding fuel i w) = Some w' \/
  final (freeSpace get_pool_padding fuel i w) = Some w' ->
  trace w' = trace w /\ commit_ok w' = commit_ok w /\
  forall j d, devs w !! j = Some d ->
    exists d', devs w' !! j = Some d' /\
      (d' = d \/ (py_true (exists_ d) = true /\ d' = refresh d)) /\
      _targetSize d' = _targetSize d /\ exists_ d' = exists_ d.
Proof.
  intros H.
  assert (R : only_refreshed w w').
  { destruct H as [H|[H|H]].
    - pose proof (size_of_refreshed fuel i w) as P.
      destruct (size_of fuel i w); simpl in H; inversion H; subst; exact P.
    - pose proof (vgSpaceUsed_refreshed get_pool_padding fuel i w) as P.
      destruct (vgSpaceUsed _ fuel i w); simpl in H; inversion H; subst; exact P.
    - pose proof (freeSpace_refreshed get_pool_padding fuel i w) as P.
      destruct (freeSpace _ fuel i w); simpl in H; inversion H; subst; exact P. }
  destruct R as (Ht & Hc & Hp & Hr). split; [exact Ht|]. split; [exact Hc|].
  intros j d Hd. apply (only_refreshed_lookup w w' j d); [|exact Hd].
  repeat split; assumption.
Qed.

End SilentReads.

Section SilentReadsWitness.
Import Outcomes Members.

Lemma size_reads_are_silent_witness :
  exists w' d',
    freeSpace no_padding 4 1 active_volume = Return (PInt 1000) w' /\
    trace w' = [] /\
    devs w' !! 2%nat = Some d' /\ _size d' = PInt 1000 /\ _targetSize d' = PInt 500.
Proof.
  assert (Hrun : exists w', freeSpace no_padding 4 1 active_volume = Return (PInt 1000) w')
    by (eexists; vm_compute; reflexivity).
  destruct Hrun as [w' Hrun].
  destruct (size_reads_are_silent no_padding 4 1 active_volume w') as (Ht & _ & Hl).
  - right. right. rewrite Hrun. reflexivity.
  - assert (Hd : exists d, devs active_volume !! 2%nat = Some d /\
                           _targetSize d = PInt 500)
      by (eexists; split; [vm_compute; reflexivity|reflexivity]).
    destruct Hd as (d & Hd & Hts).
    destruct (Hl 2%nat d Hd) as (d' & Hd' & _ & Hts' & _).
    exists w', d'. split; [exact Hrun|]. split; [exact Ht|]. split; [exact Hd'|].
    split; [|congruence].
    vm_compute in Hrun. inversion Hrun; subst w'. vm_compute in Hd'.
    inversion Hd'; subst d'. reflexivity.
Defined.

End SilentReadsWitness.

Section AfterDestroy.
Import Outcomes Members.

Lemma modify_lookup i f w w' :
  modify i f w = Return tt w' ->
  exists d, devs w !! i = Some d /\ devs w' !! i = Some (f d).
Proof.
  unfold modify. destruct (devs w !! i) as [d|]; [|discriminate].
  intros H; inversion H. exists d. simpl. rewrite lookup_insert_eq. auto.
Qed.

(** X22: after a [destroy] that returns and has marked the device (for a
    partition: one with a sysfs path), the existence flag is False and
    every later [setup] of the device raises DeviceError (device has not
    been created). *)
Theorem destroyed_device_cannot_be_set_up (fuel i : nat) (w w' : World) (d : Device) :
  devs w !! i = Some d ->
  StorageDevice_destroy i w = Return tt w' \/
  (sysfsPath d <> "" /\ PartitionDevice_destroy fuel i w = Return tt w') \/
  LVMLogicalVolumeDevice_destroy fuel i w = Return tt w' ->
  exists d', devs w' !! i = Some d' /\ exists_ d' = Some false /\
    forall fuel' orig n, name_of (devs w') d' = Some n ->
      setup (S fuel') i orig w' = Throw (DeviceError "device has not been created" n) w'.
Proof.
  intros Hd H.
  assert (Hlast : exists w0, modify i (set_exists (Some false)) w0 = Return tt w').
  { destruct H as [H|[[Hs H]|H]].
    - unfold StorageDevice_destroy in H. unfold bind at 1 in H.
      rewrite (get_Return _ _ _ Hd) in H.
      destruct (negb (py_true (exists_ d))).
      { apply bind_Return in H. destruct H as (? & ? & _ & H). discriminate. }
      destruct (negb (isleaf d)).
      { apply bind_Return in H. destruct H as (? & ? & _ & H). discriminate. }
      eauto.
    - unfold PartitionDevice_destroy in H. unfold bind at 1 in H.
      rewrite (get_Return _ _ _ Hd) in H.
      destruct (negb (py_true (exists_ d))).
      { apply bind_Return in H. destruct H as (? & ? & _ & H). discriminate. }
      destruct (String.eqb_spec (sysfsPath d) ""); [contradiction|].
      destruct (negb (isleaf d)).
      { apply bind_Return in H. destruct H as (? & ? & _ & H). discriminate. }
      apply bind_Return in H. destruct H as (? & ? & _ & H).
      apply bind_Return in H. destruct H as (? & ? & _ & H).
      apply bind_Return in H. destruct H as (? & ? & _ & H).
      apply bind_Return in H. destruct H as (? & ? & _ & H).
      eauto.
    - unfold LVMLogicalVolumeDevice_destroy in H. unfold bind at 1 in H.
      rewrite (get_Return _ _ _ Hd) in H.
      destruct (negb (py_true (exists_ d))).
      { apply bind_Return in H. destruct H as (? & ? & _ & H). discriminate. }
      apply bind_Return in H. destruct H as (? & ? & _ & H).
      apply bind_Return in H. destruct H as (? & ? & _ & H).
      apply bind_Return in H. destruct H as (? & ? & _ & H).
      apply bind_Return in H. destruct H as (? & ? & _ & H).
      apply bind_Return in H. destruct H as (? & ? & _ & H).
      apply bind_Return in H. destruct H as (? & ? & _ & H).
      eauto. }
  destruct Hlast as [w0 Hm]. destruct (modify_lookup _ _ _ _ Hm) as (d0 & _ & Hd').
  exists (set_exists (Some false) d0). split; [exact Hd'|].
  split; [destruct d0; reflexivity|].
  intros fuel' orig n Hn.
  apply (setup_not_created fuel' i orig w' _ n Hd'); [destruct d0; reflexivity|exact Hn].
Qed.

Lemma destroyed_device_cannot_be_set_up_witness :
  exists w' d',
    LVMLogicalVolumeDevice_destroy 5 2 active_volume = Return tt w' /\
    devs w' !! 2%nat = Some d' /\ exists_ d' = Some false /\
    setup 3 2 false w' = Throw (DeviceError "device has not been created" "vg-root") w'.
Proof.
  assert (Hrun : exists w', LVMLogicalVolumeDevice_destroy 5 2 active_volume = Return tt w')
    by (eexists; vm_compute; reflexivity).
  destruct Hrun as [w' Hrun].
  assert (Hd : exists d, devs active_volume !! 2%nat = Some d)
    by (eexists; vm_compute; reflexivity).
  destruct Hd as (d & Hd).
  destruct (destroyed_device_cannot_be_set_up 5 2 active_volume w' d Hd) as (d' & Hd' & He & Hs).
  - right. right. exact Hrun.
  - exists w', d'. split; [exact Hrun|]. split; [exact Hd'|]. split; [exact He|].
    apply Hs. vm_compute in Hrun. inversion Hrun; subst w'.
    vm_compute in Hd'. inversion Hd'; subst d'. reflexivity.
Defined.

End AfterDestroy.

Section SetupTwice.
Import Outcomes Members.

#[local] Instance same_activity_preorder : PreOrder same_activity.
Proof.
  split.
  - intros d. repeat split.
  - intros d1 d2 d3 (A1 & A2 & A3) (B1 & B2 & B3). repeat split; congruence.
Qed.

Lemma partedDevice_activity fuel i :
  preserves (keeps same_activity) (partedDevice fuel i).
Proof.
  unfold partedDevice. repeat pres_step.
  apply preserves_modify_keeps; [typeclasses eauto|]. intros x. destruct x; repeat split.
Qed.

Lemma currentSize_activity fuel i :
  preserves (keeps same_activity) (currentSize fuel i).
Proof.
  unfold currentSize. pres_step; [pres_step|]. pres_step; [|pres_step].
  pres_step; [apply partedDevice_activity|]. repeat pres_step.
Qed.

(** X23: when [setup] of a logical volume returns, the volume is active
    and exists as before, and a second [setup] returns at once without
    another call. *)
Theorem lv_setup_twice (fuel i : nat) (orig : bool) (w w1 : World) (d : Device) :
  devs w !! i = Some d ->
  is_lv (cls d) = true ->
  setup (S fuel) i orig w = Return tt w1 ->
  setup (S fuel) i orig w1 = Return tt w1 /\
  exists d1, devs w1 !! i = Some d1 /\ node_active d1 = true /\ exists_ d1 = exists_ d.
Proof.
  intros Hd Hc H.
  assert (Hs : forall w0 d0, devs w0 !! i = Some d0 -> cls d0 = cls d ->
            setup (S fuel) i orig w0
            = LVMLogicalVolumeDevice_setup fuel (setup fuel) i orig w0).
  { intros w0 d0 Hd0 Hc0. cbn [setup]. unfold bind at 1.
    rewrite (get_Return _ _ _ Hd0), Hc0. destruct (cls d); try discriminate; reflexivity. }
  (* an existing, active volume is left as it is *)
  assert (Hactive : forall w0 d0, devs w0 !! i = Some d0 -> cls d0 = cls d ->
            py_true (exists_ d0) = true -> node_active d0 = true -> (0 < fuel)%nat ->
            setup (S fuel) i orig w0 = Return tt w0).
  { intros w0 d0 Hd0 Hc0 He0 Hn0 Hf. rewrite (Hs w0 d0 Hd0 Hc0).
    unfold LVMLogicalVolumeDevice_setup. unfold bind at 1.
    rewrite (get_Return _ _ _ Hd0), He0. change (negb true) with false. cbv beta iota.
    unfold bind at 1. unfold status, query.
    destruct fuel as [|f]; [lia|]. cbn [status_of]. rewrite Hd0, Hc0.
    destruct (cls d); try discriminate; rewrite Hn0; reflexivity. }
  rewrite (Hs w d Hd eq_refl) in H.
  unfold LVMLogicalVolumeDevice_setup in H. unfold bind at 1 in H.
  rewrite (get_Return _ _ _ Hd) in H.
  destruct (py_true (exists_ d)) eqn:He.
  2:{ simpl in H. apply bind_Return in H. destruct H as (? & ? & _ & H). discriminate. }
  change (negb true) with false in H. cbv beta iota in H.
  apply bind_Return in H. destruct H as (st & w0 & Hst & H).
  unfold status, query in Hst.
  destruct (status_of fuel (devs w) i) as [st0|] eqn:Est; [|discriminate].
  inversion Hst; subst st0 w0. clear Hst.
  assert (Hf : (0 < fuel)%nat) by (destruct fuel; [discriminate|lia]).
  destruct st.
  - (* already active *)
    inversion H; subst w1.
    assert (Hn : node_active d = true).
    { destruct fuel as [|f]; [lia|]. cbn [status_of] in Est. rewrite Hd in Est.
      destruct (cls d); try discriminate; congruence. }
    split; [apply (Hactive w d Hd eq_refl He Hn Hf)|]. eauto.
  - apply bind_Return in H. destruct H as (vg & wa & Hvg & H).
    apply bind_Return in H. destruct H as (vgd & wb & Hvgd & H).
    apply bind_Return in H. destruct H as ([] & wc & Hsetup & H).
    apply bind_Return in H. destruct H as ([] & wd & Hact & H).
    apply bind_Return in H. destruct H as (cs & we & Hcs & H).
    unfold the_vg in Hvg. apply query_Return_same in Hvg. subst wa.
    unfold the_vg_dev in Hvgd. apply query_Return_same in Hvgd. subst wb.
    (* the volume group's setup keeps the volume what it is *)
    pose proof (preserves_Return _ _ _ _ _ (setup_keeps fuel vg orig) Hsetup) as K1.
    destruct (keeps_lookup _ _ _ _ _ K1 Hd) as (dc & Hdc & Pc).
    destruct (same_but_probe_fields _ _ Pc) as (_ & Hec & Hcc & _).
    (* activation *)
    unfold lvactivate in Hact.
    apply bind_Return in Hact. destruct Hact as ([] & wc' & Hemit & Hact).
    unfold emit in Hemit. inversion Hemit; subst wc'. clear Hemit.
    destruct (modify_lookup _ _ _ _ Hact) as (dc' & Hdc' & Hdd).
    simpl in Hdc'. rewrite Hdc in Hdc'. inversion Hdc'; subst dc'. clear Hdc'.
    (* the size is read and stored *)
    pose proof (preserves_Return _ _ _ _ _ (currentSize_activity fuel i) Hcs) as K2.
    destruct (keeps_lookup _ _ _ _ _ K2 Hdd) as (de & Hde & (Ce & Ee & Ne)).
    destruct (modify_lookup _ _ _ _ H) as (de' & Hde' & Hd1).
    rewrite Hde in Hde'. inversion Hde'; subst de'. clear Hde'.
    assert (F1 : cls (set_size cs de) = cls d)
      by (destruct de, dc; simpl in *; congruence).
    assert (F2 : exists_ (set_size cs de) = exists_ d)
      by (destruct de, dc; simpl in *; congruence).
    assert (F3 : node_active (set_size cs de) = true)
      by (destruct de, dc; simpl in *; congruence).
    split.
    + apply (Hactive w1 _ Hd1 F1); [rewrite F2; exact He|exact F3|exact Hf].
    + eauto.
Qed.

Lemma lv_setup_twice_witness :
  exists w1 d1,
    setup 4 2 false pool_with_thin_volume = Return tt w1 /\
    setup 4 2 false w1 = Return tt w1 /\
    devs w1 !! 2%nat = Some d1 /\ node_active d1 = true /\
    trace w1 = [LvActivate "vg" "pool"].
Proof.
  assert (Hrun : exists w1, setup 4 2 false pool_with_thin_volume = Return tt w1)
    by (eexists; vm_compute; reflexivity).
  destruct Hrun as [w1 Hrun].
  destruct (lv_setup_twice 3 2 false pool_with_thin_volume w1
              (set_size (PInt 1000) (set_kids 1
                 (blank LVMThinPoolDevice "pool" [1%nat] (Some true)))))
    as (H2 & d1 & Hd1 & Hn & _).
  - reflexivity.
  - reflexivity.
  - exact Hrun.
  - exists w1, d1. split; [exact Hrun|]. split; [exact H2|]. split; [exact Hd1|].
    split; [exact Hn|]. vm_compute in Hrun. inversion Hrun. reflexivity.
Defined.

End SetupTwice.

Section Teardown.
Import Outcomes Members.

Lemma never_raises_bind {A B} (m : M A) (k : A -> M B) :
  never_raises m -> (forall a, never_raises (k a)) -> never_raises (bind m k).
Proof.
  intros Hm Hk w e w'. unfold bind. destruct (m w) as [a w1|e1 w1|] eqn:E.
  - apply Hk.
  - exfalso. exact (Hm _ _ _ E).
  - discriminate.
Qed.

Lemma never_raises_ret {A} (a : A) : never_raises (ret a).
Proof. intros w e w'. discriminate. Qed.

Lemma never_raises_query {A} (f : gmap nat Device -> option A) : never_raises (query f).
Proof. intros w e w'. unfold query. destruct (f (devs w)); discriminate. Qed.

Lemma never_raises_get i : never_raises (get i).
Proof. intros w e w'. unfold get. destruct (devs w !! i); discriminate. Qed.

Lemma never_raises_emit ev : never_raises (emit ev).
Proof. intros w e w'. discriminate. Qed.

Lemma never_raises_modify i f : never_raises (modify i f).
Proof. intros w e w'. unfold modify. destruct (devs w !! i); discriminate. Qed.

(** X24: [LVMLogicalVolumeDevice.teardown] with [recursive] true raises
    nothing of its own, whether the volume exists or not, and lets nothing
    through that the teardown of the volume group raises; without
    [recursive] it raises DeviceError (device has not been created) on a
    volume that does not exist. *)
Theorem recursive_teardown_never_raises (fuel i : nat) (teardown : nat -> bool -> M unit) :
  never_raises (LVMLogicalVolumeDevice_teardown fuel teardown i true) /\
  forall w d n, devs w !! i = Some d -> name_of (devs w) d = Some n ->
    py_true (exists_ d) = false ->
    LVMLogicalVolumeDevice_teardown fuel teardown i false w
    = Throw (DeviceError "device has not been created" n) w.
Proof.
  split.
  - unfold LVMLogicalVolumeDevice_teardown.
    apply never_raises_bind; [apply never_raises_get|]. intros d.
    rewrite andb_false_r.
    apply never_raises_bind; [apply never_raises_query|]. intros st.
    apply never_raises_bind.
    { destruct st; [|apply never_raises_ret].
      apply never_raises_bind;
        [destruct (format_exists _); [apply never_raises_emit|apply never_raises_ret]|].
      intros _. apply never_raises_bind;
        [destruct (format_exists _); [apply never_raises_emit|apply never_raises_ret]|].
      intros _. apply never_raises_emit. }
    intros _. apply never_raises_bind; [apply never_raises_query|]. intros st'.
    apply never_raises_bind; [apply never_raises_query|]. intros vg.
    apply never_raises_bind; [apply never_raises_query|]. intros vgd.
    apply never_raises_bind.
    { destruct st'; [|apply never_raises_ret].
      unfold lvdeactivate. apply never_raises_bind; [apply never_raises_emit|].
      intros _. apply never_raises_modify. }
    intros _ w e w'. destruct (teardown vg true w); discriminate.
  - intros w d n Hd Hn He. unfold LVMLogicalVolumeDevice_teardown, bind.
    rewrite (get_Return _ _ _ Hd), He. simpl.
    rewrite (name_Return _ _ _ _ Hd Hn). reflexivity.
Qed.

End Teardown.

(** ** Classes whose [create] leaves the existence flag alone *)

Section UnmarkedCreate.
Import Py Storage Members.
Local Open Scope m_scope.

Lemma setupParents_keeps fuel i orig :
  preserves (keeps same_but_probe) (setupParents (setup fuel) i orig).
Proof.
  unfold setupParents. apply preserves_bind; [typeclasses eauto| |intros a].
  - apply preserves_get; typeclasses eauto.
  - apply preserves_for_each; [typeclasses eauto|]. intros x. apply setup_keeps.
Qed.

Lemma createParents_keeps i : preserves (keeps same_but_probe) (createParents i).
Proof.
  unfold createParents. apply preserves_bind; [typeclasses eauto| |intros d].
  - apply preserves_get; typeclasses eauto.
  - apply preserves_for_each; [typeclasses eauto|]. intros p.
    apply preserves_bind; [typeclasses eauto| |intros pd].
    + apply preserves_get; typeclasses eauto.
    + destruct (negb (py_true (exists_ pd))).
      * apply preserves_bind; [typeclasses eauto| |intros n].
        -- apply preserves_query; typeclasses eauto.
        -- apply preserves_raise; typeclasses eauto.
      * apply preserves_ret; typeclasses eauto.
Qed.

(** X25: [create] of NoDevice and of NFSDevice sets up the parents (the
    latter after checking that they exist) and never looks at, or sets,
    the existence flag: on a device without parents both return with
    nothing changed, also when the device exists already; and whenever
    they return, the existence flag and the child count of every device
    are what they were.  Their [destroy] does nothing. *)
Theorem create_without_mark (fuel i : nat) (w : World) (d : Device) :
  devs w !! i = Some d ->
  (parents d = [] ->
     NoDevice_create fuel i w = Return tt w /\ NFSDevice_create fuel i w = Return tt w) /\
  (forall w',
     NoDevice_create fuel i w = Return tt w' \/ NFSDevice_create fuel i w = Return tt w' ->
     forall j dj, devs w !! j = Some dj ->
       exists dj', devs w' !! j = Some dj' /\ exists_ dj' = exists_ dj /\ kids dj' = kids dj) /\
  NoDevice_destroy i w = Return tt w /\ NFSDevice_destroy i w = Return tt w.
Proof.
  intros Hd. split; [|split; [|split; reflexivity]].
  - intros Hp. unfold NFSDevice_create, NoDevice_create, createParents, setupParents.
    unfold bind. rewrite (get_Return _ _ _ Hd), Hp. simpl.
    rewrite (get_Return _ _ _ Hd), Hp. split; reflexivity.
  - intros w' Hrun j dj Hj.
    assert (K : keeps same_but_probe w w').
    { destruct Hrun as [Hrun|Hrun].
      - eapply preserves_Return; [|exact Hrun]. apply setupParents_keeps.
      - eapply preserves_Return; [|exact Hrun]. unfold NFSDevice_create.
        apply preserves_bind; [typeclasses eauto| |intros ?].
        + apply createParents_keeps.
        + apply setupParents_keeps. }
    destruct (keeps_lookup _ _ _ _ _ K Hj) as (dj' & Hj' & Pj).
    apply same_but_probe_fields in Pj as (Hk & He & _).
    exists dj'. split; [exact Hj'|]. split; assumption.
Qed.

Lemma create_without_mark_witness :
  (exists_ <$> devs (disk_and_request (Some true) None) !! 0%nat) = Some (Some true) /\
  NoDevice_create 5 0 (disk_and_request (Some true) None)
  = Return tt (disk_and_request (Some true) None) /\
  NFSDevice_create 5 0 (disk_and_request (Some true) None)
  = Return tt (disk_and_request (Some true) None).
Proof.
  split; [vm_compute; reflexivity|].
  destruct (create_without_mark 5 0 (disk_and_request (Some true) None)
              (set_kids 1 (blank StorageDevice "sda" [] (Some true)))) as [H _].
  - vm_compute. reflexivity.
  - exact (H eq_refl).
Defined.

End UnmarkedCreate.
